(** * AutoAvenue inventory pipeline: reconciliation, drift monitor,
      single-flight trigger, retry and dealer-frame removal.

    A shallow embedding of the parts of the backend that the testable
    properties of the design speak about:

    - [app/scraper/parser.py]     [_parse_price], [_parse_number]
    - [scrape_real.py]            price/mileage cleaning of
                                  [build_vehicle_record], the return of
                                  [main] on an empty listing and its
                                  database step
    - [app/tasks.py]              the sync and removal loops of
                                  [run_scrape]
    - [app/routers/monitor.py]    [_quick_website_check],
                                  [_compare_inventory], the trigger of
                                  [_monitor_loop]
    - [app/routers/scrape.py]     [trigger_scrape]
    - [app/scraper/utils.py]      [retry_with_backoff],
                                  [sanitize_filename],
                                  [has_dealer_frame], [remove_dealer_frame]

    Python text is modelled by [string] (one byte per character, so the
    model covers ASCII text), Python [int] by [Z], dictionaries and the
    VIN-keyed vehicle table by [gmap], sets by [gset]. *)

From Stdlib Require Import ZArith QArith Lqa String Ascii DecimalString List.
From stdpp Require Import gmap strings list sorting.

Local Open Scope Z_scope.

(* ===================================================================== *)
(** ** Python values                                                      *)
(* ===================================================================== *)

Module Py.

(** A Python [float] obtained by [float(cleaned)], where [cleaned] holds
    decimal digits and dots only.  The float is identified with the
    decimal number it was read from, [mantissa * 10^(-scale)]; binary64
    rounding, overflow to [inf] and underflow are outside the model
    (decimal literals of at most 15 significant digits, as prices are,
    survive the conversion and its [repr] unchanged). *)
Record pyfloat := PyF { mantissa : N; scale : nat }.

(** The values a vehicle field can hold.  [PyDecimal c] is the
    [decimal.Decimal] that a [Numeric(12, 2)] column yields when a row is
    loaded: [c] hundredths, always printed with two decimals. *)
Inductive pyval :=
| PyNone
| PyStr (s : string)
| PyInt (z : Z)
| PyFloat (f : pyfloat)
| PyDecimal (cents : Z).

(** *** Characters and digit strings *)

Definition is_digit (c : ascii) : bool :=
  let n := N_of_ascii c in ((48 <=? n) && (n <=? 57))%N.

Definition digit_val (c : ascii) : N := (N_of_ascii c - 48)%N.

Definition is_dot (c : ascii) : bool := (N_of_ascii c =? 46)%N.

Fixpoint chars (s : string) : list ascii :=
  match s with
  | EmptyString => []
  | String c r => c :: chars r
  end.

Fixpoint of_chars (l : list ascii) : string :=
  match l with
  | [] => EmptyString
  | c :: r => String c (of_chars r)
  end.

(** [re.sub(r"[^\d.]", "", text)] *)
Definition keep_digits_dot (s : string) : string :=
  of_chars (List.filter (fun c => is_digit c || is_dot c) (chars s)).

(** [re.sub(r"[^\d]", "", text)] *)
Definition keep_digits (s : string) : string :=
  of_chars (List.filter is_digit (chars s)).

(** Value of a string of decimal digits, most significant first. *)
Definition digits_value (l : list ascii) : N :=
  fold_left (fun acc c => (10 * acc + digit_val c)%N) l 0%N.

(** Split at the first dot: the text before it, and the text after it
    when there is one. *)
Fixpoint split_dot (l : list ascii) : list ascii * option (list ascii) :=
  match l with
  | [] => ([], None)
  | c :: r =>
      if is_dot c then ([], Some r)
      else let '(a, b) := split_dot r in (c :: a, b)
  end.

(** [float(s)] for a text of digits and dots: [ValueError] ([None])
    unless the text is [d+], [d+.d*] or [.d+]. *)
Definition py_float (s : string) : option pyfloat :=
  let '(ip, fp) := split_dot (chars s) in
  let fr := default [] fp in
  if forallb is_digit ip && forallb is_digit fr
     && negb (Nat.eqb (length ip + length fr) 0)
  then Some (PyF (digits_value (ip ++ fr)) (length fr))
  else None.

(** [int(s)] for a text of digits: [ValueError] on the empty text. *)
Definition py_int (s : string) : option Z :=
  let l := chars s in
  if forallb is_digit l && negb (Nat.eqb (length l) 0)
  then Some (Z.of_N (digits_value l))
  else None.

(** *** Truthiness and comparison with zero *)

Definition float_is_zero (f : pyfloat) : bool := (mantissa f =? 0)%N.

(** [x > 0] on a float that was read from digits. *)
Definition float_gt_zero (f : pyfloat) : bool := negb (float_is_zero f).

Definition truthy (v : pyval) : bool :=
  match v with
  | PyNone => false
  | PyStr s => negb (String.eqb s "")
  | PyInt z => negb (z =? 0)
  | PyFloat f => negb (float_is_zero f)
  | PyDecimal c => negb (c =? 0)
  end.

(** The exact rational a float stands for. *)
Definition float_Q (f : pyfloat) : Q :=
  Qmake (Z.of_N (mantissa f)) (Pos.of_nat (Nat.pow 10 (scale f))).

(** *** [str()] *)

Definition str_of_N (n : N) : string := NilZero.string_of_uint (N.to_uint n).

Definition str_of_Z (z : Z) : string := NilZero.string_of_int (Z.to_int z).

Fixpoint zeros (n : nat) : string :=
  match n with
  | O => EmptyString
  | S k => String "0" (zeros k)
  end.

(** Strip the trailing zeros of a positive number, counting them. *)
Fixpoint strip_zeros (fuel : nat) (m : N) (k : nat) : N * nat :=
  match fuel with
  | O => (m, k)
  | S fuel' =>
      if ((m mod 10 =? 0) && negb (m =? 0))%N
      then strip_zeros fuel' (m / 10)%N (S k)
      else (m, k)
  end.

Definition take_str (n : nat) (s : string) : string := String.substring 0 n s.
Definition drop_str (n : nat) (s : string) : string :=
  String.substring n (String.length s - n) s.

(** [repr(float)], which [str] uses: shortest digits, exponent form when
    the decimal point position is above 16 or below -3. *)
Definition str_of_float (f : pyfloat) : string :=
  if float_is_zero f then "0.0"%string
  else
    let '(m, k) := strip_zeros (N.to_nat (N.log2 (mantissa f)) + 1)
                               (mantissa f) 0 in
    let ds := str_of_N m in
    let n := String.length ds in
    let decpt := Z.of_nat n + Z.of_nat k - Z.of_nat (scale f) in
    if (decpt >? 16) || (decpt <? -3) then
      let e := decpt - 1 in
      let es := str_of_N (Z.to_N (Z.abs e)) in
      let es2 := if Nat.ltb (String.length es) 2 then ("0" +:+ es)%string else es in
      let frac := drop_str 1 ds in
      let sign := if e <? 0 then "-"%string else "+"%string in
      (take_str 1 ds
         +:+ (if String.eqb frac "" then "" else "." +:+ frac)
         +:+ "e" +:+ sign +:+ es2)%string
    else if decpt <=? 0 then
      ("0." +:+ zeros (Z.to_nat (- decpt)) +:+ ds)%string
    else if Z.of_nat n <=? decpt then
      (ds +:+ zeros (Z.to_nat (decpt - Z.of_nat n)) +:+ ".0")%string
    else
      (take_str (Z.to_nat decpt) ds +:+ "." +:+ drop_str (Z.to_nat decpt) ds)%string.

(** [str(Decimal)] for a value with exponent -2. *)
Definition str_of_decimal (c : Z) : string :=
  let a := Z.abs c in
  let fr := str_of_N (Z.to_N (a mod 100)) in
  let sign := if c <? 0 then "-"%string else ""%string in
  (sign +:+ str_of_N (Z.to_N (a / 100)) +:+ "."
     +:+ (if Nat.ltb (String.length fr) 2 then "0" +:+ fr else fr))%string.

(** [str(v)] for a value other than [None] (the callers test for [None]
    first). *)
Definition py_str (v : pyval) : string :=
  match v with
  | PyNone => "None"
  | PyStr s => s
  | PyInt z => str_of_Z z
  | PyFloat f => str_of_float f
  | PyDecimal c => str_of_decimal c
  end.

End Py.

(* ===================================================================== *)
(** ** app/scraper/parser.py                                              *)
(* ===================================================================== *)

Module Parser.
Import Py.

(** [_parse_price(text)]: [None] for a missing or empty text, for a text
    whose cleaned form is no number, and for a price that is not
    positive. *)
Definition _parse_price (text : option string) : option pyfloat :=
  match text with
  | None => None
  | Some t =>
      if String.eqb t "" then None
      else
        let cleaned := keep_digits_dot t in
        match py_float cleaned with
        | Some price => if float_gt_zero price then Some price else None
        | None => None
        end
  end.

(** [_parse_number(text)] *)
Definition _parse_number (text : option string) : option Z :=
  match text with
  | None => None
  | Some t =>
      if String.eqb t "" then None
      else
        let cleaned := keep_digits t in
        if String.eqb cleaned "" then None else py_int cleaned
  end.

End Parser.

(* ===================================================================== *)
(** ** scrape_real.py: the record builder                                 *)
(* ===================================================================== *)

Module RecordBuilder.
Import Py.

(** The part of the JSON-LD block that price and mileage are read from.
    [ld_offer_price] is [str(offer.get("price", ""))] of the first offer
    and [None] when [offers] is missing or empty; [ld_mileage] is
    [jld.get("mileageFromOdometer", "")]. *)
Record json_ld := JsonLd {
  ld_offer_price : option string;
  ld_mileage : string
}.

(** [specs.get(key, "")] on the label/value pairs of the detail page. *)
Definition specs_get (specs : gmap string string) (key : string) : string :=
  default ""%string (specs !! key).

(** Python's [a or b] on texts. *)
Definition str_or (a b : string) : string :=
  if String.eqb a "" then b else a.

(** The price lines of [build_vehicle_record]. *)
Definition build_vehicle_record_price
    (jld : json_ld) (specs : gmap string string) : option pyfloat :=
  let price_str := default ""%string (ld_offer_price jld) in
  let price_str :=
    if String.eqb price_str ""
    then str_or (specs_get specs "price") (specs_get specs "our price")
    else price_str in
  let cleaned := keep_digits_dot price_str in
  if String.eqb cleaned "" then None else py_float cleaned.

(** The mileage lines of [build_vehicle_record]. *)
Definition build_vehicle_record_mileage
    (jld : json_ld) (specs : gmap string string) : option Z :=
  let mileage_str :=
    str_or (ld_mileage jld)
           (str_or (specs_get specs "miles") (specs_get specs "mileage")) in
  let cleaned := keep_digits mileage_str in
  if String.eqb cleaned "" then None else py_int cleaned.

End RecordBuilder.

(* ===================================================================== *)
(** ** app/models.py                                                      *)
(* ===================================================================== *)

Module Models.
Import Py.

Inductive ScrapeStatus := RUNNING | COMPLETED | FAILED.

Definition status_eqb (a b : ScrapeStatus) : bool :=
  match a, b with
  | RUNNING, RUNNING | COMPLETED, COMPLETED | FAILED, FAILED => true
  | _, _ => false
  end.

(** A row of [scrape_logs], the Run Record.  Rows are kept in insertion
    order, which is the order of the autoincrement [id]. *)
Record ScrapeLog := MkScrapeLog {
  task_id : option string;
  started_at : Z;
  finished_at : option Z;
  status : ScrapeStatus;
  vehicles_found : nat;
  vehicles_new : nat;
  vehicles_updated : nat;
  vehicles_removed : nat;
  errors : list string;
  log_output : string
}.

(** A row of [vehicles] without its key.  [attrs] holds the tracked
    columns by name, a missing name standing for NULL.  [updated_at] is
    [None] while the column still has the default the database gave it.
    The [id] and [created_at] columns, which reconciliation neither reads
    nor writes, are left out. *)
Record Vehicle := MkVehicle {
  attrs : gmap string pyval;
  photos : list string;
  is_active : bool;
  updated_at : option Z
}.

(** A row of [vehicle_change_log]. *)
Record VehicleChangeLog := MkChangeLog {
  cl_vin : string;
  changed_at : Z;
  change_type : string;
  field_name : option string;
  old_value : option string;
  new_value : option string;
  cl_task_id : option string
}.

(** A row of [vehicle_price_history]. *)
Record VehiclePriceHistory := MkPriceHistory {
  ph_vin : string;
  ph_price : pyval;
  recorded_at : Z;
  source : string
}.

(** [getattr(row, field)] on a tracked column. *)
Definition getattr (row : Vehicle) (field : string) : pyval :=
  default PyNone (attrs row !! field).

(** [setattr(row, field, value)] *)
Definition setattr (row : Vehicle) (field : string) (value : pyval) : Vehicle :=
  MkVehicle (<[field := value]> (attrs row)) (photos row) (is_active row)
            (updated_at row).

(** Hundredths of a float, rounded to the nearest: what [Numeric(12, 2)]
    keeps of it.  A float with at most two decimals, as a price has, is
    kept as it is; on a tie in the third decimal the model takes the even
    neighbour, where the database decides on the binary value. *)
Definition round_cents (f : pyfloat) : Z :=
  let num := Z.of_N (mantissa f) * 100 in
  let den := 10 ^ Z.of_nat (scale f) in
  let q := num / den in
  let r := num mod den in
  if 2 * r <? den then q
  else if den <? 2 * r then q + 1
  else if Z.even q then q else q + 1.

(** What a column gives back for a value written to it.  [price] is
    [Numeric(12, 2)] and loads as a two-place [Decimal]; the text and
    integer columns load what was stored. *)
Definition column_load (field : string) (v : pyval) : pyval :=
  if String.eqb field "price" then
    match v with
    | PyFloat f => PyDecimal (round_cents f)
    | PyInt z => PyDecimal (100 * z)
    | _ => v
    end
  else v.

(** A row as a later session loads it. *)
Definition row_load (row : Vehicle) : Vehicle :=
  MkVehicle (map_imap (fun k v => Some (column_load k v)) (attrs row))
            (photos row) (is_active row) (updated_at row).

End Models.

(* ===================================================================== *)
(** ** scrape_real.py: step 3 of [main], the database upsert              *)
(* ===================================================================== *)

Module ScrapeReal.
Import Py.
Export Models.

Definition _tracked_fields : list string :=
  [ "stock_number"; "year"; "make"; "model"; "trim";
    "price"; "mileage"; "exterior_color"; "interior_color";
    "body_style"; "drivetrain"; "engine"; "transmission";
    "detail_url" ]%string.

(** One element of [all_vehicles], a dictionary built by
    [build_vehicle_record].  [vin] is [v.get("vin")], the empty text when
    the key is missing; [photos_key] is the ["photos"] entry. *)
Record record := MkRecord {
  vin : string;
  data : gmap string pyval;
  photos_key : option (list string)
}.

(** [v.get(field)] *)
Definition get (v : record) (field : string) : pyval :=
  default PyNone (data v !! field).

(** The three tables the session writes.  [vehicles] is keyed by the
    unique [vin] column. *)
Record Store := MkStore {
  vehicles : gmap string Vehicle;
  change_log : list VehicleChangeLog;
  price_history : list VehiclePriceHistory
}.

(** [str(x) if x is not None else ""] *)
Definition norm_str (x : pyval) : string :=
  match x with
  | PyNone => ""%string
  | _ => py_str x
  end.

(** [str(x or "")] *)
Definition str_or_empty (x : pyval) : string :=
  if truthy x then py_str x else ""%string.

(** The state of the loop over [all_vehicles]. *)
Record Loop := MkLoop {
  store : Store;
  scraped_vins : gset string;
  vehicles_new : nat;
  vehicles_updated : nat
}.

(** The ["updated"] rows of one existing vehicle, one per tracked field
    whose normalized texts differ, in the order of [_tracked_fields]. *)
Definition updated_entries (now : Z) (task : option string) (key : string)
    (existing : Vehicle) (v : record) : list VehicleChangeLog :=
  omap (fun field =>
          let old_str := norm_str (getattr existing field) in
          let new_str := norm_str (get v field) in
          if String.eqb old_str new_str then None
          else Some (MkChangeLog key now "updated" (Some field)
                                 (Some old_str) (Some new_str) task))
       _tracked_fields.

(** [for field in _tracked_fields: setattr(existing, field, v.get(field))] *)
Definition apply_fields (row : Vehicle) (v : record) : Vehicle :=
  fold_left (fun r field => setattr r field (get v field)) _tracked_fields row.

(** The body of [for v in all_vehicles].  The [select] that looks the VIN
    up flushes the session first, so a vehicle added earlier in the same
    loop is found. *)
Definition upsert (now : Z) (task : option string) (st : Loop) (v : record) : Loop :=
  let key := vin v in
  if String.eqb key "" then st
  else
    let scraped := {[ key ]} ∪ scraped_vins st in
    let db := store st in
    match vehicles db !! key with
    | Some existing =>
        let updates := updated_entries now task key existing v in
        let prices :=
          if String.eqb (str_or_empty (getattr existing "price"))
                        (str_or_empty (get v "price"))
          then []
          else [MkPriceHistory key (get v "price") now "scrape"] in
        let reactivation :=
          if is_active existing then []
          else [MkChangeLog key now "reactivated" (Some "is_active"%string)
                            (Some "False"%string) (Some "True"%string) task] in
        let row := apply_fields existing v in
        let row := MkVehicle (attrs row)
                             (default (photos existing) (photos_key v))
                             true (Some now) in
        MkLoop (MkStore (<[key := row]> (vehicles db))
                        (change_log db ++ updates ++ reactivation)
                        (price_history db ++ prices))
               scraped (vehicles_new st) (S (vehicles_updated st))
    | None =>
        let row := MkVehicle (attrs (apply_fields (MkVehicle ∅ [] true None) v))
                             (default [] (photos_key v)) true None in
        let prices :=
          match get v "price" with
          | PyNone => []
          | p => [MkPriceHistory key p now "scrape"]
          end in
        MkLoop (MkStore (<[key := row]> (vehicles db))
                        (change_log db
                           ++ [MkChangeLog key now "new" None None None task])
                        (price_history db ++ prices))
               scraped (S (vehicles_new st)) (vehicles_updated st)
    end.

(** The body of the loop over the active vehicles: one absent from
    [scraped_vins] is marked inactive and logged as removed.  The ORM
    stamps [updated_at] itself when it flushes the row. *)
Definition mark_inactive (now : Z) (task : option string) (scraped : gset string)
    (acc : Store * nat) (kv : string * Vehicle) : Store * nat :=
  let '(db, removed) := acc in
  let '(key, veh) := kv in
  if bool_decide (key ∈ scraped) then acc
  else
    (MkStore (<[key := MkVehicle (attrs veh) (photos veh) false None]> (vehicles db))
             (change_log db
                ++ [MkChangeLog key now "removed" (Some "is_active"%string)
                                (Some "True"%string) (Some "False"%string) task])
             (price_history db),
     S removed).

(** [select(Vehicle).where(Vehicle.is_active == True)]; the table has no
    ordering of its own, the rows come in the order of the map. *)
Definition active_rows (db : Store) : list (string * Vehicle) :=
  List.filter (fun kv => is_active (snd kv)) (map_to_list (vehicles db)).

(** [session.commit()]: what the next session will load. *)
Definition commit (db : Store) : Store :=
  MkStore (row_load <$> vehicles db) (change_log db) (price_history db).

(** What a run leaves: the committed tables and the four counts of the
    Run Record. *)
Record RunResult := MkRun {
  committed : Store;
  run_found : nat;
  run_new : nat;
  run_updated : nat;
  run_removed : nat
}.

(** Step 3 of [main] up to the commit, on the tables [db] that the
    session finds and the records [all_vehicles] that step 2 kept.  Step 3
    is reached when step 1 found at least one listing, whatever step 2
    kept of them: see [main_from_listings]. *)
Definition main (now : Z) (task : option string) (db : Store)
    (all_vehicles : list record) : RunResult :=
  let st := fold_left (upsert now task) all_vehicles (MkLoop db ∅ 0 0) in
  let '(db', removed) :=
    fold_left (mark_inactive now task (scraped_vins st))
              (active_rows (store st)) (store st, 0%nat) in
  MkRun (commit db') (length all_vehicles) (vehicles_new st)
        (vehicles_updated st) removed.

(** [main] from the end of step 1 on.  [total] is the number of listings
    step 1 found.  With none, [main] reports ["No vehicles found"] and
    returns before step 3: no session is opened and nothing is written
    ([None]).  Otherwise step 2 visits the detail pages, keeps in
    [all_vehicles] the records that came with a VIN, and step 3 runs on
    what was kept, be it nothing. *)
Definition main_from_listings (total : nat) (now : Z) (task : option string)
    (db : Store) (all_vehicles : list record) : option RunResult :=
  if (total =? 0)%nat then None
  else Some (main now task db all_vehicles).

(** The Run Record as [main] writes it once the loops are done:
    the row of this task when the trigger created one, a new row
    otherwise.  [finished] is the wall clock, [manual_id] the
    ["manual-<time>"] name of a command-line run, [log_msg] the summary
    line.  More than one row for the task makes [scalar_one_or_none]
    raise ([None]). *)
Definition completed_row (task : option string) (started finished : Z)
    (r : RunResult) (errs : list string) (log_msg : string) : ScrapeLog :=
  MkScrapeLog task started (Some finished) COMPLETED
              (run_found r) (run_new r) (run_updated r) (run_removed r)
              errs log_msg.

Definition task_is (t : string) (row : ScrapeLog) : bool :=
  match task_id row with
  | Some t' => String.eqb t t'
  | None => false
  end.

Definition write_scrape_log (task : option string) (finished : Z)
    (manual_id : string) (r : RunResult) (errs : list string)
    (log_msg : string) (logs : list ScrapeLog) : option (list ScrapeLog) :=
  match task with
  | Some t =>
      if String.eqb t "" then
        Some (logs ++ [completed_row (Some manual_id) finished finished r errs log_msg])
      else
        match List.filter (task_is t) logs with
        | [] => Some (logs ++ [completed_row task finished finished r errs log_msg])
        | [_] =>
            Some (map (fun row =>
                         if task_is t row
                         then completed_row (task_id row) (started_at row)
                                            finished r errs log_msg
                         else row) logs)
        | _ => None
        end
  | None =>
      Some (logs ++ [completed_row (Some manual_id) finished finished r errs log_msg])
  end.

(** *** Reading the audit trail *)

(** The rows of the change log that a run added: those after the rows
    that were there before. *)
Definition appended (before after : Store) : list VehicleChangeLog :=
  drop (length (change_log before)) (change_log after).

(** The price history rows that a run added. *)
Definition appended_prices (before after : Store) : list VehiclePriceHistory :=
  drop (length (price_history before)) (price_history after).

(** How many rows of the given change type a list holds for a VIN. *)
Definition count_entries (kind key : string) (entries : list VehicleChangeLog) : nat :=
  length (List.filter
            (fun e => String.eqb (cl_vin e) key && String.eqb (change_type e) kind)
            entries).

(** The VINs that have a row of the given change type. *)
Definition vins_with (kind : string) (entries : list VehicleChangeLog) : gset string :=
  list_to_set
    (cl_vin <$> List.filter (fun e => String.eqb (change_type e) kind) entries).

(** How many records of the snapshot find their VIN in the table when
    their turn comes: it was there before the run ([known]) or an earlier
    record of the snapshot brought it. *)
Fixpoint found_existing (known : gset string) (vs : list record) : nat :=
  match vs with
  | [] => 0
  | v :: rest =>
      if String.eqb (vin v) "" then found_existing known rest
      else ((if bool_decide (vin v ∈ known) then 1 else 0)
            + found_existing ({[ vin v ]} ∪ known) rest)%nat
  end.

(** *** Snapshots that a second run leaves alone *)

(** A record whose tracked values read the same after a round trip
    through their columns: the price is missing, or prints with exactly
    two decimals. *)
Definition stable (v : record) : bool :=
  forallb (fun field => String.eqb (norm_str (column_load field (get v field)))
                                   (norm_str (get v field)))
          _tracked_fields
  && String.eqb (str_or_empty (column_load "price" (get v "price")))
                (str_or_empty (get v "price")).

(** Records of the snapshot that share a VIN carry the same tracked
    values. *)
Definition consistent (vs : list record) : Prop :=
  forall v1 v2, v1 ∈ vs -> v2 ∈ vs -> vin v1 = vin v2 ->
                forall field, field ∈ _tracked_fields -> get v1 field = get v2 field.

(** The row a record leaves: active, with the record's values. *)
Definition holds (v : record) (m : gmap string Vehicle) : Prop :=
  exists row, m !! vin v = Some row /\ is_active row = true
              /\ forall field, field ∈ _tracked_fields ->
                               getattr row field = get v field.

(** The row of a record reads like the record: nothing to log. *)
Definition quiet (v : record) (m : gmap string Vehicle) : Prop :=
  exists row, m !! vin v = Some row /\ is_active row = true
              /\ (forall field, field ∈ _tracked_fields ->
                     norm_str (getattr row field) = norm_str (get v field))
              /\ str_or_empty (getattr row "price") = str_or_empty (get v "price").

End ScrapeReal.

(* ===================================================================== *)
(** ** app/tasks.py: the sync of [run_scrape]                             *)
(* ===================================================================== *)

Module Tasks.
Import Py.
Export Models.

(** Python's [==] on field values: numbers compare by value across
    [int], [float] and [Decimal]; a text equals only the same text;
    [None] equals only [None].  A float and a [Decimal] are compared on the
    binary value of the float, so a float read from a decimal that has no
    finite binary expansion equals no two-place [Decimal]: they are equal
    when the decimals are and the hundredths are a multiple of 25. *)
Definition py_eqb (a b : pyval) : bool :=
  match a, b with
  | PyNone, PyNone => true
  | PyStr s, PyStr t => String.eqb s t
  | PyInt x, PyInt y => x =? y
  | PyDecimal x, PyDecimal y => x =? y
  | PyFloat f, PyFloat g =>
      Z.of_N (mantissa f) * 10 ^ Z.of_nat (scale g)
        =? Z.of_N (mantissa g) * 10 ^ Z.of_nat (scale f)
  | PyInt x, PyFloat f | PyFloat f, PyInt x =>
      x * 10 ^ Z.of_nat (scale f) =? Z.of_N (mantissa f)
  | PyInt x, PyDecimal c | PyDecimal c, PyInt x => 100 * x =? c
  | PyFloat f, PyDecimal c | PyDecimal c, PyFloat f =>
      (Z.of_N (mantissa f) * 100 =? c * 10 ^ Z.of_nat (scale f))
      && (c mod 25 =? 0)
  | _, _ => false
  end.

(** The fields the loop compares, ["photos"] apart. *)
Definition sync_fields : list string :=
  [ "stock_number"; "year"; "make"; "model"; "trim"; "price";
    "mileage"; "exterior_color"; "interior_color"; "body_style";
    "drivetrain"; "engine"; "transmission" ]%string.

Definition list_eqb (a b : list string) : bool := bool_decide (a = b).

(** One turn of [for field in [...]]: a value that is not [None] and
    differs from the stored one is written and sets [changed]. *)
Definition sync_field (v : ScrapeReal.record) (acc : Vehicle * bool)
    (field : string) : Vehicle * bool :=
  let '(row, changed) := acc in
  let new_val := ScrapeReal.get v field in
  match new_val with
  | PyNone => acc
  | _ => if py_eqb new_val (getattr row field) then acc
         else (setattr row field new_val, true)
  end.

(** The same turn for ["photos"], which sits between ["transmission"]
    and ["detail_url"] in the list. *)
Definition sync_photos (v : ScrapeReal.record) (acc : Vehicle * bool)
    : Vehicle * bool :=
  let '(row, changed) := acc in
  match ScrapeReal.photos_key v with
  | None => acc
  | Some p => if list_eqb p (photos row) then acc
              else (MkVehicle (attrs row) p (is_active row) (updated_at row), true)
  end.

Record Loop := MkLoop {
  table : gmap string Vehicle;
  scraped_vins : gset string;
  new_count : nat;
  updated_count : nat
}.

(** The body of [for v_data in all_vehicles]. *)
Definition sync (now : Z) (st : Loop) (v_data : ScrapeReal.record) : Loop :=
  let key := ScrapeReal.vin v_data in
  if String.eqb key "" then st
  else
    let scraped := {[ key ]} ∪ scraped_vins st in
    match table st !! key with
    | Some existing =>
        let acc := fold_left (sync_field v_data) sync_fields (existing, false) in
        let acc := sync_photos v_data acc in
        let '(row, changed) := sync_field v_data acc "detail_url"%string in
        if changed then
          MkLoop (<[key := MkVehicle (attrs row) (photos row) true (Some now)]>
                    (table st))
                 scraped (new_count st) (S (updated_count st))
        else
          MkLoop (<[key := row]> (table st)) scraped (new_count st)
                 (updated_count st)
    | None =>
        let row :=
          MkVehicle (attrs (ScrapeReal.apply_fields (MkVehicle ∅ [] true None) v_data))
                    (default [] (ScrapeReal.photos_key v_data)) true None in
        MkLoop (<[key := row]> (table st)) scraped (S (new_count st))
               (updated_count st)
    end.

(** The loop over [all_vehicles], with its two counters. *)
Definition run_scrape_sync (now : Z) (tbl : gmap string Vehicle)
    (all_vehicles : list ScrapeReal.record) : Loop :=
  fold_left (sync now) all_vehicles (MkLoop tbl ∅ 0 0).

(** [select(Vehicle).where(Vehicle.is_active == True)] *)
Definition active_vehicles (tbl : gmap string Vehicle) : list (string * Vehicle) :=
  List.filter (fun kv => is_active (snd kv)) (map_to_list tbl).

(** The body of [for v in active_vehicles]: a vehicle whose VIN was not
    scraped is marked inactive and stamped with the clock, read again at
    [now]; this path writes no change log. *)
Definition mark_removed (now : Z) (scraped : gset string)
    (acc : gmap string Vehicle * nat) (kv : string * Vehicle)
    : gmap string Vehicle * nat :=
  let '(tbl, removed) := acc in
  let '(key, veh) := kv in
  if bool_decide (key ∈ scraped) then acc
  else (<[key := MkVehicle (attrs veh) (photos veh) false (Some now)]> tbl,
        S removed).

(** [removed_count = 0; if scraped_vins: ...]: an empty set of scraped
    VINs skips the removal loop. *)
Definition remove_missing (now : Z) (st : Loop) : gmap string Vehicle * nat :=
  if bool_decide (scraped_vins st = ∅) then (table st, 0%nat)
  else fold_left (mark_removed now (scraped_vins st))
                 (active_vehicles (table st)) (table st, 0%nat).

(** What the sync of [run_scrape] hands to [db.commit()]: the vehicle
    table and the three counters. *)
Record SyncResult := MkSync {
  synced : gmap string Vehicle;
  sync_new : nat;
  sync_updated : nat;
  sync_removed : nat
}.

Definition run_scrape_db (now later : Z) (tbl : gmap string Vehicle)
    (all_vehicles : list ScrapeReal.record) : SyncResult :=
  let st := run_scrape_sync now tbl all_vehicles in
  let '(tbl', removed) := remove_missing later st in
  MkSync tbl' (new_count st) (updated_count st) removed.

End Tasks.

(* ===================================================================== *)
(** ** app/routers/monitor.py: [_compare_inventory]                       *)
(* ===================================================================== *)

Module Monitor.
Import Py.
Export Models.

(** One dictionary of the list [_quick_website_check] returns.  [year]
    is the number the four digits of the URL spell. *)
Record website_vehicle := MkWebsite {
  wv_vin : string;
  wv_year : N;
  wv_make : string;
  wv_model : string;
  wv_price : string;
  wv_detail_url : string
}.

Record InventoryComparisonVehicle := MkICV {
  icv_vin : string;
  icv_year : option Z;
  icv_make : option string;
  icv_model : option string;
  icv_price : option string;
  icv_status : string;
  icv_detail_url : option string
}.

Record InventoryComparison := MkComparison {
  website_count : nat;
  local_count : nat;
  matched : nat;
  missing_locally : nat;
  extra_locally : nat;
  changed : nat;
  vehicles : list InventoryComparisonVehicle;
  checked_at : Z;
  pages_checked : Z
}.

(** The order [sorted] puts texts in. *)
Definition str_le (a b : string) : Prop := String.leb a b = true.

#[global] Instance str_le_dec : RelDecision str_le.
Proof. intros a b. unfold str_le. apply _. Defined.

Definition sorted (s : gset string) : list string :=
  merge_sort str_le (elements s).

(** Digits in groups of three, as the [,] of a format spec writes them. *)
Fixpoint group3 (fuel : nat) (n : N) : string :=
  match fuel with
  | O => str_of_N n
  | S k =>
      if (n <? 1000)%N then str_of_N n
      else
        let r := str_of_N (n mod 1000) in
        (group3 k (n / 1000)
           +:+ "," +:+ zeros (3 - String.length r) +:+ r)%string
  end.

(** [f"${price:,.0f}"] on a two-place [Decimal]: rounded to a whole
    number, ties to even. *)
Definition format_dollars (cents : Z) : string :=
  let a := Z.abs cents in
  let q := a / 100 in
  let r := a mod 100 in
  let whole := if r <? 50 then q
               else if 50 <? r then q + 1
               else if Z.even q then q else q + 1 in
  let sign := if cents <? 0 then "-"%string else ""%string in
  ("$" +:+ sign
     +:+ group3 (N.to_nat (N.log2 (Z.to_N whole))) (Z.to_N whole))%string.

(** [f"${lv.price:,.0f}" if lv.price else None] *)
Definition display_price (lv : Vehicle) : option string :=
  match getattr lv "price" with
  | PyDecimal c => if c =? 0 then None else Some (format_dollars c)
  | _ => None
  end.

(** A stored value as the optional integer or text of the response. *)
Definition as_int (v : pyval) : option Z :=
  match v with PyInt z => Some z | _ => None end.
Definition as_str (v : pyval) : option string :=
  match v with PyStr s => Some s | _ => None end.

(** [int(wv.get("year") or 0) or None] *)
Definition website_year (wv : website_vehicle) : option Z :=
  if (wv_year wv =? 0)%N then None else Some (Z.of_N (wv_year wv)).

(** [{v["vin"]: v for v in website_vehicles}]: the last one wins. *)
Definition website_map (website_vehicles : list website_vehicle)
    : gmap string website_vehicle :=
  list_to_map (reverse ((fun v => (wv_vin v, v)) <$> website_vehicles)).

Definition match_row (wmap : gmap string website_vehicle)
    (local_vehicles : gmap string Vehicle) (key : string)
    : option InventoryComparisonVehicle :=
  wv ← wmap !! key;
  lv ← local_vehicles !! key;
  Some (MkICV key
          (if truthy (getattr lv "year") then as_int (getattr lv "year")
           else website_year wv)
          (if truthy (getattr lv "make") then as_str (getattr lv "make")
           else Some (wv_make wv))
          (if truthy (getattr lv "model") then as_str (getattr lv "model")
           else Some (wv_model wv))
          (display_price lv) "match" (Some (wv_detail_url wv))).

Definition missing_local_row (wmap : gmap string website_vehicle)
    (key : string) : option InventoryComparisonVehicle :=
  wv ← wmap !! key;
  Some (MkICV key (website_year wv) (Some (wv_make wv)) (Some (wv_model wv))
              None "missing_local" (Some (wv_detail_url wv))).

Definition missing_remote_row (local_vehicles : gmap string Vehicle)
    (key : string) : option InventoryComparisonVehicle :=
  lv ← local_vehicles !! key;
  Some (MkICV key (as_int (getattr lv "year")) (as_str (getattr lv "make"))
              (as_str (getattr lv "model")) (display_price lv)
              "missing_remote" None).

(** One turn of the loop over the matched VINs: a row is appended and
    [matched] goes up by one. *)
Definition match_step (wmap : gmap string website_vehicle)
    (local_vehicles : gmap string Vehicle)
    (acc : list InventoryComparisonVehicle * nat) (key : string)
    : list InventoryComparisonVehicle * nat :=
  let '(rows, n) := acc in
  match match_row wmap local_vehicles key with
  | Some row => (rows ++ [row], S n)
  | None => acc
  end.

(** [_compare_inventory] on the list the website scan returned and the
    vehicle table the session reads.  [now] is the wall clock. *)
Definition _compare_inventory (website_vehicles : list website_vehicle)
    (tbl : gmap string Vehicle) (max_pages : Z) (now : Z)
    : InventoryComparison :=
  let local_vehicles : gmap string Vehicle :=
    filter (fun kv => is_active (snd kv) = true) tbl in
  let website_vins : gset string :=
    list_to_set (wv_vin <$> website_vehicles) in
  let wmap := website_map website_vehicles in
  let local_vins : gset string := dom local_vehicles in
  let changed := 0%nat in
  let '(rows, matched) :=
    fold_left (match_step wmap local_vehicles)
              (sorted (website_vins ∩ local_vins)) ([], 0%nat) in
  let rows :=
    rows ++ omap (missing_local_row wmap) (sorted (website_vins ∖ local_vins)) in
  let rows :=
    rows ++ omap (missing_remote_row local_vehicles)
                 (sorted (local_vins ∖ website_vins)) in
  let missing_locally := size (website_vins ∖ local_vins) in
  let extra_locally := size (local_vins ∖ website_vins) in
  MkComparison (length website_vehicles) (size local_vehicles)
               matched missing_locally extra_locally changed
               rows now (if max_pages =? 0 then 99 else max_pages).

(** [needs_scrape] of the monitor loop. *)
Definition needs_scrape (c : InventoryComparison) : bool :=
  (0 <? missing_locally c)%nat || (0 <? extra_locally c)%nat
  || (0 <? changed c)%nat.

(** *** [_quick_website_check]: the scan of the listing pages *)

(** What the browser hands back for one listing page.  [detail_urls]
    holds, for each detail link in page order, the dictionary the loop
    would build from it: the regular expression applied to the link and
    the price looked up by VIN, [None] for a link the expression does not
    match.  [page_nums_found] are the page numbers of the pagination
    links.  [progress_fails] says that writing the progress file after
    the links raises. *)
Record PageData := MkPage {
  detail_urls : list (option website_vehicle);
  page_nums_found : list Z;
  progress_fails : bool
}.

(** The state of [for link in detail_urls]. *)
Record Scan := MkScan {
  all_vehicles : list website_vehicle;
  seen_vins : gset string;
  page_found : nat
}.

(** The body of [for link in detail_urls]: a link without a match and a
    VIN seen before are skipped. *)
Definition scan_link (st : Scan) (link : option website_vehicle) : Scan :=
  match link with
  | None => st
  | Some wv =>
      if bool_decide (wv_vin wv ∈ seen_vins st) then st
      else MkScan (all_vehicles st ++ [wv]) ({[ wv_vin wv ]} ∪ seen_vins st)
                  (S (page_found st))
  end.

(** [max(page_nums_found)] of a list that is not empty. *)
Definition max_page (nums : list Z) : Z :=
  match nums with
  | [] => 0
  | n :: rest => fold_left Z.max rest n
  end.

(** [has_next] as the loop settles it. *)
Definition has_next (page_num : Z) (nums : list Z) : bool :=
  bool_decide (page_num + 1 ∈ nums)
  || match nums with
     | [] => false
     | _ => page_num <? max_page nums
     end.

(** The [while True] loop from page [page_num] on.  [fetch] is the
    website: [None] when loading or evaluating the page raises, which the
    loop logs before it stops.  The result is the list of vehicles and
    the page number the loop stopped at; [None] when [fuel] turns of the
    loop were not enough. *)
Fixpoint scan_pages (fuel : nat) (fetch : Z -> option PageData) (max_pages : Z)
    (page_num : Z) (seen : gset string) (found : list website_vehicle)
    : option (list website_vehicle * Z) :=
  match fuel with
  | O => None
  | S fuel' =>
      match fetch page_num with
      | None => Some (found, page_num)
      | Some pd =>
          match detail_urls pd with
          | [] => Some (found, page_num)
          | _ =>
              let st := fold_left scan_link (detail_urls pd) (MkScan found seen 0) in
              if progress_fails pd then Some (all_vehicles st, page_num)
              else if (page_found st =? 0)%nat then Some (all_vehicles st, page_num)
              else if negb (has_next page_num (page_nums_found pd))
                   then Some (all_vehicles st, page_num)
              else
                let page_num := page_num + 1 in
                if negb (max_pages =? 0) && (max_pages <? page_num)
                then Some (all_vehicles st, page_num)
                else scan_pages fuel' fetch max_pages page_num
                                (seen_vins st) (all_vehicles st)
          end
      end
  end.

(** What the scan keeps from link to link: the vehicles found have
    distinct VINs, all of them in the set of VINs seen. *)
Definition scan_inv (seen : gset string) (found : list website_vehicle) : Prop :=
  NoDup (wv_vin <$> found) /\ forall x, x ∈ wv_vin <$> found -> x ∈ seen.

(** [_quick_website_check(max_pages)]: the scan starts at page 1 with
    nothing seen. *)
Definition _quick_website_check (fuel : nat) (fetch : Z -> option PageData)
    (max_pages : Z) : option (list website_vehicle * Z) :=
  scan_pages fuel fetch max_pages 1 ∅ [].

End Monitor.

(* ===================================================================== *)
(** ** app/routers/scrape.py: [trigger_scrape]                            *)
(* ===================================================================== *)

Module Scrape.
Import Py.
Export Models.

(** The JSON document of a progress file. *)
Record Progress := MkProgress {
  p_task_id : string;
  p_status : string;
  p_progress : Z;
  p_vehicles_found : Z;
  p_vehicles_new : Z;
  p_vehicles_updated : Z;
  p_current_page : Z;
  p_total_pages : Z;
  p_message : string
}.

(** What the endpoint reads and writes: the [scrape_logs] table, the
    module-level dictionary [_running_pids], the progress directory and
    the subprocesses started so far (pid, task id, pages). *)
Record App := MkApp {
  scrape_logs : list ScrapeLog;
  _running_pids : gmap string Z;
  progress_files : gmap string Progress;
  launched : list (Z * string * Z)
}.

(** What the endpoint asks of its surroundings during one call:
    [alive pid] is [_is_subprocess_alive(pid)], [script_exists] is
    [scraper_script.exists()], [uuid_hex] the twelve hex digits of the
    fresh uuid, [popen_pid] the pid of the process [Popen] starts,
    [clock] the time the [started_at] default reads. *)
Record Env := MkEnv {
  alive : Z -> bool;
  script_exists : bool;
  uuid_hex : string;
  popen_pid : Z;
  clock : Z
}.

Inductive Response :=
| ScrapeTriggerResponse (task : string) (message : string)
| HTTPException (status_code : Z) (detail : string).

(** [select(ScrapeLog).where(status == RUNNING)
      .order_by(desc(started_at)).limit(1)]: position and row of the
    running row that started last (the earliest such row of the table
    when several started at the same time). *)
Fixpoint latest_running_from (i : nat) (rows : list ScrapeLog)
    (best : option (nat * ScrapeLog)) : option (nat * ScrapeLog) :=
  match rows with
  | [] => best
  | row :: rest =>
      let best' :=
        if status_eqb (status row) RUNNING then
          match best with
          | Some (_, b) => if started_at b <? started_at row
                           then Some (i, row) else best
          | None => Some (i, row)
          end
        else best in
      latest_running_from (S i) rest best'
  end.

Definition latest_running (rows : list ScrapeLog) : option (nat * ScrapeLog) :=
  latest_running_from 0 rows None.

(** [pid = _running_pids.get(running_log.task_id)] *)
Definition recorded_pid (app : App) (row : ScrapeLog) : option Z :=
  t ← task_id row; _running_pids app !! t.

(** [pid and _is_subprocess_alive(pid)] *)
Definition process_alive (env : Env) (app : App) (row : ScrapeLog) : bool :=
  match recorded_pid app row with
  | Some pid => negb (pid =? 0) && alive env pid
  | None => false
  end.

(** ['all' if pages == 0 else pages] *)
Definition pages_label (pages : Z) : string :=
  if pages =? 0 then "all"%string else str_of_Z pages.

Definition mark_failed (row : ScrapeLog) : ScrapeLog :=
  MkScrapeLog (task_id row) (started_at row) (finished_at row) FAILED
              (vehicles_found row) (vehicles_new row) (vehicles_updated row)
              (vehicles_removed row) (errors row)
              "Process exited unexpectedly.".

Definition new_log (env : Env) (task : string) (pages : Z) : ScrapeLog :=
  MkScrapeLog (Some task) (clock env) None RUNNING 0 0 0 0 []
              ("Scrape starting (pages=" +:+ pages_label pages +:+ ")...").

Definition starting_progress (task : string) : Progress :=
  MkProgress task "running" 0 0 0 0 0 0 "Starting scraper...".

(** [trigger_scrape(body)].  The session of [get_db] commits when the
    endpoint returns and rolls back when it raises, so a raised
    [HTTPException] leaves [scrape_logs] as it was; the progress file
    written before the raise stays. *)
Definition trigger_scrape (env : Env) (pages : Z) (app : App) : Response * App :=
  let running_log := latest_running (scrape_logs app) in
  let guard :=
    match running_log with
    | Some (i, row) =>
        if process_alive env app row
        then inl (HTTPException 409
                    ("A scrape is already running (task_id="
                       +:+ default "None"%string (task_id row) +:+ ")."))
        else inr (<[i := mark_failed row]> (scrape_logs app))
    | None => inr (scrape_logs app)
    end in
  match guard with
  | inl err => (err, app)
  | inr logs =>
      let task := ("scrape-" +:+ uuid_hex env)%string in
      let logs := logs ++ [new_log env task pages] in
      let files := <[task := starting_progress task]> (progress_files app) in
      if negb (script_exists env) then
        (HTTPException 500 "scrape_real.py not found.",
         MkApp (scrape_logs app) (_running_pids app) files (launched app))
      else
        (ScrapeTriggerResponse task
           ("Scrape job launched (pages=" +:+ pages_label pages +:+ ")."),
         MkApp logs (<[task := popen_pid env]> (_running_pids app)) files
               (launched app ++ [(popen_pid env, task, pages)]))
  end.

(** The branch of [_monitor_loop] in [monitor.py] that starts a run when
    the comparison found drift: a running row and a progress file are
    written and the scraper is started.  The pid of the process is not
    kept, and no running row is looked for first. *)
Definition auto_trigger (env : Env) (summary : string) (pages : Z) (app : App) : App :=
  let task := ("auto-" +:+ uuid_hex env)%string in
  MkApp (scrape_logs app
           ++ [MkScrapeLog (Some task) (clock env) None RUNNING 0 0 0 0 []
                           ("Auto-scrape triggered by monitor. " +:+ summary)])
        (_running_pids app)
        (<[task := MkProgress task "running" 0 0 0 0 0 0
                              "Auto-scrape triggered by monitor..."]>
           (progress_files app))
        (launched app ++ [(popen_pid env, task, pages)]).

(** [row], at position [i], is a running row that started after every
    other running row of the table. *)
Definition started_last (rows : list ScrapeLog) (i : nat) (row : ScrapeLog) : Prop :=
  rows !! i = Some row
  /\ status row = RUNNING
  /\ forall j r, rows !! j = Some r -> status r = RUNNING -> j <> i ->
                 started_at r < started_at row.

(** The table holds at most one running row: what the guard of
    [trigger_scrape], which reads one row, relies on. *)
Definition one_running_at_most (rows : list ScrapeLog) : Prop :=
  forall j k r r', rows !! j = Some r -> rows !! k = Some r' ->
                   status r = RUNNING -> status r' = RUNNING -> j = k.

End Scrape.

(* ===================================================================== *)
(** ** app/scraper/utils.py                                               *)
(* ===================================================================== *)

Module Utils.

(** *** [retry_with_backoff] *)

(** What one call of the wrapped coroutine does: it returns a value or
    raises an [Exception]. *)
Inductive outcome (A E : Type) :=
| Returned (a : A)
| Raised (e : E).
Arguments Returned {A E} a.
Arguments Raised {A E} e.

(** How [retry_with_backoff] ends.  [RaiseNone] is [raise None], which
    is what the last line does when the loop body never ran;
    [RaisedOverflow] is the [OverflowError] that leaves the [except]
    block when the delay cannot be computed. *)
Inductive retry_result (A E : Type) :=
| Result (a : A)
| Reraised (e : E)
| RaiseNone
| RaisedOverflow.
Arguments Result {A E} a.
Arguments Reraised {A E} e.
Arguments RaiseNone {A E}.
Arguments RaisedOverflow {A E}.

(** [base_delay * (2 ** attempt) + random.uniform(0, 1)], [jitter] being
    the number drawn.  [base_delay] is a float and [2 ** attempt] an
    integer, which the product turns into a float first: from
    [attempt = 1024] on that conversion raises [OverflowError] ([None]).
    Below that the delays are taken as rationals; the product of a float
    by a power of two is exact while it stays in range. *)
Definition wait (base_delay : Q) (attempt : nat) (jitter : Q) : option Q :=
  if (1024 <=? attempt)%nat then None
  else Some (base_delay * inject_Z (2 ^ Z.of_nat attempt) + jitter)%Q.

(** The loop [for attempt in range(max_retries)], [todo] turns before its
    end.  [op k] is what the [k]-th call of the coroutine does, [jitter k]
    the number drawn after it failed; the delays slept are collected.  An
    exception raised while the delay is computed leaves the function. *)
Fixpoint attempts {A E : Type} (op : nat -> outcome A E) (jitter : nat -> Q)
    (max_retries : Z) (base_delay : Q) (todo attempt : nat)
    (last_exception : option E) (slept : list Q)
    : retry_result A E * list Q :=
  match todo with
  | O =>
      (match last_exception with
       | Some e => Reraised e
       | None => RaiseNone
       end, slept)
  | S todo' =>
      match op attempt with
      | Returned a => (Result a, slept)
      | Raised e =>
          if Z.of_nat attempt <? max_retries - 1 then
            match wait base_delay attempt (jitter attempt) with
            | Some w =>
                attempts op jitter max_retries base_delay todo' (S attempt)
                         (Some e) (slept ++ [w])
            | None => (RaisedOverflow, slept)
            end
          else
            attempts op jitter max_retries base_delay todo' (S attempt)
                     (Some e) slept
      end
  end.

Definition retry_with_backoff {A E : Type} (op : nat -> outcome A E)
    (jitter : nat -> Q) (max_retries : Z) (base_delay : Q)
    : retry_result A E * list Q :=
  attempts op jitter max_retries base_delay (Z.to_nat max_retries) 0 None [].

(** The delays the design names for the failures of the attempts
    [first], [first + 1], ..., [count] of them: the base delay doubled
    at every attempt, plus the number drawn. *)
Definition slept_before (jitter : nat -> Q) (base_delay : Q)
    (first count : nat) : list Q :=
  map (fun j => (base_delay * inject_Z (2 ^ Z.of_nat j) + jitter j)%Q)
      (seq first count).

(** *** [sanitize_filename] *)

(** [c in keep]: an ASCII letter, a digit, or one of [_], [-], [.]. *)
Definition in_keep (c : ascii) : bool :=
  let n := nat_of_ascii c in
  ((97 <=? n) && (n <=? 122))%nat || ((65 <=? n) && (n <=? 90))%nat
  || ((48 <=? n) && (n <=? 57))%nat
  || (n =? 95)%nat || (n =? 45)%nat || (n =? 46)%nat.

(** ["".join(c if c in keep else "_" for c in name)] *)
Definition sanitize_filename (name : string) : string :=
  Py.of_chars (map (fun c => if in_keep c then c else "_"%char) (Py.chars name)).

(** *** Dealer frame

    [scrape_real.py] carries its own copies of the two functions, which
    differ from these by a printed message only. *)

Inductive exn := IndexError | OSError | UnidentifiedImageError.

(** A computation that returns or raises. *)
Inductive exc (A : Type) :=
| Ok (a : A)
| Raise (e : exn).
Arguments Ok {A} a.
Arguments Raise {A} e.

Definition bind {A B : Type} (m : exc A) (k : A -> exc B) : exc B :=
  match m with
  | Ok a => k a
  | Raise e => Raise e
  end.

(** [try: body except Exception: handler] *)
Definition try_except {A : Type} (body : exc A) (handler : exn -> exc A) : exc A :=
  match body with
  | Ok a => Ok a
  | Raise e => handler e
  end.

(** Pillow modes, by the number of bands of a pixel. *)
Inductive mode := Bilevel | L | P | LA | RGB | YCbCr | RGBA | CMYK.

Definition bands (m : mode) : nat :=
  match m with
  | Bilevel | L | P => 1
  | LA => 2
  | RGB | YCbCr => 3
  | RGBA | CMYK => 4
  end.

(** A decoded image: [pixel row column] lists the band values of a
    pixel. *)
Record Image := MkImage {
  img_mode : mode;
  width : Z;
  height : Z;
  pixel : Z -> Z -> list Z
}.

(** [np.array(img).ndim]: a single-band image gives a two-dimensional
    array, the others have the band axis. *)
Definition ndim (img : Image) : nat :=
  if Nat.eqb (bands (img_mode img)) 1 then 2 else 3.

(** [int(n * 0.pp)] for a percentage.  The binary64 product truncates to
    this quotient for every [n] up to two million. *)
Definition percent (n pp : Z) : Z := n * pp / 100.

(** [np.all(p > 230)] over the bands of a pixel. *)
Definition bright (p : list Z) : bool := forallb (fun v => 230 <? v) p.

(** [np.sum(np.all(region > 230, axis=2))] over the rows from [r0] and
    the columns from [c0], [nr] by [nc] pixels. *)
Definition count_bright (img : Image) (r0 c0 : Z) (nr nc : nat) : Z :=
  fold_left
    (fun acc i =>
       fold_left
         (fun acc j =>
            if bright (pixel img (r0 + Z.of_nat i) (c0 + Z.of_nat j))
            then acc + 1 else acc)
         (seq 0 nc) acc)
    (seq 0 nr) 0.

(** [count / area * 100 > threshold], which the floats decide as the
    integers do. *)
Definition ratio_exceeds (count area threshold : Z) : bool :=
  threshold * area <? 100 * count.

(** The body of [has_dealer_frame] once the image is open. *)
Definition frame_test (img : Image) : exc bool :=
  let h := height img in
  let w := width img in
  if (h <? 100) || (w <? 100) then Ok false
  else
    let tl_h := percent h 12 in
    let tl_w := percent w 30 in
    if Nat.eqb (ndim img) 2 then Raise IndexError
    else
      let tl_white := count_bright img 0 0 (Z.to_nat tl_h) (Z.to_nat tl_w) in
      let br_h := percent h 7 in
      let br_w := percent w 50 in
      let br_white :=
        count_bright img (h - br_h) (w - br_w) (Z.to_nat br_h) (Z.to_nat br_w) in
      Ok (ratio_exceeds tl_white (tl_h * tl_w) 40
          && ratio_exceeds br_white (br_h * br_w) 30).

(** [img.crop((0, top, w, bottom))] *)
Definition crop_rows (img : Image) (top bottom : Z) : Image :=
  MkImage (img_mode img) (width img) (bottom - top)
          (fun r c => pixel img (r + top) c).

(** The crop [remove_dealer_frame] keeps. *)
Definition cropped (img : Image) : Image :=
  let h := height img in
  crop_rows img (percent h 13) (h - percent h 7).

(** Pillow as the two functions use it: [open_image] is
    [Image.open(BytesIO(b))] together with the decoding of the pixels,
    [save_jpeg] is [save(out, format="JPEG", quality=95)] followed by
    [out.getvalue()].  Either can raise. *)
Record Pillow := MkPillow {
  open_image : list Byte.byte -> exc Image;
  save_jpeg : Image -> exc (list Byte.byte)
}.

Definition has_dealer_frame (pil : Pillow) (img_bytes : list Byte.byte) : exc bool :=
  try_except (bind (open_image pil img_bytes) frame_test)
             (fun _ => Ok false).

Definition remove_dealer_frame (pil : Pillow) (img_bytes : list Byte.byte)
    : exc (list Byte.byte) :=
  try_except
    (bind (open_image pil img_bytes) (fun img =>
       if (height img <? 100) || (width img <? 100) then Ok img_bytes
       else save_jpeg pil (cropped img)))
    (fun _ => Ok img_bytes).

(** The measure the design speaks of: the share of bright pixels, in
    percent, of the band of [nr] by [nc] pixels whose first pixel is at
    row [r0] and column [c0]. *)
Definition bright_percent (img : Image) (r0 c0 : Z) (nr nc : nat) : Q :=
  (inject_Z (count_bright img r0 c0 nr nc)
     / inject_Z (Z.of_nat nr * Z.of_nat nc) * 100)%Q.

(** The top 12% of the rows by the left 30% of the columns. *)
Definition top_left_percent (img : Image) : Q :=
  bright_percent img 0 0 (Z.to_nat (height img * 12 / 100))
                 (Z.to_nat (width img * 30 / 100)).

(** The bottom 7% of the rows by the right 50% of the columns. *)
Definition bottom_right_percent (img : Image) : Q :=
  let bh := height img * 7 / 100 in
  let bw := width img * 50 / 100 in
  bright_percent img (height img - bh) (width img - bw) (Z.to_nat bh) (Z.to_nat bw).

(** A white image of 100 by 100 pixels, and a Pillow that opens every
    byte string as one given image and answers every save alike. *)
Definition white (m : mode) : Image :=
  MkImage m 100 100 (fun _ _ => repeat 255 (bands m)).

Definition fixed_pillow (img : Image) (enc : exc (list Byte.byte)) : Pillow :=
  MkPillow (fun _ => Ok img) (fun _ => enc).

End Utils.

(* ===================================================================== *)
(** ** A listing followed through several runs                            *)
(* ===================================================================== *)

Module Scenario.
Import Py.
Import ScrapeReal.
Local Open Scope string_scope.

Definition empty_store : Store := MkStore ∅ [] [].

Definition accord_fields (price : pyval) : gmap string pyval :=
  list_to_map
    [ ("stock_number", PyStr "A1001"); ("year", PyInt 2019);
      ("make", PyStr "Honda"); ("model", PyStr "Accord");
      ("trim", PyStr "EX-L"); ("price", price); ("mileage", PyInt 15234);
      ("exterior_color", PyStr "Blue"); ("interior_color", PyStr "");
      ("body_style", PyStr "Sedan"); ("drivetrain", PyStr "FWD");
      ("engine", PyStr ""); ("transmission", PyStr "Automatic");
      ("detail_url", PyStr "https://autoavenj.ebizautos.com/details-2019-honda-accord-ex_l-used-1HGCM82633A004352.html") ].

(** A listing at $28,995, and the same listing without a price. *)
Definition accord : record :=
  MkRecord "1HGCM82633A004352" (accord_fields (PyFloat (PyF 28995 0))) (Some []).

Definition accord_unpriced : record :=
  MkRecord "1HGCM82633A004352" (accord_fields PyNone) (Some []).

(** The same VIN reached through a second detail page that names another
    trim. *)
Definition accord_other_page : record :=
  MkRecord "1HGCM82633A004352"
           (<["trim" := PyStr "Sport"]> (accord_fields PyNone)) (Some []).

(** A second listing, and a table that holds the unpriced Accord only:
    as an active row, and as a row that an earlier run marked removed. *)
Definition civic : record :=
  MkRecord "2HGFC2F59KH512345"
           (<["model" := PyStr "Civic"]> (accord_fields PyNone)) (Some []).

Definition accord_row (active : bool) : Vehicle :=
  MkVehicle (accord_fields PyNone) [] active None.

Definition accord_table (active : bool) : gmap string Vehicle :=
  {[ "1HGCM82633A004352" := accord_row active ]}.

(** A website of two listing pages: the Accord and a link that is not a
    detail link on the first, the Accord again and the Civic on the
    second; pages further on are empty. *)
Definition accord_link : Monitor.website_vehicle :=
  Monitor.MkWebsite "1HGCM82633A004352" 2019 "Honda" "Accord" "28995"
    "https://autoavenj.ebizautos.com/details-2019-honda-accord-ex_l-used-1HGCM82633A004352.html".

Definition civic_link : Monitor.website_vehicle :=
  Monitor.MkWebsite "2HGFC2F59KH512345" 2020 "Honda" "Civic" ""
    "https://autoavenj.ebizautos.com/details-2020-honda-civic-lx-used-2HGFC2F59KH512345.html".

Definition two_pages (page_num : Z) : option Monitor.PageData :=
  if Z.eqb page_num 1 then
    Some (Monitor.MkPage [Some accord_link; None] [1; 2] false)
  else if Z.eqb page_num 2 then
    Some (Monitor.MkPage [Some accord_link; Some civic_link] [1; 2] false)
  else Some (Monitor.MkPage [] [] false).

End Scenario.

(* ===================================================================== *)
(** * Properties                                                          *)
(* ===================================================================== *)

Import Py.

(** *** Price and mileage cleaning *)

Section Cleaning.
Local Open Scope string_scope.

Lemma chars_of_chars (l : list ascii) : chars (of_chars l) = l.
Proof. induction l as [|c l IH]; simpl; [done | by rewrite IH]. Qed.

(** Cleaning leaves digits and dots only. *)
Lemma keep_digits_dot_only (s : string) :
  Forall (fun c => is_digit c || is_dot c = true) (chars (keep_digits_dot s)).
Proof.
  unfold keep_digits_dot. rewrite chars_of_chars.
  apply Forall_forall. intros c Hc.
  apply list_elem_of_In, filter_In in Hc. tauto.
Qed.

Lemma keep_digits_only (s : string) :
  Forall (fun c => is_digit c = true) (chars (keep_digits s)).
Proof.
  unfold keep_digits. rewrite chars_of_chars.
  apply Forall_forall. intros c Hc.
  apply list_elem_of_In, filter_In in Hc. tauto.
Qed.

(** The parser never returns a price of zero. *)
Lemma parse_price_not_zero (text : option string) (f : pyfloat) :
  Parser._parse_price text = Some f -> float_is_zero f = false.
Proof.
  unfold Parser._parse_price. destruct text as [t|]; [|done].
  destruct (String.eqb t ""); [done|].
  destruct (py_float (keep_digits_dot t)) as [p|]; [|done].
  unfold float_gt_zero. destruct (float_is_zero p) eqn:E; simpl; [done|].
  by intros [= <-].
Qed.

(** The scenario of the design on the parser path. *)
Example parse_price_28995 :
  Parser._parse_price (Some "$28,995") = Some (PyF 28995 0).
Proof. reflexivity. Qed.

Example parse_price_28995_str :
  option_map str_of_float (Parser._parse_price (Some "$28,995")) = Some "28995.0".
Proof. reflexivity. Qed.

Example parse_price_cents :
  Parser._parse_price (Some "$28,995.99") = Some (PyF 2899599 2).
Proof. reflexivity. Qed.

Example parse_price_zero : Parser._parse_price (Some "$0") = None.
Proof. reflexivity. Qed.

Example parse_price_text : Parser._parse_price (Some "Call for price") = None.
Proof. reflexivity. Qed.

Example parse_number_miles : Parser._parse_number (Some "15,234 miles") = Some 15234%Z.
Proof. reflexivity. Qed.

Example build_price_28995 :
  RecordBuilder.build_vehicle_record_price
    (RecordBuilder.JsonLd None "") {[ "price" := "$28,995" ]}
  = Some (PyF 28995 0).
Proof. reflexivity. Qed.

Example build_mileage_miles :
  RecordBuilder.build_vehicle_record_mileage
    (RecordBuilder.JsonLd None "") {[ "mileage" := "15,234 miles" ]}
  = Some 15234%Z.
Proof. reflexivity. Qed.

(** C3.  The claim says that a cleaned price of zero is unknown on every
    path that builds a record: ["$0"] gives [None].  The parser does so;
    [build_vehicle_record] of [scrape_real.py] keeps the float zero,
    whether the text comes from the label/value pairs or from the first
    offer of the JSON-LD block. *)
Theorem c3_record_builder_keeps_zero_price :
  RecordBuilder.build_vehicle_record_price
    (RecordBuilder.JsonLd None "") {[ "price" := "$0" ]} = Some (PyF 0 0)
  /\ RecordBuilder.build_vehicle_record_price
       (RecordBuilder.JsonLd (Some "0") "") ∅ = Some (PyF 0 0)
  /\ float_is_zero (PyF 0 0) = true
  /\ Parser._parse_price (Some "$0") = None.
Proof. repeat split; reflexivity. Qed.

(** The test [price > 0] is the test on the number the float stands for. *)
Lemma float_gt_zero_Q (f : pyfloat) :
  float_gt_zero f = true <-> (0 < float_Q f)%Q.
Proof.
  unfold float_gt_zero, float_is_zero, float_Q, Qlt. simpl.
  rewrite Z.mul_1_r, negb_true_iff, N.eqb_neq. lia.
Qed.

End Cleaning.


Section Drift.

Import Monitor.

Lemma sorted_length (s : gset string) : length (sorted s) = size s.
Proof.
  unfold sorted. rewrite (Permutation_length (merge_sort_Permutation _ _)).
  done.
Qed.

Lemma sorted_elem (s : gset string) (k : string) : k ∈ sorted s ↔ k ∈ s.
Proof.
  unfold sorted. rewrite (merge_sort_Permutation str_le (elements s)).
  apply elem_of_elements.
Qed.

Lemma website_map_lookup (ws : list website_vehicle) (k : string) :
  k ∈ (list_to_set (wv_vin <$> ws) : gset string) → is_Some (website_map ws !! k).
Proof.
  intros Hk. apply elem_of_list_to_set in Hk.
  unfold website_map. apply elem_of_dom.
  rewrite dom_list_to_map_L. apply elem_of_list_to_set.
  rewrite fmap_reverse, elem_of_reverse, <- list_fmap_compose.
  exact Hk.
Qed.

Lemma match_row_found (ws : list website_vehicle) (loc : gmap string Vehicle) (k : string) :
  k ∈ (list_to_set (wv_vin <$> ws) : gset string) ∩ dom loc →
  is_Some (match_row (website_map ws) loc k).
Proof.
  intros [Hw Hl]%elem_of_intersection.
  destruct (website_map_lookup ws k Hw) as [wv Hwv].
  apply elem_of_dom in Hl as [lv Hlv].
  unfold match_row. rewrite Hwv, Hlv. simpl. eauto.
Qed.

Lemma match_loop_count (wmap : gmap string website_vehicle) (loc : gmap string Vehicle)
    (l : list string) (rows : list InventoryComparisonVehicle) (n : nat) :
  (∀ k, k ∈ l → is_Some (match_row wmap loc k)) →
  snd (fold_left (match_step wmap loc) l (rows, n)) = (n + length l)%nat.
Proof.
  revert rows n. induction l as [|k l IH]; intros rows n Hall; cbn [fold_left length].
  - simpl. lia.
  - destruct (Hall k) as [row Hrow]; [left|].
    assert (Hs : match_step wmap loc (rows, n) k = (rows ++ [row], S n)).
    { unfold match_step. by rewrite Hrow. }
    rewrite Hs, IH; [lia|]. intros k' Hk'. apply Hall. by right.
Qed.

(** C2.  Drift detection: with [R] the VINs of the website scan and [L]
    the VINs of the active vehicles, the comparison reports
    [missing_locally = |R - L|], [extra_locally = |L - R|] and
    [matched = |R ∩ L|]. *)
Theorem c2_drift_counts (website_vehicles : list website_vehicle)
    (tbl : gmap string Vehicle) (max_pages now : Z) :
  let R : gset string := list_to_set (wv_vin <$> website_vehicles) in
  let L : gset string := dom (filter (fun kv => is_active (snd kv) = true) tbl) in
  let c := _compare_inventory website_vehicles tbl max_pages now in
  missing_locally c = size (R ∖ L)
  ∧ extra_locally c = size (L ∖ R)
  ∧ matched c = size (R ∩ L).
Proof.
  intros R L c. subst c. unfold _compare_inventory.
  fold R. fold L.
  destruct (fold_left _ _ _) as [rows m] eqn:E. simpl.
  split; [done|]. split; [done|].
  change m with (snd (rows, m)). rewrite <- E.
  rewrite match_loop_count.
  - by rewrite sorted_length.
  - intros k Hk%sorted_elem. by apply match_row_found.
Qed.

(** C6.  Whatever the website scan returned, whatever the vehicle table
    holds and whatever [max_pages] is, the comparison reports
    [changed = 0]. *)
Theorem c6_changed_always_zero (website_vehicles : list website_vehicle)
    (tbl : gmap string Vehicle) (max_pages now : Z) :
  changed (_compare_inventory website_vehicles tbl max_pages now) = 0%nat.
Proof.
  unfold _compare_inventory. by destruct (fold_left _ _ _).
Qed.
End Drift.

Section DriftTrigger.
Import Monitor.

(** X19.  The monitor finds that a scrape is needed exactly when the set
    of VINs of the website scan differs from the set of VINs of the
    active vehicles; a difference in price, mileage or any other field
    of a vehicle found on both sides never starts a run. *)
Lemma needs_scrape_iff_drift (website_vehicles : list website_vehicle)
    (tbl : gmap string Vehicle) (max_pages now : Z) :
  let R : gset string := list_to_set (wv_vin <$> website_vehicles) in
  let L : gset string := dom (filter (fun kv => is_active (snd kv) = true) tbl) in
  needs_scrape (_compare_inventory website_vehicles tbl max_pages now) = true
  <-> R <> L.
Proof.
  intros R L. unfold needs_scrape, _compare_inventory. fold R L.
  destruct (fold_left _ _ _) as [rows m]. simpl.
  rewrite orb_false_r, orb_true_iff, !Nat.ltb_lt.
  split.
  - intros [H|H] Heq; rewrite Heq in H;
      rewrite difference_diag_L, size_empty in H; lia.
  - intros Hne.
    destruct (decide (size (R ∖ L) = 0%nat)) as [H1|H1]; [|left; lia].
    destruct (decide (size (L ∖ R) = 0%nat)) as [H2|H2]; [|right; lia].
    exfalso. apply Hne.
    apply size_empty_iff in H1, H2.
    apply set_eq. intros x. split; intros Hx.
    + destruct (decide (x ∈ L)) as [|Hn]; [done|].
      exfalso. apply (not_elem_of_empty (C:=gset string) x).
      rewrite <- (leibniz_equiv _ _ H1). by apply elem_of_difference.
    + destruct (decide (x ∈ R)) as [|Hn]; [done|].
      exfalso. apply (not_elem_of_empty (C:=gset string) x).
      rewrite <- (leibniz_equiv _ _ H2). by apply elem_of_difference.
Qed.

End DriftTrigger.


(** *** Retry with backoff *)

Section Retry.
Import Utils.
Context {A E : Type}.
Variables (op : nat -> outcome A E) (jitter : nat -> Q).
Variables (max_retries : Z) (base_delay : Q).

Lemma attempts_step (todo attempt : nat) (last : option E) (slept : list Q) :
  attempts op jitter max_retries base_delay (S todo) attempt last slept
  = match op attempt with
    | Returned a => (Result a, slept)
    | Raised e =>
        if (Z.of_nat attempt <? max_retries - 1)%Z then
          match wait base_delay attempt (jitter attempt) with
          | Some w =>
              attempts op jitter max_retries base_delay todo (S attempt) (Some e)
                       (slept ++ [w])
          | None => (RaisedOverflow, slept)
          end
        else
          attempts op jitter max_retries base_delay todo (S attempt) (Some e) slept
    end.
Proof. reflexivity. Qed.

Lemma wait_in_range (attempt : nat) (x : Q) :
  (attempt < 1024)%nat ->
  wait base_delay attempt x
  = Some (base_delay * inject_Z (2 ^ Z.of_nat attempt) + x)%Q.
Proof.
  intros H. unfold wait.
  destruct (Nat.leb_spec 1024 attempt) as [Hle|_]; [lia | reflexivity].
Qed.

Lemma wait_overflow (attempt : nat) (x : Q) :
  (1024 <= attempt)%nat -> wait base_delay attempt x = None.
Proof.
  intros H. unfold wait.
  destruct (Nat.leb_spec 1024 attempt) as [_|Hlt]; [reflexivity | lia].
Qed.

Lemma slept_before_cons (first count : nat) :
  slept_before jitter base_delay first (S count)
  = (base_delay * inject_Z (2 ^ Z.of_nat first) + jitter first)%Q
    :: slept_before jitter base_delay (S first) count.
Proof. reflexivity. Qed.

Lemma attempts_success (a : A) (d : nat) :
  forall (todo attempt : nat) (last : option E) (slept : list Q),
    (d < todo)%nat ->
    (Z.of_nat (attempt + d) < max_retries)%Z ->
    (attempt + d <= 1024)%nat ->
    (forall j, (attempt <= j < attempt + d)%nat -> exists e, op j = Raised e) ->
    op (attempt + d)%nat = Returned a ->
    attempts op jitter max_retries base_delay todo attempt last slept
    = (Result a, slept ++ slept_before jitter base_delay attempt d).
Proof.
  induction d as [|d IH]; intros todo attempt last slept Hd Hlt Hmax Hfail Hok.
  - destruct todo as [|todo]; [lia|]. rewrite attempts_step.
    rewrite Nat.add_0_r in Hok. rewrite Hok.
    unfold slept_before. simpl. by rewrite app_nil_r.
  - destruct todo as [|todo]; [lia|]. rewrite attempts_step.
    destruct (Hfail attempt) as [e He]; [lia|]. rewrite He.
    assert (Hs : (Z.of_nat attempt <? max_retries - 1)%Z = true)
      by (apply Z.ltb_lt; lia).
    rewrite Hs, wait_in_range by lia.
    replace (attempt + S d)%nat with (S attempt + d)%nat in * by lia.
    rewrite (IH todo (S attempt) (Some e)).
    + by rewrite slept_before_cons, <- app_assoc.
    + lia.
    + exact Hlt.
    + exact Hmax.
    + intros j Hj. apply Hfail. lia.
    + exact Hok.
Qed.

Lemma attempts_exhausted (e : E) (todo : nat) :
  forall (attempt : nat) (last : option E) (slept : list Q),
    Z.of_nat (attempt + S todo) = max_retries ->
    (attempt + todo <= 1024)%nat ->
    (forall j, (attempt <= j < attempt + S todo)%nat -> exists e', op j = Raised e') ->
    op (attempt + todo)%nat = Raised e ->
    attempts op jitter max_retries base_delay (S todo) attempt last slept
    = (Reraised e, slept ++ slept_before jitter base_delay attempt todo).
Proof.
  induction todo as [|todo IH]; intros attempt last slept Hn Hmax Hfail Hlast.
  - rewrite attempts_step. rewrite Nat.add_0_r in Hlast. rewrite Hlast.
    assert (Hs : (Z.of_nat attempt <? max_retries - 1)%Z = false)
      by (apply Z.ltb_ge; lia).
    rewrite Hs. unfold slept_before. simpl. by rewrite app_nil_r.
  - rewrite attempts_step.
    destruct (Hfail attempt) as [e' He']; [lia|]. rewrite He'.
    assert (Hs : (Z.of_nat attempt <? max_retries - 1)%Z = true)
      by (apply Z.ltb_lt; lia).
    rewrite Hs, wait_in_range by lia.
    replace (attempt + S todo)%nat with (S attempt + todo)%nat in Hlast, Hmax by lia.
    rewrite (IH (S attempt) (Some e')).
    + by rewrite slept_before_cons, <- app_assoc.
    + lia.
    + exact Hmax.
    + intros j Hj. apply Hfail. lia.
    + exact Hlast.
Qed.

(** While the attempts fail, the loop reaches attempt 1024 and stops
    there when a delay is still due. *)
Lemma attempts_overflow (d : nat) :
  forall (todo attempt : nat) (last : option E) (slept : list Q),
    (attempt + d = 1024)%nat ->
    (d < todo)%nat ->
    (1026 <= max_retries)%Z ->
    (forall j, (j <= 1024)%nat -> exists e, op j = Raised e) ->
    attempts op jitter max_retries base_delay todo attempt last slept
    = (RaisedOverflow, slept ++ slept_before jitter base_delay attempt d).
Proof.
  induction d as [|d IH]; intros todo attempt last slept Hd Htodo Hmax Hfail.
  - destruct todo as [|todo]; [lia|]. rewrite attempts_step.
    destruct (Hfail attempt) as [e He]; [lia|]. rewrite He.
    assert (Hs : (Z.of_nat attempt <? max_retries - 1)%Z = true)
      by (apply Z.ltb_lt; lia).
    rewrite Hs, wait_overflow by lia.
    unfold slept_before. simpl. by rewrite app_nil_r.
  - destruct todo as [|todo]; [lia|]. rewrite attempts_step.
    destruct (Hfail attempt) as [e He]; [lia|]. rewrite He.
    assert (Hs : (Z.of_nat attempt <? max_retries - 1)%Z = true)
      by (apply Z.ltb_lt; lia).
    rewrite Hs, wait_in_range by lia.
    rewrite (IH todo (S attempt) (Some e)); [|lia|lia|done|done].
    by rewrite slept_before_cons, <- app_assoc.
Qed.

End Retry.





(** *** Dealer frame *)

Section FrameRatio.
Import Utils.

Lemma percent_exceeds (count area t : Z) :
  0 < area ->
  (inject_Z t < inject_Z count / inject_Z area * 100)%Q <-> t * area < 100 * count.
Proof.
  intros Ha. destruct area as [|p|p]; try lia.
  unfold Qlt, Qdiv, Qmult, Qinv, inject_Z. simpl.
  rewrite !Z.mul_1_r. rewrite ?Pos.mul_1_r, ?Pos.mul_1_l.
  lia.
Qed.

End FrameRatio.

Section DealerFrame.
Import Utils.
Variable pil : Pillow.
Variable img_bytes : list Byte.byte.

Lemma has_dealer_frame_open (img : Image) :
  open_image pil img_bytes = Ok img ->
  has_dealer_frame pil img_bytes
  = match frame_test img with Ok b => Ok b | Raise _ => Ok false end.
Proof. intros H. unfold has_dealer_frame. rewrite H. reflexivity. Qed.

Lemma frame_test_large (img : Image) :
  100 <= height img -> 100 <= width img -> ndim img = 3%nat ->
  frame_test img
  = Ok (ratio_exceeds
          (count_bright img 0 0 (Z.to_nat (percent (height img) 12))
                        (Z.to_nat (percent (width img) 30)))
          (percent (height img) 12 * percent (width img) 30) 40
        && ratio_exceeds
             (count_bright img (height img - percent (height img) 7)
                           (width img - percent (width img) 50)
                           (Z.to_nat (percent (height img) 7))
                           (Z.to_nat (percent (width img) 50)))
             (percent (height img) 7 * percent (width img) 50) 30).
Proof.
  intros Hh Hw Hd. unfold frame_test.
  assert (E1 : (height img <? 100) = false) by (apply Z.ltb_ge; lia).
  assert (E2 : (width img <? 100) = false) by (apply Z.ltb_ge; lia).
  rewrite E1, E2, Hd. reflexivity.
Qed.

Lemma percent_pos (n pp : Z) : 100 <= n -> 1 <= pp -> 0 < percent n pp.
Proof.
  intros Hn Hp. unfold percent.
  apply Z.div_str_pos. nia.
Qed.

Lemma ratio_exceeds_percent (img : Image) (r0 c0 nr nc t : Z) :
  0 < nr -> 0 < nc ->
  ratio_exceeds (count_bright img r0 c0 (Z.to_nat nr) (Z.to_nat nc)) (nr * nc) t = true
  <-> (inject_Z t < bright_percent img r0 c0 (Z.to_nat nr) (Z.to_nat nc))%Q.
Proof.
  intros Hr Hc. unfold ratio_exceeds, bright_percent.
  rewrite !Z2Nat.id by lia.
  rewrite percent_exceeds by nia.
  apply Z.ltb_lt.
Qed.

(** C8, amended.  For a decoded image whose array has the band axis and
    that is at least 100 pixels in each dimension: it is classified as
    framed exactly when more than 40% of the top-left band and more than
    30% of the bottom-right band are bright; and when it is so classified
    and the JPEG encoder accepts the crop, removal returns the encoding of
    the rows from [13% h] to [h - 7% h] over the full width. *)
Theorem c8_frame_classification_and_crop (img : Image) :
  open_image pil img_bytes = Ok img ->
  100 <= height img -> 100 <= width img -> ndim img = 3%nat ->
  (has_dealer_frame pil img_bytes = Ok true
   <-> (40 < top_left_percent img)%Q /\ (30 < bottom_right_percent img)%Q)
  /\ (forall out,
        has_dealer_frame pil img_bytes = Ok true ->
        save_jpeg pil (crop_rows img (height img * 13 / 100)
                                 (height img - height img * 7 / 100)) = Ok out ->
        remove_dealer_frame pil img_bytes = Ok out)
  /\ (forall r c,
        pixel (crop_rows img (height img * 13 / 100)
                         (height img - height img * 7 / 100)) r c
        = pixel img (r + height img * 13 / 100) c)
  /\ width (crop_rows img (height img * 13 / 100)
                      (height img - height img * 7 / 100)) = width img.
Proof.
  intros Hopen Hh Hw Hd.
  split; [|split; [|split]].
  - rewrite (has_dealer_frame_open img Hopen), (frame_test_large img Hh Hw Hd).
    unfold top_left_percent, bottom_right_percent.
    fold (percent (height img) 12) (percent (width img) 30)
         (percent (height img) 7) (percent (width img) 50).
    pose proof (percent_pos (height img) 12 Hh ltac:(lia)).
    pose proof (percent_pos (width img) 30 Hw ltac:(lia)).
    pose proof (percent_pos (height img) 7 Hh ltac:(lia)).
    pose proof (percent_pos (width img) 50 Hw ltac:(lia)).
    rewrite <- (ratio_exceeds_percent img 0 0 _ _ 40) by assumption.
    rewrite <- (ratio_exceeds_percent img _ _ _ _ 30) by assumption.
    split.
    + intros [= Hb]. by apply andb_prop in Hb.
    + intros [-> ->]. reflexivity.
  - intros out _ Hsave. unfold remove_dealer_frame. rewrite Hopen. simpl.
    assert (E1 : (height img <? 100) = false) by (apply Z.ltb_ge; lia).
    assert (E2 : (width img <? 100) = false) by (apply Z.ltb_ge; lia).
    rewrite E1, E2. simpl. unfold cropped, percent. rewrite Hsave. reflexivity.
  - reflexivity.
  - reflexivity.
Qed.

(** C10.  Both functions return on every byte string: [has_dealer_frame]
    a boolean, [False] when the bytes do not open as an image;
    [remove_dealer_frame] bytes, the input itself when opening or saving
    the crop fails; and an image under 100 pixels high or wide gives
    [False] and the input unchanged.  Neither ever raises. *)
Theorem c10_dealer_frame_total :
  (exists b, has_dealer_frame pil img_bytes = Ok b)
  /\ (exists out, remove_dealer_frame pil img_bytes = Ok out)
  /\ (forall e, open_image pil img_bytes = Raise e ->
        has_dealer_frame pil img_bytes = Ok false
        /\ remove_dealer_frame pil img_bytes = Ok img_bytes)
  /\ (forall img, open_image pil img_bytes = Ok img ->
        height img < 100 \/ width img < 100 ->
        has_dealer_frame pil img_bytes = Ok false
        /\ remove_dealer_frame pil img_bytes = Ok img_bytes)
  /\ (forall img e, open_image pil img_bytes = Ok img ->
        save_jpeg pil (cropped img) = Raise e ->
        remove_dealer_frame pil img_bytes = Ok img_bytes).
Proof.
  split; [|split; [|split; [|split]]].
  - unfold has_dealer_frame.
    destruct (open_image pil img_bytes) as [img|e]; simpl; [|eauto].
    destruct (frame_test img); simpl; eauto.
  - unfold remove_dealer_frame.
    destruct (open_image pil img_bytes) as [img|e]; simpl; [|eauto].
    destruct (_ || _); simpl; [eauto|].
    destruct (save_jpeg pil (cropped img)); simpl; eauto.
  - intros e He. unfold has_dealer_frame, remove_dealer_frame. by rewrite He.
  - intros img Hopen Hsmall.
    assert (E : (height img <? 100) || (width img <? 100) = true).
    { apply orb_true_iff. destruct Hsmall; [left|right]; apply Z.ltb_lt; lia. }
    unfold has_dealer_frame, remove_dealer_frame, frame_test.
    rewrite Hopen. simpl. by rewrite E.
  - intros img e Hopen Hsave. unfold remove_dealer_frame. rewrite Hopen. simpl.
    destruct (_ || _); simpl; [done|]. by rewrite Hsave.
Qed.

End DealerFrame.

Section FrameExamples.
Import Utils.

(** Two images the claim as stated does not cover.  A white grayscale
    image has both bands entirely bright, yet its two-dimensional array
    makes the band slice raise, and the function answers [False].  A white
    RGBA image is classified as framed, but the JPEG encoder refuses its
    mode, and removal hands the input back instead of the crop. *)
Lemma c8_frame_counterexample :
  (100 <= height (white L) /\ 100 <= width (white L)
   /\ (40 < top_left_percent (white L))%Q
   /\ (30 < bottom_right_percent (white L))%Q
   /\ has_dealer_frame (fixed_pillow (white L) (Ok [])) [] = Ok false)
  /\ (100 <= height (white RGBA) /\ 100 <= width (white RGBA)
      /\ has_dealer_frame (fixed_pillow (white RGBA) (Raise OSError)) [Byte.x89]
         = Ok true
      /\ remove_dealer_frame (fixed_pillow (white RGBA) (Raise OSError)) [Byte.x89]
         = Ok [Byte.x89]).
Proof.
  repeat split; try (vm_compute; congruence).
Qed.

(** A white RGB image is classified as framed and cropped. *)
Lemma c8_witness :
  open_image (fixed_pillow (white RGB) (Ok [Byte.x01])) [] = Ok (white RGB)
  /\ 100 <= height (white RGB) /\ 100 <= width (white RGB)
  /\ ndim (white RGB) = 3%nat
  /\ has_dealer_frame (fixed_pillow (white RGB) (Ok [Byte.x01])) [] = Ok true
  /\ remove_dealer_frame (fixed_pillow (white RGB) (Ok [Byte.x01])) [] = Ok [Byte.x01].
Proof.
  assert (H1 : open_image (fixed_pillow (white RGB) (Ok [Byte.x01])) [] = Ok (white RGB))
    by reflexivity.
  assert (H2 : 100 <= height (white RGB)) by (simpl; lia).
  assert (H3 : 100 <= width (white RGB)) by (simpl; lia).
  assert (H4 : ndim (white RGB) = 3%nat) by reflexivity.
  pose proof (c8_frame_classification_and_crop
                (fixed_pillow (white RGB) (Ok [Byte.x01])) [] (white RGB)
                H1 H2 H3 H4) as [Hiff [Hcrop _]].
  assert (H5 : has_dealer_frame (fixed_pillow (white RGB) (Ok [Byte.x01])) [] = Ok true).
  { apply Hiff. split; vm_compute; reflexivity. }
  split; [exact H1|]. split; [exact H2|]. split; [exact H3|].
  split; [exact H4|]. split; [exact H5|].
  apply Hcrop; [exact H5 | reflexivity].
Defined.

End FrameExamples.


(** *** Single-flight trigger *)

Section SingleFlight.
Import Scrape.

Lemma status_eqb_running (s : ScrapeStatus) :
  status_eqb s RUNNING = true <-> s = RUNNING.
Proof. destruct s; simpl; split; congruence. Qed.

Lemma latest_running_keeps (row : ScrapeLog) (i : nat) (rest : list ScrapeLog) :
  forall k,
    (forall r, r ∈ rest -> status r = RUNNING -> started_at r < started_at row) ->
    latest_running_from k rest (Some (i, row)) = Some (i, row).
Proof.
  induction rest as [|r rest IH]; intros k Hlow; simpl; [done|].
  destruct (status_eqb (status r) RUNNING) eqn:Er.
  - apply status_eqb_running in Er.
    assert (Hlt : started_at r < started_at row) by (apply Hlow; [left | done]).
    assert (E : (started_at row <? started_at r) = false) by (apply Z.ltb_ge; lia).
    rewrite E. apply IH. intros r' Hr'. apply Hlow. by right.
  - apply IH. intros r' Hr'. apply Hlow. by right.
Qed.

Lemma latest_running_from_last (row : ScrapeLog) (rows : list ScrapeLog) :
  forall (k i0 : nat) (best : option (nat * ScrapeLog)),
    rows !! k = Some row ->
    status row = RUNNING ->
    (forall j r, rows !! j = Some r -> status r = RUNNING -> j <> k ->
                 started_at r < started_at row) ->
    (forall b, best = Some b -> started_at (snd b) < started_at row) ->
    latest_running_from i0 rows best = Some ((i0 + k)%nat, row).
Proof.
  induction rows as [|r rows IH]; intros k i0 best Hk Hrun Hlast Hbest; [done|].
  destruct k as [|k]; simpl in Hk.
  - injection Hk as ->. simpl.
    assert (Er : status_eqb (status row) RUNNING = true)
      by (by apply status_eqb_running).
    rewrite Er, Nat.add_0_r.
    assert (Hrest : forall r, r ∈ rows -> status r = RUNNING ->
                              started_at r < started_at row).
    { intros r [j Hj]%list_elem_of_lookup Hr. by apply (Hlast (S j) r). }
    destruct best as [[ib b]|].
    + specialize (Hbest _ eq_refl). simpl in Hbest.
      assert (E : (started_at b <? started_at row) = true) by (apply Z.ltb_lt; lia).
      rewrite E. by apply latest_running_keeps.
    + by apply latest_running_keeps.
  - simpl. replace (i0 + S k)%nat with (S i0 + k)%nat by lia.
    apply IH; [done | done | |].
    + intros j r' Hj Hr' Hne. apply (Hlast (S j) r'); [done | done | lia].
    + intros b Hb.
      destruct (status_eqb (status r) RUNNING) eqn:Er.
      * apply status_eqb_running in Er.
        assert (Hr : started_at r < started_at row)
          by (by apply (Hlast 0%nat r)).
        destruct best as [[ib b0]|].
        -- destruct (started_at b0 <? started_at r); injection Hb as <-; simpl;
             [done | by apply (Hbest (ib, b0))].
        -- by injection Hb as <-.
      * by apply Hbest.
Qed.

Lemma latest_running_started_last (rows : list ScrapeLog) (i : nat) (row : ScrapeLog) :
  started_last rows i row -> latest_running rows = Some (i, row).
Proof.
  intros (Hi & Hrun & Hlast). unfold latest_running.
  rewrite (latest_running_from_last row rows i 0 None); done.
Qed.

(** What the guard of [trigger_scrape] examines is the running Run
    Record that started last, and no other.  When its recorded process is
    alive the endpoint answers 409 and leaves everything as it was; when
    it has no live recorded process and the scraper script is in place,
    that record is marked failed, a running Run Record is added and the
    scraper is started with its pid recorded. *)
Lemma trigger_checks_latest_running (env : Env) (pages : Z) (app : App)
    (i : nat) (row : ScrapeLog) :
  started_last (scrape_logs app) i row ->
  (process_alive env app row = true ->
     exists detail, trigger_scrape env pages app = (HTTPException 409 detail, app))
  /\ (process_alive env app row = false -> script_exists env = true ->
      exists task message,
        trigger_scrape env pages app
        = (ScrapeTriggerResponse task message,
           MkApp (<[i := mark_failed row]> (scrape_logs app)
                    ++ [new_log env task pages])
                 (<[task := popen_pid env]> (_running_pids app))
                 (<[task := starting_progress task]> (progress_files app))
                 (launched app ++ [(popen_pid env, task, pages)]))
        /\ status (mark_failed row) = FAILED
        /\ status (new_log env task pages) = RUNNING).
Proof.
  intros Hlast. apply latest_running_started_last in Hlast.
  split.
  - intros Halive. unfold trigger_scrape. rewrite Hlast, Halive. eauto.
  - intros Hdead Hscript. unfold trigger_scrape.
    rewrite Hlast, Hdead, Hscript. simpl. eauto.
Qed.

(** Without any running row the trigger starts a run. *)
Lemma trigger_when_idle (env : Env) (pages : Z) (app : App) :
  latest_running (scrape_logs app) = None -> script_exists env = true ->
  exists task message app',
    trigger_scrape env pages app = (ScrapeTriggerResponse task message, app')
    /\ scrape_logs app' = scrape_logs app ++ [new_log env task pages].
Proof.
  intros Hnone Hscript. unfold trigger_scrape. rewrite Hnone, Hscript. simpl. eauto 6.
Qed.

(** C4.  The claim has [trigger_scrape] answer 409 and add no Run Record
    while a running Run Record has a live recorded process.  Three calls
    in a row: the endpoint starts run A, whose process stays alive; the
    monitor finds drift and starts run B, without looking for a running
    row and without recording a pid; the endpoint is called again.  Its
    guard reads the one running row that started last, which is B's,
    finds no pid for it, marks it failed and starts run C: a third Run
    Record and a second scraper process beside run A, whose recorded
    process is alive. *)
Theorem c4_second_run_beside_live_run :
  let env1 := MkEnv (fun _ => true) true "aaaaaaaaaaaa" 4001 1 in
  let env2 := MkEnv (fun _ => true) true "bbbbbbbbbbbb" 4002 2 in
  let env3 := MkEnv (fun _ => true) true "cccccccccccc" 4003 3 in
  let app1 := snd (trigger_scrape env1 1 (MkApp [] ∅ ∅ [])) in
  let app2 := auto_trigger env2 "Website: 2 | Local: 1" 0 app1 in
  (exists row t pid,
      row ∈ scrape_logs app2 /\ status row = RUNNING
      /\ task_id row = Some t /\ _running_pids app2 !! t = Some pid
      /\ alive env3 pid = true /\ process_alive env3 app2 row = true)
  /\ fst (trigger_scrape env3 1 app2)
     = ScrapeTriggerResponse "scrape-cccccccccccc" "Scrape job launched (pages=1)."
  /\ length (scrape_logs (snd (trigger_scrape env3 1 app2)))
     = S (length (scrape_logs app2))
  /\ (status <$> scrape_logs (snd (trigger_scrape env3 1 app2)))
     = [RUNNING; FAILED; RUNNING]
  /\ launched (snd (trigger_scrape env3 1 app2))
     = [(4001, "scrape-aaaaaaaaaaaa"%string, 1); (4002, "auto-bbbbbbbbbbbb"%string, 0);
        (4003, "scrape-cccccccccccc"%string, 1)].
Proof.
  intros env1 env2 env3 app1 app2. split; [|split; [|split; [|split]]].
  - exists (new_log env1 "scrape-aaaaaaaaaaaa" 1), "scrape-aaaaaaaaaaaa"%string, 4001.
    split; [left|]. repeat split; vm_compute; reflexivity.
  - vm_compute. reflexivity.
  - vm_compute. reflexivity.
  - vm_compute. reflexivity.
  - vm_compute. reflexivity.
Qed.

(** A call that finds the running row stale but no scraper script: it
    answers 500, the session rolls back, so the row stays marked as
    running, and nothing is started. *)
Example trigger_without_script :
  let env1 := MkEnv (fun _ => true) true "aaaaaaaaaaaa" 4001 1 in
  let app1 := snd (trigger_scrape env1 1 (MkApp [] ∅ ∅ [])) in
  let gone := MkEnv (fun _ => false) false "dddddddddddd" 4004 4 in
  process_alive gone app1 (new_log env1 "scrape-aaaaaaaaaaaa" 1) = false
  /\ fst (trigger_scrape gone 1 app1)
     = HTTPException 500 "scrape_real.py not found."
  /\ scrape_logs (snd (trigger_scrape gone 1 app1)) = scrape_logs app1
  /\ launched (snd (trigger_scrape gone 1 app1)) = launched app1.
Proof. vm_compute. repeat split. Qed.

End SingleFlight.

(** *** Reconciliation and its audit trail *)

Section AuditTrail.
Import ScrapeReal.

Lemma count_entries_app (kind key : string) (l1 l2 : list VehicleChangeLog) :
  count_entries kind key (l1 ++ l2)
  = (count_entries kind key l1 + count_entries kind key l2)%nat.
Proof. unfold count_entries. by rewrite List.filter_app, length_app. Qed.

Lemma count_entries_other_kind (kind kind' key : string) (l : list VehicleChangeLog) :
  Forall (fun e => change_type e = kind') l -> kind <> kind' ->
  count_entries kind key l = 0%nat.
Proof.
  intros Hall Hne. unfold count_entries.
  induction Hall as [|e l He Hl IH]; simpl; [done|].
  rewrite He. destruct (String.eqb_spec kind' kind) as [->|_]; [done|].
  by rewrite andb_false_r.
Qed.

Lemma count_entries_other_vin (kind key : string) (l : list VehicleChangeLog) :
  Forall (fun e => cl_vin e <> key) l -> count_entries kind key l = 0%nat.
Proof.
  intros Hall. unfold count_entries.
  induction Hall as [|e l He Hl IH]; simpl; [done|].
  destruct (String.eqb_spec (cl_vin e) key) as [Heq|_]; [done|]. exact IH.
Qed.

Lemma appended_app (before after : Store) (added : list VehicleChangeLog) :
  change_log after = change_log before ++ added -> appended before after = added.
Proof. intros H. unfold appended. rewrite H. apply drop_app_length. Qed.

Lemma vins_with_app (kind : string) (l1 l2 : list VehicleChangeLog) :
  vins_with kind (l1 ++ l2) = vins_with kind l1 ∪ vins_with kind l2.
Proof.
  unfold vins_with. rewrite List.filter_app, fmap_app.
  apply list_to_set_app_L.
Qed.

Lemma vins_with_nil (kind : string) : vins_with kind [] = ∅.
Proof. reflexivity. Qed.

Lemma vins_with_other_kind (kind kind' : string) (l : list VehicleChangeLog) :
  Forall (fun e => change_type e = kind') l -> kind <> kind' ->
  vins_with kind l = ∅.
Proof.
  intros Hall Hne. unfold vins_with.
  induction Hall as [|e l He Hl IH]; simpl; [done|].
  rewrite He. destruct (String.eqb_spec kind' kind) as [->|_]; [done|]. exact IH.
Qed.

Lemma vins_with_one_vin (kind key : string) (l : list VehicleChangeLog) :
  Forall (fun e => cl_vin e = key) l -> vins_with kind l ⊆ {[ key ]}.
Proof.
  intros Hall. unfold vins_with.
  induction Hall as [|e l He Hl IH]; simpl; [apply empty_subseteq|].
  destruct (String.eqb (change_type e) kind); simpl; [|done].
  rewrite He. apply union_subseteq. split; [reflexivity | exact IH].
Qed.


Variables (now : Z) (task : option string).

Lemma updated_entries_shape (key : string) (existing : Vehicle) (v : record) :
  Forall (fun e => cl_vin e = key /\ change_type e = "updated"%string)
         (updated_entries now task key existing v).
Proof.
  unfold updated_entries. apply Forall_forall. intros e He.
  apply list_elem_of_omap in He as (field & _ & Hf).
  destruct (String.eqb _ _); [done|]. by injection Hf as <-.
Qed.

Lemma updated_entries_kind (key : string) (existing : Vehicle) (v : record) :
  Forall (fun e => change_type e = "updated"%string)
         (updated_entries now task key existing v).
Proof. eapply Forall_impl; [apply updated_entries_shape|]. by intros e [_ ?]. Qed.

Lemma updated_entries_vin (key : string) (existing : Vehicle) (v : record) :
  Forall (fun e => cl_vin e = key) (updated_entries now task key existing v).
Proof. eapply Forall_impl; [apply updated_entries_shape|]. by intros e [? _]. Qed.

(** What one turn of the loop appends to the change log. *)
Lemma upsert_log (st : Loop) (v : record) :
  exists added,
    change_log (store (upsert now task st v)) = change_log (store st) ++ added
    /\ Forall (fun e => cl_vin e = vin v) added
    /\ Forall (fun e => change_type e <> "removed"%string) added
    /\ (size (vins_with "updated" added) + vehicles_updated st
         <= vehicles_updated (upsert now task st v))%nat
    /\ count_entries "reactivated" (vin v) added
       = match vehicles (store st) !! vin v with
         | Some existing =>
             if String.eqb (vin v) "" then 0%nat
             else if is_active existing then 0%nat else 1%nat
         | None => 0%nat
         end.
Proof.
  unfold upsert. destruct (String.eqb_spec (vin v) "") as [He|Hne].
  - exists []. rewrite app_nil_r.
    split; [done|]. split; [constructor|]. split; [constructor|].
    split; [rewrite vins_with_nil, size_empty; simpl; lia|].
    by destruct (vehicles (store st) !! vin v).
  - destruct (vehicles (store st) !! vin v) as [existing|] eqn:Hlook; simpl.
    + eexists. split; [reflexivity|].
      pose proof (updated_entries_vin (vin v) existing v) as Hv.
      pose proof (updated_entries_kind (vin v) existing v) as Hk.
      split; [|split; [|split]].
      * apply Forall_app. split; [done|]. destruct (is_active existing); by repeat constructor.
      * apply Forall_app. split.
        -- eapply Forall_impl; [exact Hk|]. intros e ->. done.
        -- destruct (is_active existing); by repeat constructor.
      * assert (Hsub : vins_with "updated"
                         (updated_entries now task (vin v) existing v
                            ++ (if is_active existing then []
                                else [MkChangeLog (vin v) now "reactivated"
                                        (Some "is_active"%string) (Some "False"%string)
                                        (Some "True"%string) task]))
                       ⊆ {[ vin v ]}).
        { apply vins_with_one_vin. apply Forall_app. split; [done|].
          destruct (is_active existing); by repeat constructor. }
        apply subseteq_size in Hsub. rewrite size_singleton in Hsub. lia.
      * rewrite count_entries_app.
        rewrite (count_entries_other_kind _ "updated") by done.
        destruct (is_active existing); [done|].
        unfold count_entries. simpl. by rewrite String.eqb_refl.
    + eexists. split; [reflexivity|].
      split; [by repeat constructor|]. split; [by repeat constructor|].
      split; [|unfold count_entries; simpl; by rewrite String.eqb_refl].
      rewrite (vins_with_other_kind "updated" "new"), size_empty;
        [simpl; lia | by repeat constructor | done].
Qed.

Lemma upsert_lookup_other (st : Loop) (v : record) (x : string) :
  vin v <> x ->
  vehicles (store (upsert now task st v)) !! x = vehicles (store st) !! x.
Proof.
  intros Hne. unfold upsert. destruct (String.eqb (vin v) ""); [done|].
  destruct (vehicles (store st) !! vin v); simpl; by rewrite lookup_insert_ne.
Qed.

Lemma upsert_lookup_same (st : Loop) (v : record) :
  vin v <> ""%string ->
  exists row, vehicles (store (upsert now task st v)) !! vin v = Some row
              /\ is_active row = true.
Proof.
  intros Hne. unfold upsert. destruct (String.eqb_spec (vin v) ""); [done|].
  destruct (vehicles (store st) !! vin v); simpl; rewrite lookup_insert_eq; eauto.
Qed.

Lemma upsert_scraped (st : Loop) (v : record) :
  scraped_vins (upsert now task st v)
  = if String.eqb (vin v) "" then scraped_vins st else {[ vin v ]} ∪ scraped_vins st.
Proof.
  unfold upsert. destruct (String.eqb (vin v) ""); [done|].
  by destruct (vehicles (store st) !! vin v).
Qed.

Lemma upsert_dom (st : Loop) (v : record) :
  dom (vehicles (store (upsert now task st v)))
  = if String.eqb (vin v) "" then dom (vehicles (store st))
    else {[ vin v ]} ∪ dom (vehicles (store st)).
Proof.
  unfold upsert. destruct (String.eqb (vin v) ""); [done|].
  destruct (vehicles (store st) !! vin v); simpl; by rewrite dom_insert_L.
Qed.

Lemma upsert_updated (st : Loop) (v : record) :
  vehicles_updated (upsert now task st v)
  = if String.eqb (vin v) "" then vehicles_updated st
    else ((if bool_decide (vin v ∈ dom (vehicles (store st))) then 1 else 0)
          + vehicles_updated st)%nat.
Proof.
  unfold upsert. destruct (String.eqb (vin v) ""); [done|].
  destruct (vehicles (store st) !! vin v) eqn:E; simpl.
  - rewrite bool_decide_eq_true_2; [done|]. apply elem_of_dom. eauto.
  - rewrite bool_decide_eq_false_2; [done|]. by apply not_elem_of_dom.
Qed.


Lemma upsert_keeps_active (st : Loop) (v : record) (x : string) :
  (exists row, vehicles (store st) !! x = Some row /\ is_active row = true) ->
  exists row, vehicles (store (upsert now task st v)) !! x = Some row
              /\ is_active row = true.
Proof.
  intros Hx. destruct (decide (vin v = x)) as [<-|Hne].
  - destruct (String.eqb_spec (vin v) "") as [He|Hv].
    + unfold upsert. destruct (String.eqb_spec (vin v) ""); [exact Hx | done].
    + by apply upsert_lookup_same.
  - by rewrite upsert_lookup_other.
Qed.

Lemma size_union_le (X Y : gset string) : (size (X ∪ Y) <= size X + size Y)%nat.
Proof.
  rewrite size_union_alt.
  assert (size (Y ∖ X) <= size Y)%nat
    by (apply subseteq_size, subseteq_difference_l; reflexivity).
  lia.
Qed.

Lemma loop_scraped (vs : list record) :
  forall (st : Loop) (x : string),
    x ∈ scraped_vins (fold_left (upsert now task) vs st)
    <-> x ∈ scraped_vins st \/ (x <> ""%string /\ x ∈ vin <$> vs).
Proof.
  induction vs as [|v vs IH]; intros st x; simpl.
  - split; [by left|]. intros [?|[_ H]]; [done|]. by apply elem_of_nil in H.
  - rewrite IH, upsert_scraped, elem_of_cons.
    destruct (String.eqb_spec (vin v) "") as [He|Hne].
    + split; [intros [?|[? ?]]; eauto|].
      intros [?|[Hx [->|?]]]; eauto. congruence.
    + rewrite elem_of_union, elem_of_singleton.
      split.
      * intros [[->|?]|[? ?]]; eauto.
      * intros [?|[Hx [->|?]]]; eauto.
Qed.

Lemma loop_lookup_other (vs : list record) :
  forall (st : Loop) (x : string),
    x ∉ vin <$> vs ->
    vehicles (store (fold_left (upsert now task) vs st)) !! x
    = vehicles (store st) !! x.
Proof.
  induction vs as [|v vs IH]; intros st x Hx; simpl; [done|].
  rewrite fmap_cons, not_elem_of_cons in Hx. destruct Hx as [Hv Hvs].
  rewrite IH by done. by apply upsert_lookup_other.
Qed.

Lemma loop_keeps_active (vs : list record) :
  forall (st : Loop) (x : string),
    (exists row, vehicles (store st) !! x = Some row /\ is_active row = true) ->
    exists row, vehicles (store (fold_left (upsert now task) vs st)) !! x = Some row
                /\ is_active row = true.
Proof.
  induction vs as [|v vs IH]; intros st x Hx; simpl; [done|].
  apply IH. by apply upsert_keeps_active.
Qed.

Lemma loop_active (vs : list record) :
  forall (st : Loop) (x : string),
    x <> ""%string -> x ∈ vin <$> vs ->
    exists row, vehicles (store (fold_left (upsert now task) vs st)) !! x = Some row
                /\ is_active row = true.
Proof.
  induction vs as [|v vs IH]; intros st x Hne Hx; simpl.
  - by apply elem_of_nil in Hx.
  - rewrite fmap_cons, elem_of_cons in Hx. destruct Hx as [->|Hx].
    + apply loop_keeps_active. by apply upsert_lookup_same.
    + by apply IH.
Qed.

Lemma loop_log (vs : list record) :
  forall st : Loop,
    exists added,
      change_log (store (fold_left (upsert now task) vs st))
      = change_log (store st) ++ added
      /\ Forall (fun e => cl_vin e ∈ vin <$> vs) added
      /\ Forall (fun e => change_type e <> "removed"%string) added
      /\ (size (vins_with "updated" added) + vehicles_updated st
           <= vehicles_updated (fold_left (upsert now task) vs st))%nat.
Proof.
  induction vs as [|v vs IH]; intros st; simpl.
  - exists []. rewrite app_nil_r, vins_with_nil, size_empty.
    split; [done|]. split; [constructor|]. split; [constructor|]. simpl. lia.
  - destruct (upsert_log st v) as (a1 & E1 & V1 & K1 & S1 & _).
    destruct (IH (upsert now task st v)) as (a2 & E2 & V2 & K2 & S2).
    exists (a1 ++ a2). rewrite E2, E1, <- app_assoc.
    split; [done|]. split; [|split].
    + apply Forall_app. split.
      * eapply Forall_impl; [exact V1|]. intros e ->. apply elem_of_cons. by left.
      * eapply Forall_impl; [exact V2|]. intros e He. apply elem_of_cons. by right.
    + apply Forall_app. by split.
    + rewrite vins_with_app.
      pose proof (size_union_le (vins_with "updated" a1) (vins_with "updated" a2)).
      lia.
Qed.

Lemma loop_reactivated (vs : list record) :
  forall (st : Loop) (x : string) (row : Vehicle),
    vehicles (store st) !! x = Some row -> x <> ""%string ->
    count_entries "reactivated" x (change_log (store (fold_left (upsert now task) vs st)))
    = (count_entries "reactivated" x (change_log (store st))
       + (if is_active row then 0
          else if bool_decide (x ∈ vin <$> vs) then 1 else 0))%nat.
Proof.
  induction vs as [|v vs IH]; intros st x row Hrow Hne; cbn [fold_left].
  - rewrite fmap_nil, bool_decide_eq_false_2 by apply not_elem_of_nil.
    destruct (is_active row); lia.
  - destruct (upsert_log st v) as (a1 & E1 & V1 & _ & _ & R1).
    destruct (decide (vin v = x)) as [Hv|Hv].
    + subst x. rewrite Hrow in R1.
      destruct (String.eqb_spec (vin v) "") as [?|_]; [done|].
      destruct (upsert_lookup_same st v Hne) as (row' & Hrow' & Hact').
      rewrite (IH _ _ row' Hrow' Hne), Hact', E1, count_entries_app, R1.
      rewrite bool_decide_eq_true_2 by (apply elem_of_cons; by left).
      destruct (is_active row); lia.
    + assert (Hrow' : vehicles (store (upsert now task st v)) !! x = Some row)
        by (by rewrite upsert_lookup_other).
      rewrite (IH _ _ row Hrow' Hne), E1, count_entries_app.
      rewrite (count_entries_other_vin _ x a1)
        by (eapply Forall_impl; [exact V1|]; by intros e ->).
      destruct (is_active row); [lia|].
      destruct (decide (x ∈ vin <$> vs)) as [Hin|Hin].
      * rewrite (bool_decide_eq_true_2 _ Hin).
        rewrite bool_decide_eq_true_2 by (apply elem_of_cons; by right). lia.
      * rewrite (bool_decide_eq_false_2 _ Hin).
        rewrite bool_decide_eq_false_2; [lia|].
        apply not_elem_of_cons. split; [congruence | done].
Qed.

Lemma loop_updated (vs : list record) :
  forall st : Loop,
    vehicles_updated (fold_left (upsert now task) vs st)
    = (vehicles_updated st + found_existing (dom (vehicles (store st))) vs)%nat.
Proof.
  induction vs as [|v vs IH]; intros st; simpl; [lia|].
  rewrite IH, upsert_updated, upsert_dom.
  destruct (String.eqb (vin v) ""); lia.
Qed.


(** The removal loop, unrolled: the rows absent from the snapshot are
    rewritten as inactive and each gets one row of the change log. *)
Lemma mark_inactive_fold (scraped : gset string) (l : list (string * Vehicle)) :
  forall (db : Store) (n : nat),
    fold_left (mark_inactive now task scraped) l (db, n)
    = (MkStore
         (fold_left
            (fun m kv => <[fst kv := MkVehicle (attrs (snd kv)) (photos (snd kv))
                                               false None]> m)
            (List.filter (fun kv => negb (bool_decide (fst kv ∈ scraped))) l)
            (vehicles db))
         (change_log db
            ++ map (fun kv => MkChangeLog (fst kv) now "removed"
                                (Some "is_active"%string) (Some "True"%string)
                                (Some "False"%string) task)
                   (List.filter (fun kv => negb (bool_decide (fst kv ∈ scraped))) l))
         (price_history db),
       (n + length (List.filter (fun kv => negb (bool_decide (fst kv ∈ scraped))) l))%nat).
Proof.
  induction l as [|[k veh] l IH]; intros db n; simpl.
  - rewrite app_nil_r, Nat.add_0_r. by destruct db.
  - destruct (bool_decide (k ∈ scraped)); simpl.
    + apply IH.
    + rewrite IH. simpl. rewrite <- app_assoc. simpl. f_equal. lia.
Qed.

Lemma deactivate_lookup_notin (g : list (string * Vehicle)) (x : string) :
  forall m : gmap string Vehicle,
    x ∉ g.*1 ->
    fold_left (fun m kv => <[fst kv := MkVehicle (attrs (snd kv)) (photos (snd kv))
                                                 false None]> m) g m !! x
    = m !! x.
Proof.
  induction g as [|[k veh] g IH]; intros m Hx; simpl; [done|].
  rewrite fmap_cons, not_elem_of_cons in Hx. destruct Hx as [Hk Hg].
  rewrite IH by done. simpl in Hk. by rewrite lookup_insert_ne.
Qed.

Lemma deactivate_lookup_in (g : list (string * Vehicle)) (x : string) :
  forall m : gmap string Vehicle,
    x ∈ g.*1 ->
    exists row,
      fold_left (fun m kv => <[fst kv := MkVehicle (attrs (snd kv)) (photos (snd kv))
                                                   false None]> m) g m !! x
      = Some row /\ is_active row = false.
Proof.
  induction g as [|[k veh] g IH]; intros m Hx.
  - by apply elem_of_nil in Hx.
  - cbn [fold_left]. destruct (decide (x ∈ g.*1)) as [Hg|Hg].
    + by apply IH.
    + rewrite fmap_cons, elem_of_cons in Hx. destruct Hx as [->|?]; [|done].
      rewrite deactivate_lookup_notin by done. simpl.
      rewrite lookup_insert_eq. eauto.
Qed.

Lemma count_removed_entries (g : list (string * Vehicle)) (x : string) :
  count_entries "removed" x
    (map (fun kv => MkChangeLog (fst kv) now "removed" (Some "is_active"%string)
                      (Some "True"%string) (Some "False"%string) task) g)
  = length (List.filter (fun kv => String.eqb (fst kv) x) g).
Proof.
  unfold count_entries. induction g as [|[k veh] g IH]; simpl; [done|].
  destruct (String.eqb k x); simpl; by rewrite IH.
Qed.

Lemma filter_key_absent (g : list (string * Vehicle)) (x : string) :
  x ∉ g.*1 -> List.filter (fun kv => String.eqb (fst kv) x) g = [].
Proof.
  induction g as [|[k veh] g IH]; intros Hx; simpl; [done|].
  rewrite fmap_cons, not_elem_of_cons in Hx. destruct Hx as [Hk Hg].
  simpl in Hk. destruct (String.eqb_spec k x) as [->|_]; [done|]. by apply IH.
Qed.

Lemma filter_key_once (g : list (string * Vehicle)) (x : string) :
  NoDup g.*1 -> x ∈ g.*1 ->
  length (List.filter (fun kv => String.eqb (fst kv) x) g) = 1%nat.
Proof.
  induction g as [|[k veh] g IH]; intros Hnd Hx.
  - by apply elem_of_nil in Hx.
  - rewrite fmap_cons in Hnd, Hx. apply NoDup_cons in Hnd as [Hk Hnd].
    simpl in *. destruct (String.eqb_spec k x) as [->|Hne].
    + by rewrite filter_key_absent.
    + apply elem_of_cons in Hx as [->|Hx]; [done|]. by apply IH.
Qed.

Lemma NoDup_fst_filter (f : string * Vehicle -> bool) (l : list (string * Vehicle)) :
  NoDup l.*1 -> NoDup (List.filter f l).*1.
Proof.
  induction l as [|kv l IH]; intros Hnd; simpl; [done|].
  rewrite fmap_cons in Hnd. apply NoDup_cons in Hnd as [Hk Hnd].
  destruct (f kv); [|by apply IH].
  rewrite fmap_cons. apply NoDup_cons. split; [|by apply IH].
  intros Hin. apply Hk.
  apply list_elem_of_fmap in Hin as (kv' & -> & Hin).
  apply list_elem_of_fmap. exists kv'. split; [done|].
  apply list_elem_of_In. apply list_elem_of_In, filter_In in Hin. tauto.
Qed.

(** The keys of the rows the removal loop rewrites. *)
Lemma gone_keys (scraped : gset string) (db : Store) (x : string) :
  x ∈ (List.filter (fun kv => negb (bool_decide (fst kv ∈ scraped)))
                   (active_rows db)).*1
  <-> exists row, vehicles db !! x = Some row /\ is_active row = true /\ x ∉ scraped.
Proof.
  unfold active_rows. rewrite list_elem_of_fmap. split.
  - intros ([k row] & -> & Hin). simpl.
    apply list_elem_of_In, filter_In in Hin as [Hin Hs].
    apply filter_In in Hin as [Hin Ha].
    apply list_elem_of_In, elem_of_map_to_list in Hin. simpl in *.
    exists row. split; [done|]. split; [done|].
    apply negb_true_iff, bool_decide_eq_false in Hs. done.
  - intros (row & Hrow & Ha & Hs). exists (x, row). split; [done|].
    apply list_elem_of_In, filter_In. split.
    + apply filter_In. split; [|done].
      by apply list_elem_of_In, elem_of_map_to_list.
    + simpl. by apply negb_true_iff, bool_decide_eq_false.
Qed.

Lemma gone_NoDup (scraped : gset string) (db : Store) :
  NoDup (List.filter (fun kv => negb (bool_decide (fst kv ∈ scraped)))
                     (active_rows db)).*1.
Proof.
  unfold active_rows. do 2 apply NoDup_fst_filter. apply NoDup_fst_map_to_list.
Qed.


Lemma count_entries_not_kind (kind key : string) (l : list VehicleChangeLog) :
  Forall (fun e => change_type e <> kind) l -> count_entries kind key l = 0%nat.
Proof.
  intros Hall. unfold count_entries.
  induction Hall as [|e l He Hl IH]; simpl; [done|].
  destruct (String.eqb_spec (change_type e) kind) as [?|_]; [done|].
  by rewrite andb_false_r.
Qed.

Lemma removed_entries_kind (g : list (string * Vehicle)) :
  Forall (fun e => change_type e = "removed"%string)
    (map (fun kv => MkChangeLog (fst kv) now "removed" (Some "is_active"%string)
                      (Some "True"%string) (Some "False"%string) task) g).
Proof. induction g; simpl; by constructor. Qed.

(** [main] with its two loops unrolled. *)
Lemma main_unfold (db : Store) (vs : list record) :
  main now task db vs
  = let st := fold_left (upsert now task) vs (MkLoop db ∅ 0 0) in
    let g := List.filter (fun kv => negb (bool_decide (fst kv ∈ scraped_vins st)))
                         (active_rows (store st)) in
    MkRun
      (commit
         (MkStore
            (fold_left
               (fun m kv => <[fst kv := MkVehicle (attrs (snd kv)) (photos (snd kv))
                                                  false None]> m)
               g (vehicles (store st)))
            (change_log (store st)
               ++ map (fun kv => MkChangeLog (fst kv) now "removed"
                                   (Some "is_active"%string) (Some "True"%string)
                                   (Some "False"%string) task) g)
            (price_history (store st))))
      (length vs) (vehicles_new st) (vehicles_updated st) (0 + length g).
Proof. unfold main. rewrite mark_inactive_fold. reflexivity. Qed.

(** A run only appends to the change log. *)
Lemma main_appended (db : Store) (vs : list record) :
  exists added,
    let st := fold_left (upsert now task) vs (MkLoop db ∅ 0 0) in
    let g := List.filter (fun kv => negb (bool_decide (fst kv ∈ scraped_vins st)))
                         (active_rows (store st)) in
    change_log (store st) = change_log db ++ added
    /\ appended db (committed (main now task db vs))
       = added ++ map (fun kv => MkChangeLog (fst kv) now "removed"
                                   (Some "is_active"%string) (Some "True"%string)
                                   (Some "False"%string) task) g
    /\ Forall (fun e => change_type e <> "removed"%string) added
    /\ (size (vins_with "updated" added)
         <= vehicles_updated st)%nat.
Proof.
  destruct (loop_log vs (MkLoop db ∅ 0 0)) as (added & E & _ & K & S).
  exists added. simpl in *. split; [exact E|]. split; [|split; [exact K | lia]].
  apply appended_app. rewrite main_unfold. simpl. by rewrite E, <- app_assoc.
Qed.

Lemma scraped_of_run (db : Store) (vs : list record) (x : string) :
  x ∈ scraped_vins (fold_left (upsert now task) vs (MkLoop db ∅ 0 0))
  <-> x <> ""%string /\ x ∈ vin <$> vs.
Proof.
  rewrite loop_scraped. simpl. split; [|by right].
  intros [H|H]; [|done]. by apply not_elem_of_empty in H.
Qed.

(** A vehicle that is active and absent from the snapshot gets exactly one
    ["removed"] row and is inactive afterwards. *)
Lemma main_removes_absent (db : Store) (vs : list record) (x : string) (row : Vehicle) :
  x ∉ vin <$> vs -> vehicles db !! x = Some row -> is_active row = true ->
  count_entries "removed" x (appended db (committed (main now task db vs))) = 1%nat
  /\ exists row', vehicles (committed (main now task db vs)) !! x = Some row'
                  /\ is_active row' = false.
Proof.
  intros Hx Hrow Hact.
  destruct (main_appended db vs) as (added & _ & -> & K & _).
  set (st := fold_left (upsert now task) vs (MkLoop db ∅ 0 0)).
  assert (Hgone : x ∈ (List.filter
                         (fun kv => negb (bool_decide (fst kv ∈ scraped_vins st)))
                         (active_rows (store st))).*1).
  { apply gone_keys. exists row. split; [|split; [done|]].
    - unfold st. by rewrite loop_lookup_other.
    - unfold st. rewrite scraped_of_run. tauto. }
  split.
  - rewrite count_entries_app, (count_entries_not_kind _ _ added K).
    rewrite count_removed_entries. simpl.
    apply filter_key_once; [apply gone_NoDup | done].
  - rewrite main_unfold. fold st. simpl. rewrite lookup_fmap.
    destruct (deactivate_lookup_in _ x (vehicles (store st)) Hgone) as (r & -> & Hr).
    simpl. eauto.
Qed.

(** A vehicle of the snapshot is in the table and active after the run. *)
Lemma main_keeps_present (db : Store) (vs : list record) (x : string) :
  x <> ""%string -> x ∈ vin <$> vs ->
  exists row, vehicles (committed (main now task db vs)) !! x = Some row
              /\ is_active row = true.
Proof.
  intros Hne Hx. rewrite main_unfold.
  set (st := fold_left (upsert now task) vs (MkLoop db ∅ 0 0)).
  simpl. rewrite lookup_fmap.
  destruct (loop_active vs (MkLoop db ∅ 0 0) x Hne Hx) as (row & Hrow & Hact).
  fold st in Hrow.
  rewrite deactivate_lookup_notin.
  - rewrite Hrow. simpl. eauto.
  - rewrite gone_keys. intros (_ & _ & _ & Hs). apply Hs.
    unfold st. by rewrite scraped_of_run.
Qed.

(** An inactive vehicle that is in the snapshot gets exactly one
    ["reactivated"] row. *)
Lemma main_reactivates (db : Store) (vs : list record) (x : string) (row : Vehicle) :
  vehicles db !! x = Some row -> is_active row = false ->
  x <> ""%string -> x ∈ vin <$> vs ->
  count_entries "reactivated" x (appended db (committed (main now task db vs))) = 1%nat.
Proof.
  intros Hrow Hina Hne Hx.
  destruct (main_appended db vs) as (added & E & -> & _ & _).
  pose proof (loop_reactivated vs (MkLoop db ∅ 0 0) x row Hrow Hne) as Hc.
  simpl in E, Hc. rewrite E, count_entries_app, Hina in Hc.
  rewrite bool_decide_eq_true_2 in Hc by done.
  rewrite count_entries_app.
  rewrite (count_entries_other_kind "reactivated" "removed" x _
             (removed_entries_kind _)) by done.
  lia.
Qed.

Lemma main_updated (db : Store) (vs : list record) :
  run_updated (main now task db vs) = found_existing (dom (vehicles db)) vs.
Proof. rewrite main_unfold. simpl. by rewrite loop_updated. Qed.

Lemma main_updated_vins (db : Store) (vs : list record) :
  (size (vins_with "updated" (appended db (committed (main now task db vs))))
   <= run_updated (main now task db vs))%nat.
Proof.
  destruct (main_appended db vs) as (added & _ & -> & _ & S).
  rewrite vins_with_app.
  rewrite (vins_with_other_kind "updated" "removed" _ (removed_entries_kind _))
    by done.
  rewrite main_unfold. simpl. simpl in S.
  rewrite union_empty_r_L. exact S.
Qed.

End AuditTrail.

Section CeleryPath.
Import ScrapeReal.

Lemma sync_field_same (v : record) (row : Vehicle) (field : string) :
  get v field = PyNone \/ Tasks.py_eqb (get v field) (getattr row field) = true ->
  Tasks.sync_field v (row, false) field = (row, false).
Proof.
  intros H. unfold Tasks.sync_field.
  destruct H as [->|H]; [done|]. rewrite H. by destruct (get v field).
Qed.

Lemma sync_fields_same (v : record) (row : Vehicle) (fields : list string) :
  (forall field, get v field = PyNone
                 \/ Tasks.py_eqb (get v field) (getattr row field) = true) ->
  fold_left (Tasks.sync_field v) fields (row, false) = (row, false).
Proof.
  intros H. induction fields as [|f fields IH]; cbn [fold_left]; [done|].
  by rewrite sync_field_same.
Qed.

(** The Celery loop leaves its counter alone when no field differs. *)
Lemma tasks_sync_unchanged (now : Z) (st : Tasks.Loop) (v : record) (existing : Vehicle) :
  vin v <> ""%string ->
  Tasks.table st !! vin v = Some existing ->
  (forall field, get v field = PyNone
                 \/ Tasks.py_eqb (get v field) (getattr existing field) = true) ->
  photos_key v = None \/ photos_key v = Some (photos existing) ->
  Tasks.updated_count (Tasks.sync now st v) = Tasks.updated_count st.
Proof.
  intros Hne Hrow Hsame Hphotos. unfold Tasks.sync.
  destruct (String.eqb_spec (vin v) ""); [done|]. rewrite Hrow.
  rewrite sync_fields_same by done.
  assert (Hp : Tasks.sync_photos v (existing, false) = (existing, false)).
  { unfold Tasks.sync_photos. destruct Hphotos as [->| ->]; [done|].
    unfold Tasks.list_eqb. by rewrite bool_decide_eq_true_2. }
  rewrite Hp, sync_field_same by done. reflexivity.
Qed.

End CeleryPath.

Section RunRecord.
Import ScrapeReal.

(** The Run Record of a triggered run carries the counts of the run. *)
Lemma write_scrape_log_counts (t : string) (finished : Z) (manual_id : string)
    (r : RunResult) (errs : list string) (log_msg : string)
    (logs logs' : list ScrapeLog) :
  t <> ""%string ->
  write_scrape_log (Some t) finished manual_id r errs log_msg logs = Some logs' ->
  exists row,
    row ∈ logs' /\ task_id row = Some t /\ status row = COMPLETED
    /\ Models.vehicles_updated row = run_updated r
    /\ Models.vehicles_new row = run_new r
    /\ Models.vehicles_removed row = run_removed r
    /\ Models.vehicles_found row = run_found r.
Proof.
  intros Hne. unfold write_scrape_log.
  destruct (String.eqb_spec t "") as [?|_]; [done|].
  destruct (List.filter (task_is t) logs) as [|x [|y rest]] eqn:Hf; [| |done].
  - intros [= <-].
    exists (completed_row (Some t) finished finished r errs log_msg).
    split; [|by repeat split].
    apply elem_of_app. right. apply list_elem_of_here.
  - intros [= <-].
    assert (Hx : In x (List.filter (task_is t) logs)) by (rewrite Hf; by left).
    apply filter_In in Hx as [Hin Ht].
    exists (completed_row (task_id x) (started_at x) finished r errs log_msg).
    split.
    + apply list_elem_of_In, in_map_iff. exists x. by rewrite Ht.
    + split; [|by repeat split]. simpl.
      unfold task_is in Ht. destruct (task_id x) as [t'|]; [|done].
      by apply String.eqb_eq in Ht as ->.
Qed.

End RunRecord.

(** *** A second run over the same snapshot *)

Section SecondRun.
Import ScrapeReal.
Variables (now : Z) (task : option string).

(** Only a vehicle of the snapshot is active after a run. *)
Lemma main_active_only_present (db : Store) (vs : list record) (x : string)
    (row : Vehicle) :
  vehicles (committed (main now task db vs)) !! x = Some row ->
  is_active row = true ->
  x <> ""%string /\ x ∈ vin <$> vs.
Proof.
  rewrite main_unfold.
  set (st := fold_left (upsert now task) vs (MkLoop db ∅ 0 0)).
  simpl. rewrite lookup_fmap. intros Hrow Hact.
  set (g := List.filter (fun kv => negb (bool_decide (fst kv ∈ scraped_vins st)))
                        (active_rows (store st))) in *.
  destruct (decide (x ∈ g.*1)) as [Hin|Hout].
  - destruct (deactivate_lookup_in _ x (vehicles (store st)) Hin) as (r & Hr & Hina).
    rewrite Hr in Hrow. simpl in Hrow. injection Hrow as <-. simpl in Hact. congruence.
  - rewrite deactivate_lookup_notin in Hrow by done.
    destruct (vehicles (store st) !! x) as [r|] eqn:Hr; [|done].
    simpl in Hrow. injection Hrow as <-. simpl in Hact.
    apply (scraped_of_run now task db vs).
    destruct (decide (x ∈ scraped_vins st)) as [|Hs]; [done|].
    exfalso. apply Hout. apply gone_keys. eauto.
Qed.

(** A record whose VIN is in the table and active appends no row other
    than ["updated"] ones. *)
Lemma upsert_existing_active (st : Loop) (v : record) (kind x : string)
    (row : Vehicle) :
  kind <> "updated"%string ->
  vin v = ""%string \/ (vehicles (store st) !! vin v = Some row /\ is_active row = true) ->
  count_entries kind x (change_log (store (upsert now task st v)))
  = count_entries kind x (change_log (store st)).
Proof.
  intros Hk Hv. unfold upsert.
  destruct (String.eqb_spec (vin v) "") as [?|Hne]; [done|].
  destruct Hv as [?|[Hrow Hact]]; [done|].
  rewrite Hrow, Hact. simpl. rewrite app_nil_r, count_entries_app.
  rewrite (count_entries_other_kind kind "updated" x _
             (updated_entries_kind now task _ _ _)) by done.
  lia.
Qed.

Lemma loop_existing_active (vs : list record) (kind x : string) :
  kind <> "updated"%string ->
  forall st : Loop,
    (forall v, v ∈ vs -> vin v <> ""%string ->
               exists row, vehicles (store st) !! vin v = Some row
                           /\ is_active row = true) ->
    count_entries kind x (change_log (store (fold_left (upsert now task) vs st)))
    = count_entries kind x (change_log (store st)).
Proof.
  intros Hk. induction vs as [|v vs IH]; intros st Hall; cbn [fold_left]; [done|].
  rewrite IH.
  - destruct (decide (vin v = ""%string)) as [He|Hne].
    + by apply (upsert_existing_active st v kind x (MkVehicle ∅ [] true None)); [|left].
    + destruct (Hall v) as (row & Hrow & Hact); [left | done |].
      apply (upsert_existing_active st v kind x row); [done|]. by right.
  - intros v' Hv' Hne'. apply upsert_keeps_active. apply Hall; [by right | done].
Qed.

(** The loop never touches the row of the empty VIN. *)
Lemma loop_lookup_empty (vs : list record) :
  forall st : Loop,
    vehicles (store (fold_left (upsert now task) vs st)) !! ""%string
    = vehicles (store st) !! ""%string.
Proof.
  induction vs as [|v vs IH]; intros st; cbn [fold_left]; [done|].
  rewrite IH. unfold upsert.
  destruct (String.eqb_spec (vin v) "") as [?|Hne]; [done|].
  destruct (vehicles (store st) !! vin v); simpl; by rewrite lookup_insert_ne.
Qed.

(** Every active row is in [scraped_vins]: nothing to remove. *)
Lemma nothing_gone (scraped : gset string) (db : Store) :
  (forall x row, vehicles db !! x = Some row -> is_active row = true -> x ∈ scraped) ->
  List.filter (fun kv => negb (bool_decide (fst kv ∈ scraped))) (active_rows db) = [].
Proof.
  intros Hall.
  destruct (List.filter _ _) as [|[k r] g] eqn:E; [done|].
  assert (Hk : k ∈ (List.filter (fun kv => negb (bool_decide (fst kv ∈ scraped)))
                                (active_rows db)).*1)
    by (rewrite E; left).
  apply gone_keys in Hk as (row & Hrow & Hact & Hs).
  destruct Hs. by apply (Hall k row).
Qed.

End SecondRun.

Section Idempotence.
Import ScrapeReal.

(** In a second run over the same snapshot the removal loop finds nothing
    to remove. *)
Lemma second_run_nothing_gone (now1 now2 : Z) (task1 task2 : option string)
    (db : Store) (vs : list record) :
  let first := main now1 task1 db vs in
  let st := fold_left (upsert now2 task2) vs (MkLoop (committed first) ∅ 0 0) in
  List.filter (fun kv => negb (bool_decide (fst kv ∈ scraped_vins st)))
              (active_rows (store st)) = [].
Proof.
  intros first st. apply nothing_gone.
  intros y row Hrow Hact. apply scraped_of_run.
  destruct (decide (y = ""%string \/ y ∉ vin <$> vs)) as [Hy|Hy].
  - assert (Hsame : vehicles (store st) !! y = vehicles (committed first) !! y).
    { destruct Hy as [->|Hy].
      - exact (loop_lookup_empty now2 task2 vs (MkLoop (committed first) ∅ 0 0)).
      - exact (loop_lookup_other now2 task2 vs
                 (MkLoop (committed first) ∅ 0 0) y Hy). }
    rewrite Hsame in Hrow.
    by apply (main_active_only_present now1 task1 db vs y row).
  - split.
    + intros ->. apply Hy. by left.
    + destruct (decide (y ∈ vin <$> vs)); [done|]. destruct Hy. by right.
Qed.

(** X8.  Whatever the tables and the snapshot, a second run over the same
    snapshot appends no ["new"], ["removed"] or ["reactivated"] row: what
    it can append are ["updated"] rows. *)
Lemma second_run_only_updates (now1 now2 : Z) (task1 task2 : option string)
    (db : Store) (vs : list record) (kind x : string) :
  kind <> "updated"%string ->
  let first := main now1 task1 db vs in
  let second := main now2 task2 (committed first) vs in
  count_entries kind x (appended (committed first) (committed second)) = 0%nat.
Proof.
  intros Hk first second. subst second.
  assert (Hpresent : forall v, v ∈ vs -> vin v <> ""%string ->
            exists row, vehicles (committed first) !! vin v = Some row
                        /\ is_active row = true).
  { intros v Hv Hne. apply main_keeps_present; [done|].
    apply list_elem_of_fmap. eauto. }
  destruct (main_appended now2 task2 (committed first) vs) as (added & E & -> & _ & _).
  pose proof (loop_existing_active now2 task2 vs kind x Hk
                (MkLoop (committed first) ∅ 0 0) Hpresent) as Hc.
  simpl in E, Hc. rewrite E, count_entries_app in Hc.
  pose proof (second_run_nothing_gone now1 now2 task1 task2 db vs) as Hg.
  cbv zeta in Hg. fold first in Hg. rewrite Hg.
  simpl. rewrite app_nil_r. lia.
Qed.

End Idempotence.

Section Stable.
Import ScrapeReal.
Variables (now : Z) (task : option string).

Lemma getattr_setattr (row : Vehicle) (f g : string) (x : pyval) :
  getattr (setattr row f x) g = if decide (f = g) then x else getattr row g.
Proof.
  unfold getattr, setattr. simpl. rewrite lookup_insert.
  by destruct (decide (f = g)).
Qed.

Lemma getattr_set_fields (v : record) (fields : list string) (g : string) :
  forall row : Vehicle,
    getattr (fold_left (fun r field => setattr r field (get v field)) fields row) g
    = if decide (g ∈ fields) then get v g else getattr row g.
Proof.
  induction fields as [|f fields IH]; intros row; cbn [fold_left].
  - by rewrite decide_False by apply not_elem_of_nil.
  - rewrite IH, getattr_setattr.
    destruct (decide (g ∈ fields)) as [Hin|Hout].
    + rewrite decide_True; [done | by right].
    + destruct (decide (f = g)) as [->|Hne].
      * rewrite decide_True; [done | by left].
      * rewrite decide_False; [done|].
        apply not_elem_of_cons. split; [congruence | done].
Qed.

Lemma getattr_apply_fields (row : Vehicle) (v : record) (g : string) :
  g ∈ _tracked_fields -> getattr (apply_fields row v) g = get v g.
Proof.
  intros Hg. unfold apply_fields. rewrite getattr_set_fields. by rewrite decide_True.
Qed.

Lemma upsert_holds (st : Loop) (v : record) :
  vin v <> ""%string -> holds v (vehicles (store (upsert now task st v))).
Proof.
  intros Hne. unfold upsert, holds.
  destruct (String.eqb_spec (vin v) ""); [done|].
  destruct (vehicles (store st) !! vin v) as [existing|];
    cbn [store vehicles]; rewrite lookup_insert_eq; eexists;
    (split; [reflexivity|]); (split; [reflexivity|]); intros field Hf.
  - exact (getattr_apply_fields existing v field Hf).
  - exact (getattr_apply_fields (MkVehicle ∅ [] true None) v field Hf).
Qed.

Lemma upsert_keeps_holds (st : Loop) (v v' : record) :
  (vin v' = vin v -> forall field, field ∈ _tracked_fields ->
                                   get v' field = get v field) ->
  holds v (vehicles (store st)) ->
  holds v (vehicles (store (upsert now task st v'))).
Proof.
  intros Hagree Hv.
  destruct (decide (vin v' = vin v)) as [Heq|Hne].
  - destruct (String.eqb_spec (vin v') "") as [He|Hv'].
    + unfold upsert. destruct (String.eqb_spec (vin v') ""); [exact Hv | done].
    + destruct (upsert_holds st v' Hv') as (row & Hrow & Hact & Hattrs).
      exists row. rewrite <- Heq. split; [done|]. split; [done|].
      intros field Hf. rewrite Hattrs by done. by apply Hagree.
  - unfold holds. by rewrite upsert_lookup_other.
Qed.

Lemma loop_keeps_holds (vs : list record) (v : record) :
  (forall v', v' ∈ vs -> vin v' = vin v ->
              forall field, field ∈ _tracked_fields -> get v' field = get v field) ->
  forall st : Loop,
    holds v (vehicles (store st)) ->
    holds v (vehicles (store (fold_left (upsert now task) vs st))).
Proof.
  induction vs as [|v' vs IH]; intros Hagree st Hv; cbn [fold_left]; [done|].
  apply IH.
  - intros v'' Hin. apply Hagree. by right.
  - apply upsert_keeps_holds; [|done]. apply Hagree. by left.
Qed.

Lemma loop_holds (vs : list record) (v : record) :
  v ∈ vs -> vin v <> ""%string ->
  (forall v', v' ∈ vs -> vin v' = vin v ->
              forall field, field ∈ _tracked_fields -> get v' field = get v field) ->
  forall st : Loop,
    holds v (vehicles (store (fold_left (upsert now task) vs st))).
Proof.
  induction vs as [|v' vs IH]; intros Hin Hne Hagree st; cbn [fold_left].
  - by apply elem_of_nil in Hin.
  - apply elem_of_cons in Hin as [<-|Hin].
    + apply loop_keeps_holds.
      * intros v'' Hin. apply Hagree. by right.
      * by apply upsert_holds.
    + apply IH; [done | done |]. intros v'' Hin''. apply Hagree. by right.
Qed.


Lemma getattr_row_load (row : Vehicle) (g : string) :
  getattr (row_load row) g = column_load g (getattr row g).
Proof.
  unfold getattr, row_load. simpl. rewrite map_lookup_imap.
  destruct (attrs row !! g) as [x|]; simpl; [done|].
  unfold column_load. by destruct (String.eqb g "price").
Qed.

(** After a run, the row of a record of a consistent snapshot holds the
    record's values as their columns give them back. *)
Lemma main_row_of_record (db : Store) (vs : list record) (v : record) :
  consistent vs -> v ∈ vs -> vin v <> ""%string ->
  exists row,
    vehicles (committed (main now task db vs)) !! vin v = Some row
    /\ is_active row = true
    /\ forall field, field ∈ _tracked_fields ->
                     getattr row field = column_load field (get v field).
Proof.
  intros Hcons Hin Hne.
  destruct (loop_holds vs v Hin Hne (fun v' Hv' He => Hcons v' v Hv' Hin He)
              (MkLoop db ∅ 0 0)) as (row & Hrow & Hact & Hattrs).
  rewrite main_unfold. simpl. rewrite lookup_fmap.
  rewrite deactivate_lookup_notin.
  - rewrite Hrow. simpl. eexists. split; [reflexivity|]. split; [done|].
    intros field Hf. by rewrite getattr_row_load, Hattrs.
  - rewrite gone_keys. intros (_ & _ & _ & Hs). apply Hs.
    apply scraped_of_run. split; [done|]. apply list_elem_of_fmap. eauto.
Qed.

Lemma price_is_tracked : "price"%string ∈ _tracked_fields.
Proof. unfold _tracked_fields. do 5 right. left. Qed.

Lemma holds_quiet (v v' : record) (m : gmap string Vehicle) :
  vin v' = vin v ->
  (forall field, field ∈ _tracked_fields -> get v' field = get v field) ->
  holds v' m -> quiet v m.
Proof.
  intros Hvin Hagree (row & Hrow & Hact & Hattrs).
  exists row. rewrite <- Hvin. split; [done|]. split; [done|]. split.
  - intros field Hf. by rewrite Hattrs, Hagree.
  - rewrite Hattrs, Hagree; [done | apply price_is_tracked | apply price_is_tracked].
Qed.

Lemma omap_all_none {A B : Type} (f : A -> option B) (l : list A) :
  (forall a, a ∈ l -> f a = None) -> omap f l = [].
Proof.
  induction l as [|a l IH]; intros Hall; simpl; [done|].
  rewrite Hall by (by left). apply IH. intros b Hb. apply Hall. by right.
Qed.

(** A record that finds a row reading like itself appends nothing. *)
Lemma upsert_quiet (st : Loop) (v : record) :
  vin v <> ""%string -> quiet v (vehicles (store st)) ->
  change_log (store (upsert now task st v)) = change_log (store st)
  /\ price_history (store (upsert now task st v)) = price_history (store st).
Proof.
  intros Hne (row & Hrow & Hact & Hattrs & Hprice). unfold upsert.
  destruct (String.eqb_spec (vin v) ""); [done|].
  rewrite Hrow, Hact, Hprice, String.eqb_refl. cbn [store change_log price_history].
  unfold updated_entries. rewrite omap_all_none.
  - by rewrite !app_nil_r.
  - intros field Hf. rewrite (Hattrs field Hf). by rewrite String.eqb_refl.
Qed.

Lemma loop_quiet (vs : list record) (l : list record) :
  consistent vs -> (forall v, v ∈ l -> v ∈ vs) ->
  forall st : Loop,
    (forall v, v ∈ vs -> vin v <> ""%string -> quiet v (vehicles (store st))) ->
    change_log (store (fold_left (upsert now task) l st)) = change_log (store st)
    /\ price_history (store (fold_left (upsert now task) l st))
       = price_history (store st).
Proof.
  intros Hcons. induction l as [|v0 l IH]; intros Hsub st Hinv; cbn [fold_left];
    [done|].
  assert (Hv0 : v0 ∈ vs) by (apply Hsub; by left).
  destruct (decide (vin v0 = ""%string)) as [He|Hne].
  - assert (Hid : upsert now task st v0 = st).
    { unfold upsert. by destruct (String.eqb_spec (vin v0) ""). }
    rewrite Hid. apply IH; [|done]. intros v Hv. apply Hsub. by right.
  - destruct (upsert_quiet st v0 Hne (Hinv v0 Hv0 Hne)) as [E1 E2].
    rewrite <- E1, <- E2. apply IH.
    + intros v Hv. apply Hsub. by right.
    + intros v Hv Hvne.
      destruct (decide (vin v0 = vin v)) as [Heq|Hneq].
      * apply (holds_quiet v v0); [done | | by apply upsert_holds].
        intros field Hf. by apply Hcons.
      * destruct (Hinv v Hv Hvne) as (row & Hrow & Hrest).
        exists row. by rewrite upsert_lookup_other.
Qed.

End Stable.

Section StableIdempotence.
Import ScrapeReal.

Lemma stable_fields (v : record) (field : string) :
  stable v = true -> field ∈ _tracked_fields ->
  norm_str (column_load field (get v field)) = norm_str (get v field).
Proof.
  unfold stable. intros [Hall _]%andb_prop Hf.
  rewrite forallb_forall in Hall.
  apply String.eqb_eq, Hall. by apply list_elem_of_In.
Qed.

Lemma stable_price (v : record) :
  stable v = true ->
  str_or_empty (column_load "price" (get v "price")) = str_or_empty (get v "price").
Proof. unfold stable. intros [_ H]%andb_prop. by apply String.eqb_eq. Qed.

(** X9.  For a snapshot whose records agree wherever they share a VIN and
    whose values read the same after a round trip through their columns,
    the second run appends nothing to the change log or to the price
    history. *)
Lemma second_run_silent_when_stable (now1 now2 : Z) (task1 task2 : option string)
    (db : Store) (vs : list record) :
  consistent vs -> (forall v, v ∈ vs -> stable v = true) ->
  let first := main now1 task1 db vs in
  let second := main now2 task2 (committed first) vs in
  appended (committed first) (committed second) = []
  /\ appended_prices (committed first) (committed second) = [].
Proof.
  intros Hcons Hstable first second. subst second.
  assert (Hinv : forall v, v ∈ vs -> vin v <> ""%string ->
                           quiet v (vehicles (committed first))).
  { intros v Hv Hne.
    destruct (main_row_of_record now1 task1 db vs v Hcons Hv Hne)
      as (row & Hrow & Hact & Hattrs).
    exists row. split; [done|]. split; [done|]. split.
    - intros field Hf. rewrite Hattrs by done. by apply stable_fields; [apply Hstable|].
    - rewrite Hattrs by apply price_is_tracked. by apply stable_price, Hstable. }
  destruct (loop_quiet now2 task2 vs vs Hcons (fun v Hv => Hv)
              (MkLoop (committed first) ∅ 0 0) Hinv) as [E1 E2].
  pose proof (second_run_nothing_gone now1 now2 task1 task2 db vs) as Hg.
  cbv zeta in Hg. fold first in Hg.
  unfold appended, appended_prices. rewrite main_unfold.
  cbv zeta. rewrite Hg. cbn [committed commit change_log price_history map].
  rewrite app_nil_r, E1, E2. cbn [store]. by rewrite !drop_all.
Qed.

End StableIdempotence.

Section Runs.
Import ScrapeReal Scenario.
Local Open Scope string_scope.

(** C5.  A VIN that is in the snapshot of run N, not in the snapshot of
    run N+1 and again in the snapshot of run N+2, the three runs following
    one another on the same tables: run N+1 appends exactly one
    ["removed"] row for it and run N+2 exactly one ["reactivated"] row. *)
Theorem c5_removed_then_reactivated (now1 now2 now3 : Z)
    (task1 task2 task3 : option string) (db : Store)
    (run_n run_n1 run_n2 : list record) (x : string) :
  x <> "" ->
  x ∈ vin <$> run_n -> x ∉ vin <$> run_n1 -> x ∈ vin <$> run_n2 ->
  let after_n := committed (main now1 task1 db run_n) in
  let after_n1 := committed (main now2 task2 after_n run_n1) in
  let after_n2 := committed (main now3 task3 after_n1 run_n2) in
  count_entries "removed" x (appended after_n after_n1) = 1%nat
  /\ count_entries "reactivated" x (appended after_n1 after_n2) = 1%nat.
Proof.
  intros Hne Hn Hn1 Hn2 after_n after_n1 after_n2.
  destruct (main_keeps_present now1 task1 db run_n x Hne Hn) as (row & Hrow & Hact).
  fold after_n in Hrow.
  destruct (main_removes_absent now2 task2 after_n run_n1 x row Hn1 Hrow Hact)
    as (Hremoved & row' & Hrow' & Hina).
  fold after_n1 in Hrow', Hremoved.
  split; [exact Hremoved|].
  exact (main_reactivates now3 task3 after_n1 run_n2 x row' Hrow' Hina Hne Hn2).
Qed.

(** The Accord is listed, disappears and comes back. *)
Lemma c5_witness :
  "1HGCM82633A004352" <> ""
  /\ ("1HGCM82633A004352" ∈ vin <$> [accord])
  /\ ("1HGCM82633A004352" ∉ vin <$> [])
  /\ ("1HGCM82633A004352" ∈ vin <$> [accord_unpriced])
  /\ (let after_n := committed (main 100 (Some "scrape-1") empty_store [accord]) in
      let after_n1 := committed (main 200 (Some "scrape-2") after_n []) in
      let after_n2 := committed (main 300 None after_n1 [accord_unpriced]) in
      count_entries "removed" "1HGCM82633A004352" (appended after_n after_n1) = 1%nat
      /\ count_entries "reactivated" "1HGCM82633A004352"
           (appended after_n1 after_n2) = 1%nat).
Proof.
  assert (H0 : "1HGCM82633A004352" <> "") by discriminate.
  assert (H1 : "1HGCM82633A004352" ∈ vin <$> [accord]) by (apply list_elem_of_here).
  assert (H2 : "1HGCM82633A004352" ∉ vin <$> []) by (apply not_elem_of_nil).
  assert (H3 : "1HGCM82633A004352" ∈ vin <$> [accord_unpriced])
    by (apply list_elem_of_here).
  split; [exact H0|]. split; [exact H1|]. split; [exact H2|]. split; [exact H3|].
  exact (c5_removed_then_reactivated 100 200 300 (Some "scrape-1") (Some "scrape-2")
           None empty_store [accord] [] [accord_unpriced] "1HGCM82633A004352"
           H0 H1 H2 H3).
Defined.

(** C9.  In [scrape_real] the [vehicles_updated] count, which the run
    writes to its Run Record, is the number of records of the snapshot
    that found their VIN in the table, changed or not; so the VINs with an ["updated"] row are at most
    that many, and can be fewer: a second run over an unchanged listing
    counts one update and logs none.  The Celery loop of [tasks.py] leaves
    its counter alone when no field differs. *)
Theorem c9_updated_counts_every_existing_record :
  (forall (now : Z) (task : option string) (db : Store) (vs : list record),
      run_updated (main now task db vs) = found_existing (dom (vehicles db)) vs
      /\ (size (vins_with "updated" (appended db (committed (main now task db vs))))
          <= run_updated (main now task db vs))%nat)
  /\ (forall (t : string) (finished : Z) (manual_id : string) (r : RunResult)
             (errs : list string) (log_msg : string) (logs logs' : list ScrapeLog),
         t <> "" ->
         write_scrape_log (Some t) finished manual_id r errs log_msg logs = Some logs' ->
         exists row, row ∈ logs' /\ task_id row = Some t /\ status row = COMPLETED
                     /\ Models.vehicles_updated row = run_updated r)
  /\ (let db := committed (main 100 (Some "scrape-1") empty_store [accord_unpriced]) in
      let again := main 200 (Some "scrape-2") db [accord_unpriced] in
      run_updated again = 1%nat
      /\ appended db (committed again) = []
      /\ Tasks.updated_count (Tasks.run_scrape_sync 200 (vehicles db) [accord_unpriced])
         = 0%nat)
  /\ (forall (now : Z) (st : Tasks.Loop) (v : record) (existing : Vehicle),
         vin v <> "" ->
         Tasks.table st !! vin v = Some existing ->
         (forall field, get v field = PyNone
                        \/ Tasks.py_eqb (get v field) (getattr existing field) = true) ->
         photos_key v = None \/ photos_key v = Some (photos existing) ->
         Tasks.updated_count (Tasks.sync now st v) = Tasks.updated_count st).
Proof.
  split; [|split; [|split]].
  - intros now task db vs. split; [apply main_updated | apply main_updated_vins].
  - intros t finished manual_id r errs log_msg logs logs' Hne Hw.
    destruct (write_scrape_log_counts t finished manual_id r errs log_msg
                logs logs' Hne Hw) as (row & ? & ? & ? & ? & _).
    eauto.
  - vm_compute. repeat split.
  - apply tasks_sync_unchanged.
Qed.

(** C1.  The claim is that a second run over an identical snapshot appends
    nothing.  For a listing with a price it does not hold: the stored
    price comes back from its [Numeric(12, 2)] column as the [Decimal]
    [28995.00], the fresh one is the float [28995.0], their texts differ,
    and the second run appends an ["updated"] row for [price] and a price
    history row. *)
Theorem c1_second_run_logs_price_again :
  let first := main 100 (Some "scrape-1") empty_store [accord] in
  let second := main 200 (Some "scrape-2") (committed first) [accord] in
  appended (committed first) (committed second)
  = [ MkChangeLog "1HGCM82633A004352" 200 "updated" (Some "price")
                  (Some "28995.00") (Some "28995.0") (Some "scrape-2") ]
  /\ appended_prices (committed first) (committed second)
     = [ MkPriceHistory "1HGCM82633A004352" (PyFloat (PyF 28995 0)) 200 "scrape" ].
Proof. vm_compute. split; reflexivity. Qed.

(** Without a price the second run is silent. *)
Example second_run_quiet_without_price :
  let first := main 100 (Some "scrape-1") empty_store [accord_unpriced] in
  let second := main 200 (Some "scrape-2") (committed first) [accord_unpriced] in
  appended (committed first) (committed second) = []
  /\ appended_prices (committed first) (committed second) = [].
Proof. vm_compute. split; reflexivity. Qed.

(** A snapshot that reaches one VIN twice with different fields is logged
    again on every run, whatever the price. *)
Example second_run_with_repeated_vin :
  let snapshot := [accord_unpriced; accord_other_page] in
  let first := main 100 (Some "scrape-1") empty_store snapshot in
  let second := main 200 (Some "scrape-2") (committed first) snapshot in
  appended (committed first) (committed second)
  = [ MkChangeLog "1HGCM82633A004352" 200 "updated" (Some "trim")
                  (Some "Sport") (Some "EX-L") (Some "scrape-2");
      MkChangeLog "1HGCM82633A004352" 200 "updated" (Some "trim")
                  (Some "EX-L") (Some "Sport") (Some "scrape-2") ].
Proof. vm_compute. reflexivity. Qed.

(** The priced listing is not stable, the unpriced one is. *)
Example accord_stability :
  stable accord = false /\ stable accord_unpriced = true.
Proof. split; vm_compute; reflexivity. Qed.

End Runs.


(* ===================================================================== *)
(** ** scrape_real.py: what one reconciliation run leaves                 *)
(* ===================================================================== *)

Section RunInvariants.
Import ScrapeReal.
Variables (now : Z) (task : option string).

Lemma upsert_prices_prefix (st : Loop) (v : record) :
  price_history (store st) `prefix_of` price_history (store (upsert now task st v)).
Proof.
  unfold upsert. destruct (String.eqb (vin v) ""); [done|].
  destruct (vehicles (store st) !! vin v); simpl; by eexists.
Qed.

Lemma loop_prices_prefix (vs : list record) :
  forall st : Loop,
    price_history (store st)
    `prefix_of` price_history (store (fold_left (upsert now task) vs st)).
Proof.
  induction vs as [|v vs IH]; intros st; cbn [fold_left]; [done|].
  etrans; [apply upsert_prices_prefix | apply IH].
Qed.

Lemma upsert_size_new (st : Loop) (v : record) :
  (size (vehicles (store (upsert now task st v))) + vehicles_new st
   = size (vehicles (store st)) + vehicles_new (upsert now task st v))%nat.
Proof.
  unfold upsert. destruct (String.eqb (vin v) ""); [done|].
  destruct (vehicles (store st) !! vin v) as [existing|] eqn:E; simpl.
  - rewrite map_size_insert_Some; [done | eauto].
  - rewrite map_size_insert_None by done. lia.
Qed.

Lemma loop_size_new (vs : list record) :
  forall st : Loop,
    (size (vehicles (store (fold_left (upsert now task) vs st))) + vehicles_new st
     = size (vehicles (store st))
       + vehicles_new (fold_left (upsert now task) vs st))%nat.
Proof.
  induction vs as [|v vs IH]; intros st; cbn [fold_left]; [done|].
  pose proof (IH (upsert now task st v)). pose proof (upsert_size_new st v). lia.
Qed.

Lemma upsert_new_updated (st : Loop) (v : record) :
  (vehicles_new (upsert now task st v) + vehicles_updated (upsert now task st v)
   = vehicles_new st + vehicles_updated st
     + (if String.eqb (vin v) "" then 0 else 1))%nat.
Proof.
  unfold upsert. destruct (String.eqb (vin v) ""); [lia|].
  destruct (vehicles (store st) !! vin v); simpl; lia.
Qed.

Lemma loop_new_updated (vs : list record) :
  forall st : Loop,
    (vehicles_new (fold_left (upsert now task) vs st)
     + vehicles_updated (fold_left (upsert now task) vs st)
     = vehicles_new st + vehicles_updated st
       + length (List.filter (fun v => negb (String.eqb (vin v) "")) vs))%nat.
Proof.
  induction vs as [|v vs IH]; intros st; cbn [fold_left]; [simpl; lia|].
  rewrite IH, upsert_new_updated. simpl.
  destruct (String.eqb (vin v) ""); simpl; lia.
Qed.

Lemma deactivate_size (g : list (string * Vehicle)) :
  forall m : gmap string Vehicle,
    (forall kv, kv ∈ g -> is_Some (m !! fst kv)) ->
    size (fold_left (fun m kv => <[fst kv := MkVehicle (attrs (snd kv)) (photos (snd kv))
                                                      false None]> m) g m)
    = size m.
Proof.
  induction g as [|kv g IH]; intros m Hall; cbn [fold_left]; [done|].
  rewrite IH.
  - apply map_size_insert_Some. apply Hall. by left.
  - intros kv' Hin. destruct (decide (fst kv = fst kv')) as [<-|Hne].
    + rewrite lookup_insert_eq. eauto.
    + rewrite lookup_insert_ne by done. apply Hall. by right.
Qed.

Lemma loop_dom_mono (vs : list record) :
  forall st : Loop,
    dom (vehicles (store st))
    ⊆ dom (vehicles (store (fold_left (upsert now task) vs st))).
Proof.
  induction vs as [|v vs IH]; intros st; cbn [fold_left]; [done|].
  etrans; [|apply IH]. rewrite upsert_dom.
  destruct (String.eqb (vin v) ""); [done|]. apply union_subseteq_r.
Qed.

End RunInvariants.

Section RunProperties.
Import ScrapeReal.
Variables (now : Z) (task : option string).

Lemma gone_in_table (scraped : gset string) (db : Store) (kv : string * Vehicle) :
  kv ∈ List.filter (fun kv => negb (bool_decide (fst kv ∈ scraped))) (active_rows db) ->
  is_Some (vehicles db !! fst kv).
Proof.
  intros Hin. apply list_elem_of_In, filter_In in Hin as [Hin _].
  unfold active_rows in Hin. apply filter_In in Hin as [Hin _].
  destruct kv as [k r]. apply list_elem_of_In, elem_of_map_to_list in Hin. eauto.
Qed.

(** X1.  A run only appends to the audit trail: the change log and the
    price history it commits both start with the rows that were there
    before the run, in the same order; no row is rewritten or dropped. *)
Theorem run_appends_only (db : Store) (vs : list record) :
  change_log db `prefix_of` change_log (committed (main now task db vs))
  /\ price_history db `prefix_of` price_history (committed (main now task db vs)).
Proof.
  split.
  - destruct (main_appended now task db vs) as (added & E & _).
    rewrite main_unfold. cbv zeta. cbn [committed commit change_log].
    cbv zeta in E. rewrite E, <- app_assoc. by eexists.
  - rewrite main_unfold. cbv zeta. cbn [committed commit price_history].
    apply (loop_prices_prefix now task vs (MkLoop db ∅ 0 0)).
Qed.

(** X2.  After a run the active vehicles are exactly the VINs of the
    snapshot: a vehicle is in the committed table and active if and only
    if its VIN is not empty and belongs to a record of [all_vehicles],
    whatever the table held before. *)
Theorem active_after_run (db : Store) (vs : list record) (x : string) :
  (exists row, vehicles (committed (main now task db vs)) !! x = Some row
               /\ is_active row = true)
  <-> x <> ""%string /\ x ∈ vin <$> vs.
Proof.
  split.
  - intros (row & Hrow & Hact).
    exact (main_active_only_present now task db vs x row Hrow Hact).
  - intros [Hne Hx]. by apply main_keeps_present.
Qed.

(** X3.  The counters of a run account for the table and the snapshot:
    the table grows by exactly [vehicles_new] rows, every record with a
    VIN is counted once as new or as updated, [vehicles_found] is the
    length of the snapshot, and no vehicle row is ever deleted. *)
Theorem run_table_growth (db : Store) (vs : list record) :
  size (vehicles (committed (main now task db vs)))
  = (size (vehicles db) + run_new (main now task db vs))%nat
  /\ (run_new (main now task db vs) + run_updated (main now task db vs)
      = length (List.filter (fun v => negb (String.eqb (vin v) "")) vs))%nat
  /\ run_found (main now task db vs) = length vs
  /\ dom (vehicles db) ⊆ dom (vehicles (committed (main now task db vs))).
Proof.
  rewrite main_unfold. cbv zeta.
  cbn [committed commit vehicles run_new run_updated run_found].
  set (st := fold_left (upsert now task) vs (MkLoop db ∅ 0 0)).
  assert (Hsize : size (fold_left
             (fun m kv => <[fst kv := MkVehicle (attrs (snd kv)) (photos (snd kv))
                                                false None]> m)
             (List.filter (fun kv => negb (bool_decide (fst kv ∈ scraped_vins st)))
                          (active_rows (store st)))
             (vehicles (store st))) = size (vehicles (store st))).
  { apply deactivate_size. intros kv. apply gone_in_table. }
  split; [|split; [|split]].
  - rewrite map_size_fmap, Hsize.
    pose proof (loop_size_new now task vs (MkLoop db ∅ 0 0)) as H.
    simpl in H. fold st in H. lia.
  - pose proof (loop_new_updated now task vs (MkLoop db ∅ 0 0)) as H.
    simpl in H. fold st in H. lia.
  - done.
  - intros x Hx. apply elem_of_dom. rewrite lookup_fmap.
    apply elem_of_dom in Hx as [row Hrow].
    destruct (decide (x ∈ (List.filter
                (fun kv => negb (bool_decide (fst kv ∈ scraped_vins st)))
                (active_rows (store st))).*1)) as [Hin|Hout].
    + destruct (deactivate_lookup_in _ x (vehicles (store st)) Hin)
        as (r & -> & _). simpl. eauto.
    + rewrite deactivate_lookup_notin by done.
      assert (Hd : x ∈ dom (vehicles (store st))).
      { apply (loop_dom_mono now task vs (MkLoop db ∅ 0 0)). simpl.
        apply elem_of_dom. eauto. }
      apply elem_of_dom in Hd as [r ->]. simpl. eauto.
Qed.

End RunProperties.

Section AuditCounts.
Import ScrapeReal.
Variables (now : Z) (task : option string).

Lemma filter_kind_app (kind : string) (l1 l2 : list VehicleChangeLog) :
  List.filter (fun e => String.eqb (change_type e) kind) (l1 ++ l2)
  = List.filter (fun e => String.eqb (change_type e) kind) l1
    ++ List.filter (fun e => String.eqb (change_type e) kind) l2.
Proof. apply List.filter_app. Qed.

Lemma filter_kind_none (kind : string) (l : list VehicleChangeLog) :
  Forall (fun e => change_type e <> kind) l ->
  List.filter (fun e => String.eqb (change_type e) kind) l = [].
Proof.
  induction 1 as [|e l He Hl IH]; simpl; [done|].
  by destruct (String.eqb_spec (change_type e) kind).
Qed.

Lemma filter_kind_all (kind : string) (l : list VehicleChangeLog) :
  Forall (fun e => change_type e = kind) l ->
  List.filter (fun e => String.eqb (change_type e) kind) l = l.
Proof.
  induction 1 as [|e l He Hl IH]; simpl; [done|].
  rewrite He, String.eqb_refl. by rewrite IH.
Qed.

Lemma row_after_loop (db : Store) (vs : list record) (x : string) :
  ~ (x <> ""%string /\ x ∈ vin <$> vs) ->
  vehicles (store (fold_left (upsert now task) vs (MkLoop db ∅ 0 0))) !! x
  = vehicles db !! x.
Proof.
  intros Hx. destruct (decide (x = ""%string)) as [->|Hne].
  - exact (loop_lookup_empty now task vs (MkLoop db ∅ 0 0)).
  - apply (loop_lookup_other now task vs (MkLoop db ∅ 0 0)). tauto.
Qed.

(** X4.  The ["removed"] rows of a run, VIN by VIN: a run logs exactly
    one for a vehicle that was active before the run and whose VIN is
    absent from the snapshot, none for any other VIN; and the
    [vehicles_removed] counter is the number of ["removed"] rows the run
    appended. *)
Theorem run_removed_exact (db : Store) (vs : list record) (x : string) :
  count_entries "removed" x (appended db (committed (main now task db vs)))
  = match vehicles db !! x with
    | Some row =>
        if is_active row && negb (bool_decide (x <> ""%string /\ x ∈ vin <$> vs))
        then 1%nat else 0%nat
    | None => 0%nat
    end
  /\ run_removed (main now task db vs)
     = length (List.filter (fun e => String.eqb (change_type e) "removed")
                           (appended db (committed (main now task db vs)))).
Proof.
  destruct (main_appended now task db vs) as (added & _ & -> & K & _).
  set (st := fold_left (upsert now task) vs (MkLoop db ∅ 0 0)).
  set (g := List.filter (fun kv => negb (bool_decide (fst kv ∈ scraped_vins st)))
                        (active_rows (store st))).
  split.
  - rewrite count_entries_app, (count_entries_not_kind _ _ added K).
    rewrite count_removed_entries. simpl.
    destruct (decide (x ∈ g.*1)) as [Hin|Hout].
    + rewrite filter_key_once; [|apply gone_NoDup | done].
      apply gone_keys in Hin as (row & Hrow & Hact & Hs).
      assert (Hx : ~ (x <> ""%string /\ x ∈ vin <$> vs)).
      { intros H. apply Hs. unfold st. by apply scraped_of_run. }
      unfold st in Hrow. rewrite row_after_loop in Hrow by done.
      rewrite Hrow, Hact. by rewrite bool_decide_eq_false_2.
    + rewrite filter_key_absent by done. simpl.
      destruct (vehicles db !! x) as [row|] eqn:Hrow; [|done].
      destruct (is_active row) eqn:Hact; [|done].
      destruct (decide (x <> ""%string /\ x ∈ vin <$> vs)) as [Hx|Hx].
      * by rewrite bool_decide_eq_true_2.
      * exfalso. apply Hout. apply gone_keys. exists row.
        split; [unfold st; by rewrite row_after_loop|]. split; [done|].
        unfold st. by rewrite scraped_of_run.
  - rewrite main_unfold. cbv zeta. cbn [run_removed]. fold st. fold g.
    rewrite filter_kind_app, (filter_kind_none _ added K).
    rewrite filter_kind_all by apply removed_entries_kind.
    simpl. by rewrite length_map.
Qed.

Lemma upsert_count_new (st : Loop) (v : record) (x : string) :
  count_entries "new" x (change_log (store (upsert now task st v)))
  = (count_entries "new" x (change_log (store st))
     + if bool_decide (vin v = x /\ x <> ""%string) then
         match vehicles (store st) !! x with Some _ => 0 | None => 1 end
       else 0)%nat.
Proof.
  unfold upsert. destruct (String.eqb_spec (vin v) "") as [He|Hne].
  - rewrite bool_decide_eq_false_2; [lia|]. intros [<- ?]. done.
  - destruct (vehicles (store st) !! vin v) as [existing|] eqn:Hrow; simpl.
    + rewrite count_entries_app, count_entries_app.
      rewrite (count_entries_other_kind "new" "updated" x _
                 (updated_entries_kind now task _ _ _)) by done.
      assert (Hr : count_entries "new" x
                     (if is_active existing then []
                      else [MkChangeLog (vin v) now "reactivated"
                              (Some "is_active"%string) (Some "False"%string)
                              (Some "True"%string) task]) = 0%nat).
      { destruct (is_active existing); [done|].
        unfold count_entries. simpl. by rewrite andb_false_r. }
      rewrite Hr.
      destruct (decide (vin v = x /\ x <> ""%string)) as [[<- _]|Hn].
      * rewrite bool_decide_eq_true_2 by done. rewrite Hrow. lia.
      * rewrite bool_decide_eq_false_2 by done. lia.
    + rewrite count_entries_app. unfold count_entries at 2. simpl.
      destruct (String.eqb_spec (vin v) x) as [<-|Hx].
      * rewrite bool_decide_eq_true_2 by done. rewrite Hrow. simpl. lia.
      * rewrite bool_decide_eq_false_2; [simpl; lia|]. tauto.
Qed.

Lemma loop_count_new (vs : list record) (x : string) :
  forall st : Loop,
    count_entries "new" x (change_log (store (fold_left (upsert now task) vs st)))
    = (count_entries "new" x (change_log (store st))
       + match vehicles (store st) !! x with
         | Some _ => 0
         | None => if bool_decide (x <> ""%string /\ x ∈ vin <$> vs) then 1 else 0
         end)%nat.
Proof.
  induction vs as [|v vs IH]; intros st; cbn [fold_left].
  - rewrite bool_decide_eq_false_2.
    + destruct (vehicles (store st) !! x); lia.
    + intros [_ H]. by apply elem_of_nil in H.
  - rewrite IH, upsert_count_new.
    destruct (decide (vin v = x /\ x <> ""%string)) as [[Hv Hne]|Hn].
    + rewrite bool_decide_eq_true_2 by done. subst x.
      destruct (upsert_lookup_same now task st v Hne) as (row' & -> & _).
      destruct (vehicles (store st) !! vin v); [lia|].
      rewrite bool_decide_eq_true_2; [lia|]. split; [done|]. rewrite fmap_cons. by left.
    + rewrite bool_decide_eq_false_2 by done.
      assert (Hsame : vehicles (store (upsert now task st v)) !! x
                      = vehicles (store st) !! x).
      { destruct (decide (vin v = x)) as [<-|Hne'].
        - unfold upsert. destruct (String.eqb_spec (vin v) ""); [done|]. tauto.
        - by apply upsert_lookup_other. }
      rewrite Hsame. destruct (vehicles (store st) !! x); [lia|].
      destruct (decide (x <> ""%string /\ x ∈ vin <$> vs)) as [[H1 H2]|H].
      * rewrite !bool_decide_eq_true_2; [lia | | done].
        split; [done|]. rewrite fmap_cons. by right.
      * rewrite (bool_decide_eq_false_2 _ H). rewrite bool_decide_eq_false_2; [lia|].
        intros [H1 H2]. rewrite fmap_cons in H2. apply elem_of_cons in H2 as [->|H2].
        -- apply Hn. done.
        -- apply H. done.
Qed.

(** X5.  The ["new"] rows of a run, VIN by VIN: exactly one for a
    non-empty VIN of the snapshot that had no row in the table before the
    run, however often the snapshot repeats it, and none for any other
    VIN. *)
Theorem run_new_exact (db : Store) (vs : list record) (x : string) :
  count_entries "new" x (appended db (committed (main now task db vs)))
  = match vehicles db !! x with
    | Some _ => 0%nat
    | None => if bool_decide (x <> ""%string /\ x ∈ vin <$> vs) then 1%nat else 0%nat
    end.
Proof.
  destruct (main_appended now task db vs) as (added & E & -> & _ & _).
  pose proof (loop_count_new vs x (MkLoop db ∅ 0 0)) as Hc.
  cbv zeta in E. simpl in Hc. rewrite E, count_entries_app in Hc.
  rewrite count_entries_app.
  rewrite (count_entries_other_kind "new" "removed" x _ (removed_entries_kind now task _))
    by done.
  lia.
Qed.

End AuditCounts.

Section Stamps.
Import ScrapeReal.
Variables (now : Z) (task : option string).

Lemma updated_entries_stamp (key : string) (existing : Vehicle) (v : record) :
  Forall (fun e => changed_at e = now /\ cl_task_id e = task)
         (updated_entries now task key existing v).
Proof.
  unfold updated_entries. apply Forall_forall. intros e He.
  apply list_elem_of_omap in He as (field & _ & Hf).
  destruct (String.eqb _ _); [done|]. by injection Hf as <-.
Qed.

Lemma upsert_rows (st : Loop) (v : record) :
  exists add addp,
    change_log (store (upsert now task st v)) = change_log (store st) ++ add
    /\ price_history (store (upsert now task st v)) = price_history (store st) ++ addp
    /\ Forall (fun e => changed_at e = now /\ cl_task_id e = task
                        /\ cl_vin e = vin v /\ vin v <> ""%string
                        /\ change_type e ∈ ["new"; "updated"; "reactivated"]%string) add
    /\ Forall (fun p => recorded_at p = now /\ source p = "scrape"%string
                        /\ ph_vin p = vin v /\ vin v <> ""%string
                        /\ ph_price p = get v "price") addp
    /\ (length addp <= if String.eqb (vin v) "" then 0 else 1)%nat.
Proof.
  unfold upsert. destruct (String.eqb_spec (vin v) "") as [He|Hne].
  - exists [], []. rewrite !app_nil_r. simpl. repeat split; try constructor.
  - destruct (vehicles (store st) !! vin v) as [existing|] eqn:Hlook; simpl.
    + eexists _, _. split; [reflexivity|]. split; [reflexivity|].
      split; [|split].
      * apply Forall_app. split.
        -- pose proof (updated_entries_stamp (vin v) existing v) as H1.
           pose proof (updated_entries_shape now task (vin v) existing v) as H2.
           apply Forall_forall. intros e He.
           rewrite Forall_forall in H1, H2.
           destruct (H1 e He) as [? ?]. destruct (H2 e He) as [? Hk].
           repeat split; try done. rewrite Hk, !elem_of_cons. tauto.
        -- destruct (is_active existing); [constructor|].
           constructor; [|constructor]. simpl. repeat split; try done. rewrite !elem_of_cons. tauto.
      * destruct (String.eqb _ _); constructor; [|constructor]. by simpl.
      * destruct (String.eqb _ _); simpl; lia.
    + eexists _, _. split; [reflexivity|]. split; [reflexivity|].
      split; [|split].
      * constructor; [|constructor]. simpl. repeat split; try done. rewrite !elem_of_cons. tauto.
      * destruct (get v "price") eqn:Hp; constructor; try constructor; by simpl.
      * destruct (get v "price"); simpl; lia.
Qed.

Lemma loop_rows (vs : list record) :
  forall st : Loop,
  exists add addp,
    change_log (store (fold_left (upsert now task) vs st)) = change_log (store st) ++ add
    /\ price_history (store (fold_left (upsert now task) vs st))
       = price_history (store st) ++ addp
    /\ Forall (fun e => changed_at e = now /\ cl_task_id e = task
                        /\ (cl_vin e <> ""%string /\ cl_vin e ∈ vin <$> vs)
                        /\ change_type e ∈ ["new"; "updated"; "reactivated"]%string) add
    /\ Forall (fun p => recorded_at p = now /\ source p = "scrape"%string
                        /\ ph_vin p <> ""%string
                        /\ exists v, v ∈ vs /\ vin v = ph_vin p
                                     /\ ph_price p = get v "price") addp
    /\ (length addp
        <= length (List.filter (fun v => negb (String.eqb (vin v) "")) vs))%nat.
Proof.
  induction vs as [|v vs IH]; intros st; cbn [fold_left].
  - exists [], []. rewrite !app_nil_r. simpl. repeat split; constructor.
  - destruct (upsert_rows st v) as (a1 & p1 & E1 & F1 & A1 & P1 & L1).
    destruct (IH (upsert now task st v)) as (a2 & p2 & E2 & F2 & A2 & P2 & L2).
    exists (a1 ++ a2), (p1 ++ p2). rewrite E2, F2, E1, F1, <- !app_assoc.
    split; [done|]. split; [done|]. split; [|split].
    + apply Forall_app. split.
      * eapply Forall_impl; [exact A1|]. intros e (? & ? & Hv & Hne & ?).
        repeat split; try done; rewrite Hv; [done|]. rewrite fmap_cons. by left.
      * eapply Forall_impl; [exact A2|]. intros e (? & ? & [Hne Hv] & ?).
        repeat split; try done. rewrite fmap_cons. by right.
    + apply Forall_app. split.
      * eapply Forall_impl; [exact P1|]. intros p (? & ? & Hv & Hne & ?).
        repeat split; try done; [by rewrite Hv|]. exists v. split; [by left|done].
      * eapply Forall_impl; [exact P2|]. intros p (? & ? & Hne & w & Hw & ?).
        repeat split; try done. exists w. split; [by right|done].
    + rewrite length_app. simpl. destruct (String.eqb (vin v) ""); simpl; lia.
Qed.

(** X6.  Every change-log row a run appends carries the run's timestamp
    and task id.  A ["new"], ["updated"] or ["reactivated"] row names a
    VIN of the snapshot; a ["removed"] row names a VIN the snapshot does
    not hold; there is no other kind of row. *)
Theorem run_rows_stamped (db : Store) (vs : list record) :
  Forall (fun e =>
            changed_at e = now /\ cl_task_id e = task
            /\ ((change_type e ∈ ["new"; "updated"; "reactivated"]%string
                 /\ cl_vin e <> ""%string /\ cl_vin e ∈ vin <$> vs)
                \/ (change_type e = "removed"%string
                    /\ ~ (cl_vin e <> ""%string /\ cl_vin e ∈ vin <$> vs))))
         (appended db (committed (main now task db vs))).
Proof.
  destruct (loop_rows vs (MkLoop db ∅ 0 0)) as (add & addp & E & _ & A & _).
  simpl in E.
  assert (Happ : appended db (committed (main now task db vs))
                 = add ++ map (fun kv => MkChangeLog (fst kv) now "removed"
                                   (Some "is_active"%string) (Some "True"%string)
                                   (Some "False"%string) task)
                              (List.filter
                                 (fun kv => negb (bool_decide
                                    (fst kv ∈ scraped_vins
                                       (fold_left (upsert now task) vs (MkLoop db ∅ 0 0)))))
                                 (active_rows
                                    (store (fold_left (upsert now task) vs
                                                      (MkLoop db ∅ 0 0)))))).
  { apply appended_app. rewrite main_unfold. simpl. by rewrite E, <- app_assoc. }
  rewrite Happ. apply Forall_app. split.
  - eapply Forall_impl; [exact A|]. intros e (? & ? & [? ?] & ?).
    split; [done|]. split; [done|]. left. done.
  - apply Forall_forall. intros e He. apply list_elem_of_fmap in He as (kv & -> & Hkv).
    simpl. split; [done|]. split; [done|]. right. split; [done|].
    apply list_elem_of_In, filter_In in Hkv as [_ Hs].
    apply negb_true_iff, bool_decide_eq_false in Hs.
    by rewrite scraped_of_run in Hs.
Qed.

(** X7.  Every price-history row a run appends is stamped with the
    run's timestamp and the source ["scrape"], names a non-empty VIN of
    the snapshot and carries the price of a snapshot record with that
    VIN; a run appends at most one such row per record with a VIN. *)
Theorem run_price_rows (db : Store) (vs : list record) :
  Forall (fun p => recorded_at p = now /\ source p = "scrape"%string
                   /\ ph_vin p <> ""%string
                   /\ exists v, v ∈ vs /\ vin v = ph_vin p
                                /\ ph_price p = get v "price")
         (appended_prices db (committed (main now task db vs)))
  /\ (length (appended_prices db (committed (main now task db vs)))
      <= length (List.filter (fun v => negb (String.eqb (vin v) "")) vs))%nat.
Proof.
  destruct (loop_rows vs (MkLoop db ∅ 0 0)) as (add & addp & _ & F & _ & P & L).
  simpl in F.
  assert (Happ : appended_prices db (committed (main now task db vs)) = addp).
  { unfold appended_prices. rewrite main_unfold. simpl. rewrite F.
    apply drop_app_length. }
  rewrite Happ. by split.
Qed.

End Stamps.

Section SecondRunWitnesses.
Import ScrapeReal Scenario.
Local Open Scope string_scope.

(** The priced Accord, run twice: the second run logs no removal. *)
Lemma second_run_only_updates_witness :
  "removed" <> "updated"
  /\ (let first := main 100 (Some "scrape-1") empty_store [accord] in
      let second := main 200 (Some "scrape-2") (committed first) [accord] in
      count_entries "removed" "1HGCM82633A004352"
                    (appended (committed first) (committed second)) = 0%nat).
Proof.
  assert (H0 : "removed" <> "updated") by discriminate.
  split; [exact H0|].
  exact (second_run_only_updates 100 200 (Some "scrape-1") (Some "scrape-2")
           empty_store [accord] "removed" "1HGCM82633A004352" H0).
Defined.

(** The unpriced Accord, run twice: the second run is silent. *)
Lemma second_run_silent_witness :
  consistent [accord_unpriced]
  /\ (forall v, v ∈ [accord_unpriced] -> stable v = true)
  /\ (let first := main 100 (Some "scrape-1") empty_store [accord_unpriced] in
      let second := main 200 (Some "scrape-2") (committed first) [accord_unpriced] in
      appended (committed first) (committed second) = []
      /\ appended_prices (committed first) (committed second) = []).
Proof.
  assert (H1 : consistent [accord_unpriced]).
  { intros v1 v2 Hv1 Hv2 _ field _.
    apply list_elem_of_singleton in Hv1, Hv2. by subst. }
  assert (H2 : forall v, v ∈ [accord_unpriced] -> stable v = true).
  { intros v Hv. apply list_elem_of_singleton in Hv. subst v. vm_compute. reflexivity. }
  split; [exact H1|]. split; [exact H2|].
  exact (second_run_silent_when_stable 100 200 (Some "scrape-1") (Some "scrape-2")
           empty_store [accord_unpriced] H1 H2).
Defined.

End SecondRunWitnesses.

Section CeleryRemoval.
Import ScrapeReal.
Variables (now later : Z).

Lemma tasks_sync_scraped (st : Tasks.Loop) (v : record) (x : string) :
  x ∈ Tasks.scraped_vins (Tasks.sync now st v)
  <-> x ∈ Tasks.scraped_vins st \/ (x <> ""%string /\ x = vin v).
Proof.
  unfold Tasks.sync. destruct (String.eqb_spec (vin v) "") as [He|Hne].
  - split; [tauto|]. intros [?|[H1 H2]]; [done|]. congruence.
  - assert (Hs : x ∈ ({[ vin v ]} ∪ Tasks.scraped_vins st : gset string)
                 <-> x ∈ Tasks.scraped_vins st \/ (x <> ""%string /\ x = vin v)).
    { rewrite elem_of_union, elem_of_singleton. split.
      - intros [->|?]; [right|left]; done.
      - intros [?|[_ ->]]; [right|left]; done. }
    destruct (Tasks.table st !! vin v) as [existing|]; [|exact Hs].
    destruct (Tasks.sync_field v _ "detail_url") as [row changed].
    destruct changed; exact Hs.
Qed.

Lemma tasks_loop_scraped (vs : list record) (x : string) :
  forall st : Tasks.Loop,
    x ∈ Tasks.scraped_vins (fold_left (Tasks.sync now) vs st)
    <-> x ∈ Tasks.scraped_vins st \/ (x <> ""%string /\ x ∈ vin <$> vs).
Proof.
  induction vs as [|v vs IH]; intros st; cbn [fold_left].
  - split; [tauto|]. intros [?|[_ H]]; [done|]. by apply elem_of_nil in H.
  - rewrite IH, tasks_sync_scraped, fmap_cons, elem_of_cons. tauto.
Qed.

Lemma tasks_sync_lookup_other (st : Tasks.Loop) (v : record) (x : string) :
  ~ (x <> ""%string /\ x = vin v) ->
  Tasks.table (Tasks.sync now st v) !! x = Tasks.table st !! x.
Proof.
  intros Hx. unfold Tasks.sync.
  destruct (String.eqb_spec (vin v) "") as [He|Hne]; [done|].
  assert (Hv : vin v <> x) by (intros <-; tauto).
  destruct (Tasks.table st !! vin v) as [existing|]; simpl.
  - destruct (Tasks.sync_field v _ "detail_url") as [row changed].
    destruct changed; simpl; by rewrite lookup_insert_ne.
  - by rewrite lookup_insert_ne.
Qed.

Lemma tasks_loop_lookup_other (vs : list record) (x : string) :
  forall st : Tasks.Loop,
    ~ (x <> ""%string /\ x ∈ vin <$> vs) ->
    Tasks.table (fold_left (Tasks.sync now) vs st) !! x = Tasks.table st !! x.
Proof.
  induction vs as [|v vs IH]; intros st Hx; cbn [fold_left]; [done|].
  rewrite fmap_cons, elem_of_cons in Hx.
  rewrite IH by tauto. apply tasks_sync_lookup_other. tauto.
Qed.

Lemma tasks_loop_no_vin (vs : list record) :
  Forall (fun v => vin v = ""%string) vs ->
  forall st : Tasks.Loop, fold_left (Tasks.sync now) vs st = st.
Proof.
  induction 1 as [|v vs Hv _ IH]; intros st; cbn [fold_left]; [done|].
  rewrite <- (IH st) at 2. f_equal. unfold Tasks.sync. by rewrite Hv.
Qed.

Lemma loop_no_vin (task : option string) (vs : list record) :
  Forall (fun v => vin v = ""%string) vs ->
  forall st : Loop, fold_left (upsert now task) vs st = st.
Proof.
  induction 1 as [|v vs Hv _ IH]; intros st; cbn [fold_left]; [done|].
  rewrite <- (IH st) at 2. f_equal. unfold upsert. by rewrite Hv.
Qed.

Lemma filter_all (A : Type) (f : A -> bool) (l : list A) :
  (forall a, f a = true) -> List.filter f l = l.
Proof.
  intros H. induction l as [|a l IH]; simpl; [done|]. by rewrite H, IH.
Qed.

(** X10.  When no record with a VIN reaches the sync, on the two
    paths.  The Celery sync leaves the vehicle table as it was and counts
    nothing, its removal loop being guarded by [if scraped_vins:].
    [scrape_real.main] returns before it writes anything when the listing
    itself is empty; but when the listing was not empty and the detail
    pages gave no record with a VIN, its step 3 runs, and the removal
    loop, which has no such guard, leaves every vehicle inactive and
    counts every vehicle that was active as removed. *)
Theorem crawl_without_vins (task : option string) (db : Store) (vs : list record)
    (total : nat) :
  Forall (fun v => vin v = ""%string) vs ->
  total <> 0%nat ->
  Tasks.run_scrape_db now later (vehicles db) vs = Tasks.MkSync (vehicles db) 0 0 0
  /\ main_from_listings 0 now task db [] = None
  /\ exists r,
       main_from_listings total now task db vs = Some r
       /\ (forall x row, vehicles (committed r) !! x = Some row ->
                         is_active row = false)
       /\ run_removed r = length (active_rows db)
       /\ change_log (committed r)
          = change_log db
            ++ map (fun kv => MkChangeLog (fst kv) now "removed"
                                (Some "is_active"%string) (Some "True"%string)
                                (Some "False"%string) task)
                   (active_rows db).
Proof.
  intros Hall Htotal. split; [|split].
  - unfold Tasks.run_scrape_db, Tasks.run_scrape_sync.
    rewrite tasks_loop_no_vin by done. unfold Tasks.remove_missing. simpl.
    by rewrite bool_decide_eq_true_2.
  - reflexivity.
  - exists (main now task db vs). split; [|split; [|split]].
    + unfold main_from_listings. by destruct total.
    + intros x row Hrow.
      destruct (is_active row) eqn:Hact; [|done]. exfalso.
      destruct (main_active_only_present now task db vs x row Hrow Hact) as [Hne Hx].
      apply list_elem_of_fmap in Hx as (v & -> & Hv).
      rewrite Forall_forall in Hall. by apply Hne, Hall.
    + rewrite main_unfold. cbv zeta. cbn [run_removed].
      rewrite loop_no_vin by done. simpl.
      rewrite filter_all; [lia|]. intros kv.
      apply negb_true_iff, bool_decide_eq_false, not_elem_of_empty.
    + rewrite main_unfold. cbv zeta. cbn [committed commit change_log].
      rewrite loop_no_vin by done. simpl.
      rewrite filter_all; [done|]. intros kv.
      apply negb_true_iff, bool_decide_eq_false, not_elem_of_empty.
Qed.


Lemma mark_removed_fold (scraped : gset string) (l : list (string * Vehicle)) :
  forall (m : gmap string Vehicle) (n : nat),
    fold_left (Tasks.mark_removed later scraped) l (m, n)
    = (fold_left
         (fun m kv => <[fst kv := MkVehicle (attrs (snd kv)) (photos (snd kv))
                                            false (Some later)]> m)
         (List.filter (fun kv => negb (bool_decide (fst kv ∈ scraped))) l) m,
       (n + length (List.filter (fun kv => negb (bool_decide (fst kv ∈ scraped))) l))%nat).
Proof.
  induction l as [|[k veh] l IH]; intros m n; simpl.
  - by rewrite Nat.add_0_r.
  - destruct (bool_decide (k ∈ scraped)); simpl.
    + apply IH.
    + rewrite IH. simpl. f_equal. lia.
Qed.

Lemma stamp_lookup_notin (g : list (string * Vehicle)) (x : string) :
  forall m : gmap string Vehicle,
    x ∉ g.*1 ->
    fold_left (fun m kv => <[fst kv := MkVehicle (attrs (snd kv)) (photos (snd kv))
                                                 false (Some later)]> m) g m !! x
    = m !! x.
Proof.
  induction g as [|[k veh] g IH]; intros m Hx; simpl; [done|].
  rewrite fmap_cons, not_elem_of_cons in Hx. destruct Hx as [Hk Hg].
  rewrite IH by done. simpl in Hk. by rewrite lookup_insert_ne.
Qed.

Lemma stamp_lookup_in (g : list (string * Vehicle)) (x : string) (veh : Vehicle) :
  forall m : gmap string Vehicle,
    NoDup g.*1 -> (x, veh) ∈ g ->
    fold_left (fun m kv => <[fst kv := MkVehicle (attrs (snd kv)) (photos (snd kv))
                                                 false (Some later)]> m) g m !! x
    = Some (MkVehicle (attrs veh) (photos veh) false (Some later)).
Proof.
  induction g as [|[k r] g IH]; intros m Hnd Hx.
  - by apply elem_of_nil in Hx.
  - cbn [fold_left]. rewrite fmap_cons in Hnd. apply NoDup_cons in Hnd as [Hk Hnd].
    apply elem_of_cons in Hx as [Heq|Hx].
    + injection Heq as <- <-. rewrite stamp_lookup_notin by done. simpl.
      by rewrite lookup_insert_eq.
    + by apply IH.
Qed.

Lemma filter_twice (A : Type) (f g : A -> bool) (l : list A) :
  List.filter f (List.filter g l) = List.filter (fun a => g a && f a) l.
Proof.
  induction l as [|a l IH]; simpl; [done|].
  destruct (g a); simpl; [|done]. destruct (f a); by rewrite IH.
Qed.

Lemma filter_bool_length (f : string * Vehicle -> bool) (m : gmap string Vehicle) :
  length (List.filter f (map_to_list m))
  = size (filter (fun kv => f kv = true) m).
Proof.
  rewrite map_filter_alt.
  assert (E : forall l : list (string * Vehicle),
             List.filter f l = filter (fun kv => f kv = true) l).
  { induction l as [|a l IH]; [done|].
    rewrite filter_cons. cbn [List.filter]. destruct (f a) eqn:Hf.
    - rewrite decide_True by done. by rewrite IH.
    - rewrite decide_False by done. done. }
  rewrite map_size_list_to_map.
  - by rewrite E.
  - rewrite <- E. apply NoDup_fst_filter, NoDup_fst_map_to_list.
Qed.

(** X11.  The removal loop of the Celery sync, once the crawl brought at
    least one VIN: a vehicle whose VIN the crawl did not bring is left
    inactive when it was active and is not touched otherwise, and
    [removed_count] is the number of vehicles that were active before
    the sync and are absent from the crawl. *)
Theorem tasks_removal_exact (tbl : gmap string Vehicle) (vs : list record)
    (x : string) :
  (exists v, v ∈ vs /\ vin v <> ""%string) ->
  ~ (x <> ""%string /\ x ∈ vin <$> vs) ->
  Tasks.synced (Tasks.run_scrape_db now later tbl vs) !! x
  = (fun row => if is_active row
                then MkVehicle (attrs row) (photos row) false (Some later)
                else row) <$> tbl !! x
  /\ Tasks.sync_removed (Tasks.run_scrape_db now later tbl vs)
     = size (filter (fun kv => is_active (snd kv)
                               && negb (bool_decide (fst kv <> ""%string
                                                     /\ fst kv ∈ vin <$> vs)) = true)
                    tbl).
Proof.
  intros (v0 & Hv0 & Hne0) Hx.
  unfold Tasks.run_scrape_db, Tasks.remove_missing, Tasks.run_scrape_sync.
  set (st := fold_left (Tasks.sync now) vs (Tasks.MkLoop tbl ∅ 0 0)).
  assert (Hs : forall y, y ∈ Tasks.scraped_vins st
                         <-> y <> ""%string /\ y ∈ vin <$> vs).
  { intros y. unfold st. rewrite tasks_loop_scraped. simpl.
    rewrite elem_of_empty. tauto. }
  rewrite bool_decide_eq_false_2.
  2:{ intros He. apply (not_elem_of_empty (C:=gset string) (vin v0)).
      rewrite <- He. apply Hs. split; [done|]. apply list_elem_of_fmap. eauto. }
  rewrite mark_removed_fold. cbn [Tasks.synced Tasks.sync_removed].
  set (g := List.filter (fun kv => negb (bool_decide (fst kv ∈ Tasks.scraped_vins st)))
                        (Tasks.active_vehicles (Tasks.table st))).
  assert (Hnd : NoDup g.*1).
  { unfold g, Tasks.active_vehicles. do 2 apply NoDup_fst_filter.
    apply NoDup_fst_map_to_list. }
  assert (Hg : forall y veh, (y, veh) ∈ g
                <-> Tasks.table st !! y = Some veh /\ is_active veh = true
                    /\ y ∉ Tasks.scraped_vins st).
  { intros y veh. unfold g, Tasks.active_vehicles.
    rewrite list_elem_of_In, filter_In, filter_In, <- list_elem_of_In,
      elem_of_map_to_list, negb_true_iff, bool_decide_eq_false. simpl. tauto. }
  assert (Hsame : Tasks.table st !! x = tbl !! x).
  { unfold st. by rewrite tasks_loop_lookup_other. }
  split.
  - destruct (tbl !! x) as [row|] eqn:Hrow; simpl.
    + destruct (is_active row) eqn:Hact.
      * apply stamp_lookup_in; [done|]. apply Hg. by rewrite Hs.
      * rewrite stamp_lookup_notin; [done|].
        intros Hin. apply list_elem_of_fmap in Hin as ([y veh] & Hy & Hin).
        simpl in Hy. subst y. apply Hg in Hin as (H1 & H2 & _). congruence.
    + rewrite stamp_lookup_notin; [done|].
      intros Hin. apply list_elem_of_fmap in Hin as ([y veh] & Hy & Hin).
      simpl in Hy. subst y. apply Hg in Hin as (H1 & _). congruence.
  - simpl. unfold g, Tasks.active_vehicles. rewrite filter_twice.
    rewrite filter_bool_length. f_equal.
    apply map_filter_strong_ext_1. intros y veh. simpl.
    rewrite !andb_true_iff, !negb_true_iff, !bool_decide_eq_false, Hs.
    split.
    + intros [[Hn Ha] Hl]. split; [done|]. rewrite <- Hl. symmetry.
      unfold st. by rewrite tasks_loop_lookup_other.
    + intros [[Ha Hn] Hl]. split; [done|]. rewrite <- Hl.
      unfold st. by rewrite tasks_loop_lookup_other.
Qed.

Lemma tasks_sync_same_row (st : Tasks.Loop) (v : record) (existing : Vehicle) :
  vin v <> ""%string ->
  Tasks.table st !! vin v = Some existing ->
  (forall field, get v field = PyNone
                 \/ Tasks.py_eqb (get v field) (getattr existing field) = true) ->
  photos_key v = None \/ photos_key v = Some (photos existing) ->
  Tasks.table (Tasks.sync now st v) !! vin v = Some existing.
Proof.
  intros Hne Hrow Hsame Hphotos. unfold Tasks.sync.
  destruct (String.eqb_spec (vin v) ""); [done|]. rewrite Hrow.
  rewrite sync_fields_same by done.
  assert (Hp : Tasks.sync_photos v (existing, false) = (existing, false)).
  { unfold Tasks.sync_photos. destruct Hphotos as [->| ->]; [done|].
    unfold Tasks.list_eqb. by rewrite bool_decide_eq_true_2. }
  rewrite Hp, sync_field_same by done. simpl. by rewrite lookup_insert_eq.
Qed.

(** X12.  The Celery sync does not touch a vehicle that is listed again
    with values equal to the stored ones: the row stays as it was, so a
    vehicle marked inactive by an earlier sync stays inactive although
    the crawl lists it. *)
Theorem tasks_unchanged_row_untouched (tbl : gmap string Vehicle) (vs : list record)
    (x : string) (existing : Vehicle) :
  x <> ""%string -> x ∈ vin <$> vs -> tbl !! x = Some existing ->
  (forall v, v ∈ vs -> vin v = x ->
     (forall field, get v field = PyNone
                    \/ Tasks.py_eqb (get v field) (getattr existing field) = true)
     /\ (photos_key v = None \/ photos_key v = Some (photos existing))) ->
  Tasks.synced (Tasks.run_scrape_db now later tbl vs) !! x = Some existing.
Proof.
  intros Hne Hx Hrow Hsame.
  unfold Tasks.run_scrape_db, Tasks.remove_missing, Tasks.run_scrape_sync.
  set (st := fold_left (Tasks.sync now) vs (Tasks.MkLoop tbl ∅ 0 0)).
  assert (Hst : Tasks.table st !! x = Some existing).
  { unfold st. clear Hx st.
    assert (G : forall st0 : Tasks.Loop, Tasks.table st0 !! x = Some existing ->
                  Tasks.table (fold_left (Tasks.sync now) vs st0) !! x = Some existing).
    { induction vs as [|v vs IH]; intros st0 H0; cbn [fold_left]; [done|].
      apply IH.
      - intros w Hw. apply Hsame. by right.
      - destruct (decide (vin v = x)) as [E|E].
        + destruct (Hsame v) as [H1 H2]; [by left | done |]. subst x.
          by apply tasks_sync_same_row.
        + rewrite tasks_sync_lookup_other; [done|]. intros [_ ->]. done. }
    by apply G. }
  assert (Hin : x ∈ Tasks.scraped_vins st).
  { unfold st. rewrite tasks_loop_scraped. by right. }
  destruct (bool_decide (Tasks.scraped_vins st = ∅)); [done|].
  rewrite mark_removed_fold. cbn [Tasks.synced].
  rewrite stamp_lookup_notin; [done|].
  intros Hg. apply list_elem_of_fmap in Hg as ([y veh] & Hy & Hg).
  simpl in Hy. subst y. apply list_elem_of_In, filter_In in Hg as [_ Hn].
  simpl in Hn. apply negb_true_iff, bool_decide_eq_false in Hn. done.
Qed.

End CeleryRemoval.

Section CeleryWitnesses.
Import ScrapeReal Scenario.
Local Open Scope string_scope.

Lemma py_eqb_refl (a : pyval) : Tasks.py_eqb a a = true.
Proof.
  destruct a as [|s|z|f|c]; simpl;
    [done | apply String.eqb_refl | apply Z.eqb_refl | apply Z.eqb_refl
     | apply Z.eqb_refl].
Qed.

(** Three listings whose detail pages all failed, on a table holding the
    active Accord. *)
Lemma crawl_without_vins_witness :
  Forall (fun v => vin v = "") []
  /\ 3%nat <> 0%nat
  /\ Tasks.run_scrape_db 100 101 (accord_table true) []
     = Tasks.MkSync (accord_table true) 0 0 0
  /\ main_from_listings 0 100 None (MkStore (accord_table true) [] []) [] = None
  /\ exists r,
       main_from_listings 3 100 None (MkStore (accord_table true) [] []) [] = Some r
       /\ (forall x row, vehicles (committed r) !! x = Some row ->
                         is_active row = false)
       /\ run_removed r = length (active_rows (MkStore (accord_table true) [] []))
       /\ change_log (committed r)
          = (change_log (MkStore (accord_table true) [] [])
             ++ map (fun kv => MkChangeLog (fst kv) 100 "removed"
                                 (Some "is_active") (Some "True")
                                 (Some "False") None)
                    (active_rows (MkStore (accord_table true) [] [])))%list.
Proof.
  assert (H0 : Forall (fun v : record => vin v = "") []) by constructor.
  assert (H1 : 3%nat <> 0%nat) by discriminate.
  split; [exact H0|]. split; [exact H1|].
  exact (crawl_without_vins 100 101 None (MkStore (accord_table true) [] []) [] 3
           H0 H1).
Defined.

(** The Civic is listed, the active Accord is not. *)
Lemma tasks_removal_witness :
  (exists v, v ∈ [civic] /\ vin v <> "")
  /\ ~ ("1HGCM82633A004352" <> "" /\ ("1HGCM82633A004352" ∈ vin <$> [civic]))
  /\ Tasks.synced (Tasks.run_scrape_db 100 101 (accord_table true) [civic])
       !! "1HGCM82633A004352"
     = (fun row => if is_active row
                   then MkVehicle (attrs row) (photos row) false (Some 101%Z)
                   else row) <$> accord_table true !! "1HGCM82633A004352"
  /\ Tasks.sync_removed (Tasks.run_scrape_db 100 101 (accord_table true) [civic])
     = size (filter (fun kv => is_active (snd kv)
                               && negb (bool_decide (fst kv <> ""
                                                     /\ fst kv ∈ vin <$> [civic])) = true)
                    (accord_table true)).
Proof.
  assert (H0 : exists v, v ∈ [civic] /\ vin v <> "").
  { exists civic. split; [apply list_elem_of_here | discriminate]. }
  assert (H1 : ~ ("1HGCM82633A004352" <> ""
                  /\ ("1HGCM82633A004352" ∈ vin <$> [civic]))).
  { intros [_ H]. apply list_elem_of_singleton in H. discriminate. }
  split; [exact H0|]. split; [exact H1|].
  exact (tasks_removal_exact 100 101 (accord_table true) [civic]
           "1HGCM82633A004352" H0 H1).
Defined.

(** The Accord was marked removed and is listed again with the same
    values. *)
Lemma tasks_unchanged_row_witness :
  "1HGCM82633A004352" <> ""
  /\ ("1HGCM82633A004352" ∈ vin <$> [accord_unpriced])
  /\ accord_table false !! "1HGCM82633A004352" = Some (accord_row false)
  /\ Tasks.synced (Tasks.run_scrape_db 100 101 (accord_table false) [accord_unpriced])
       !! "1HGCM82633A004352" = Some (accord_row false).
Proof.
  assert (H0 : "1HGCM82633A004352" <> "") by discriminate.
  assert (H1 : "1HGCM82633A004352" ∈ vin <$> [accord_unpriced])
    by apply list_elem_of_here.
  assert (H2 : accord_table false !! "1HGCM82633A004352" = Some (accord_row false))
    by apply lookup_singleton_eq.
  assert (H3 : forall v, v ∈ [accord_unpriced] -> vin v = "1HGCM82633A004352" ->
            (forall field, get v field = PyNone
               \/ Tasks.py_eqb (get v field) (getattr (accord_row false) field) = true)
            /\ (photos_key v = None \/ photos_key v = Some (photos (accord_row false)))).
  { intros v Hv _. apply list_elem_of_singleton in Hv. subst v.
    split; [|by right]. intros field. right. apply py_eqb_refl. }
  split; [exact H0|]. split; [exact H1|]. split; [exact H2|].
  exact (tasks_unchanged_row_untouched 100 101 (accord_table false) [accord_unpriced]
           "1HGCM82633A004352" (accord_row false) H0 H1 H2 H3).
Defined.

End CeleryWitnesses.

Section OneRunningRow.
Import Scrape.

Lemma latest_running_from_sound (rows : list ScrapeLog) :
  forall (i0 : nat) (best : option (nat * ScrapeLog)),
    match latest_running_from i0 rows best with
    | Some (i, row) =>
        best = Some (i, row)
        \/ exists k, i = (i0 + k)%nat /\ rows !! k = Some row /\ status row = RUNNING
    | None => best = None /\ Forall (fun r => status r <> RUNNING) rows
    end.
Proof.
  induction rows as [|r rows IH]; intros i0 best; simpl.
  - destruct best as [[i row]|]; [by left | by split].
  - set (best' := if status_eqb (status r) RUNNING then _ else best).
    specialize (IH (S i0) best').
    destruct (latest_running_from (S i0) rows best') as [[i row]|].
    + destruct IH as [Hb|(k & -> & Hk & Hr)].
      * subst best'. destruct (status_eqb (status r) RUNNING) eqn:Er; [|by left].
        apply status_eqb_running in Er.
        destruct best as [[ib b]|].
        -- destruct (started_at b <? started_at r).
           ++ injection Hb as <- <-. right. exists 0%nat.
              split; [lia|]. by split.
           ++ by left.
        -- injection Hb as <- <-. right. exists 0%nat. split; [lia|]. by split.
      * right. exists (S k). split; [lia|]. by split.
    + destruct IH as [Hb Hall]. subst best'.
      destruct (status_eqb (status r) RUNNING) eqn:Er.
      * destruct best as [[ib b]|]; [|done].
        by destruct (started_at b <? started_at r).
      * split; [done|]. constructor; [|done].
        intros Hr. apply status_eqb_running in Hr. congruence.
Qed.

Lemma latest_running_sound (rows : list ScrapeLog) :
  match latest_running rows with
  | Some (i, row) => rows !! i = Some row /\ status row = RUNNING
  | None => Forall (fun r => status r <> RUNNING) rows
  end.
Proof.
  unfold latest_running.
  pose proof (latest_running_from_sound rows 0 None) as H.
  destruct (latest_running_from 0 rows None) as [[i row]|].
  - destruct H as [?|(k & -> & ? & ?)]; [done|]. by split.
  - by destruct H.
Qed.

Lemma one_running_started_last (rows : list ScrapeLog) (i : nat) (row : ScrapeLog) :
  one_running_at_most rows -> rows !! i = Some row -> status row = RUNNING ->
  started_last rows i row.
Proof.
  intros Hone Hi Hr. split; [done|]. split; [done|].
  intros j r Hj Hrun Hne. destruct Hne. by apply (Hone j i r row).
Qed.

(** X14.  Single-flight where the table holds at most one running Run
    Record, which is what the guard of [trigger_scrape] relies on.  If a
    running record has a live recorded process, the endpoint answers 409
    and changes nothing.  If no running record has one and the scraper
    script is in place, a run is launched: one Run Record is added, it is
    the only running record afterwards, the scraper is started once and
    its pid is recorded under the new task. *)
Theorem single_flight_one_running_row (env : Env) (pages : Z) (app : App) :
  one_running_at_most (scrape_logs app) ->
  ((exists row, row ∈ scrape_logs app /\ status row = RUNNING
                /\ process_alive env app row = true) ->
   exists detail, trigger_scrape env pages app = (HTTPException 409 detail, app))
  /\ ((forall row, row ∈ scrape_logs app -> status row = RUNNING ->
                   process_alive env app row = false) ->
      script_exists env = true ->
      exists task message app',
        trigger_scrape env pages app = (ScrapeTriggerResponse task message, app')
        /\ length (scrape_logs app') = S (length (scrape_logs app))
        /\ scrape_logs app' !! length (scrape_logs app) = Some (new_log env task pages)
        /\ (forall j r, scrape_logs app' !! j = Some r -> status r = RUNNING ->
                        j = length (scrape_logs app))
        /\ launched app' = launched app ++ [(popen_pid env, task, pages)]
        /\ _running_pids app' !! task = Some (popen_pid env)).
Proof.
  intros Hone. split.
  - intros (row & Hin & Hrun & Halive).
    apply list_elem_of_lookup in Hin as [i Hi].
    pose proof (one_running_started_last _ i row Hone Hi Hrun) as Hlast.
    exact (proj1 (trigger_checks_latest_running env pages app i row Hlast) Halive).
  - intros Hdead Hscript.
    pose proof (latest_running_sound (scrape_logs app)) as Hsound.
    destruct (latest_running (scrape_logs app)) as [[i row]|] eqn:Hlatest.
    + destruct Hsound as [Hi Hrun].
      pose proof (one_running_started_last _ i row Hone Hi Hrun) as Hlast.
      assert (Hd : process_alive env app row = false).
      { apply Hdead; [|done]. apply list_elem_of_lookup. eauto. }
      destruct (proj2 (trigger_checks_latest_running env pages app i row Hlast)
                  Hd Hscript) as (task & message & Heq & _ & _).
      eexists task, message, _. split; [exact Heq|]. cbn [scrape_logs launched _running_pids].
      assert (Hlen : length (<[i := mark_failed row]> (scrape_logs app))
                     = length (scrape_logs app)) by apply length_insert.
      split; [rewrite length_app, Hlen; simpl; lia|].
      split.
      { rewrite lookup_app_r by lia. rewrite Hlen, Nat.sub_diag. reflexivity. }
      split; [|split; [done | by rewrite lookup_insert_eq]].
      intros j r Hj Hr.
      destruct (decide (j < length (scrape_logs app))%nat) as [Hlt|Hge].
      * exfalso. rewrite lookup_app_l in Hj by lia.
        destruct (decide (i = j)) as [<-|Hne].
        -- rewrite list_lookup_insert_eq in Hj by (apply lookup_lt_Some in Hi; lia).
           injection Hj as <-. simpl in Hr. discriminate.
        -- rewrite list_lookup_insert_ne in Hj by done.
           apply Hne. by apply (Hone i j row r).
      * apply lookup_lt_Some in Hj. rewrite length_app, Hlen in Hj. simpl in Hj. lia.
    + unfold trigger_scrape. rewrite Hlatest, Hscript. simpl.
      eexists _, _, _. split; [reflexivity|]. cbn [scrape_logs launched _running_pids].
      split; [rewrite length_app; simpl; lia|].
      split.
      { rewrite lookup_app_r by lia. by rewrite Nat.sub_diag. }
      split; [|split; [done | by rewrite lookup_insert_eq]].
      intros j r Hj Hr.
      destruct (decide (j < length (scrape_logs app))%nat) as [Hlt|Hge].
      * exfalso. rewrite lookup_app_l in Hj by lia.
        rewrite Forall_forall in Hsound. apply (Hsound r); [|done].
        apply list_elem_of_lookup. eauto.
      * apply lookup_lt_Some in Hj. rewrite length_app in Hj. simpl in Hj. lia.
Qed.

(** One running row, whose recorded process is alive in the first table
    and gone in the second. *)
Lemma single_flight_one_running_witness :
  let env := MkEnv (fun pid => pid =? 7) true "0123456789ab" 9 5 in
  let row := MkScrapeLog (Some "scrape-old"%string) 4 None RUNNING 0 0 0 0 [] "" in
  let stale := MkApp [row] {[ "scrape-old"%string := 6 ]} ∅ [] in
  let live := MkApp [row] {[ "scrape-old"%string := 7 ]} ∅ [] in
  one_running_at_most [row]
  /\ (exists r, r ∈ scrape_logs live /\ status r = RUNNING
                /\ process_alive env live r = true)
  /\ (exists detail, trigger_scrape env 1 live = (HTTPException 409 detail, live))
  /\ (status <$> scrape_logs (snd (trigger_scrape env 1 stale))) = [FAILED; RUNNING].
Proof.
  intros env row stale live.
  assert (Hone : one_running_at_most [row]).
  { intros j k r r' Hj Hk _ _.
    destruct j as [|j]; [|by destruct j].
    destruct k as [|k]; [done | by destruct k]. }
  assert (Hlive : exists r, r ∈ scrape_logs live /\ status r = RUNNING
                            /\ process_alive env live r = true).
  { exists row. split; [apply list_elem_of_here|]. split; reflexivity. }
  split; [exact Hone|]. split; [exact Hlive|]. split.
  - exact (proj1 (single_flight_one_running_row env 1 live Hone) Hlive).
  - vm_compute. reflexivity.
Defined.

End OneRunningRow.

Section DriftReport.
Import Monitor.

Lemma match_loop_rows (wmap : gmap string website_vehicle) (loc : gmap string Vehicle)
    (l : list string) :
  forall (rows : list InventoryComparisonVehicle) (n : nat),
    (forall k, k ∈ l -> is_Some (match_row wmap loc k)) ->
    exists new,
      fold_left (match_step wmap loc) l (rows, n) = (rows ++ new, (n + length l)%nat)
      /\ icv_vin <$> new = l
      /\ Forall (fun r => icv_status r = "match"%string) new.
Proof.
  induction l as [|k l IH]; intros rows n Hall; cbn [fold_left length].
  - exists []. rewrite app_nil_r, Nat.add_0_r. by repeat split.
  - destruct (Hall k) as [row Hrow]; [by left|].
    assert (Hs : match_step wmap loc (rows, n) k = (rows ++ [row], S n)).
    { unfold match_step. by rewrite Hrow. }
    rewrite Hs.
    destruct (IH (rows ++ [row]) (S n)) as (new & E & V & S).
    { intros k' Hk'. apply Hall. by right. }
    assert (Hk : icv_vin row = k /\ icv_status row = "match"%string).
    { unfold match_row in Hrow.
      destruct (wmap !! k) as [wv|]; [|done]. destruct (loc !! k) as [lv|]; [|done].
      simpl in Hrow. by injection Hrow as <-. }
    destruct Hk as [Hk1 Hk2].
    exists (row :: new). rewrite E, <- app_assoc.
    split; [cbn [app length]; f_equal; lia|].
    split; [by rewrite fmap_cons, V, Hk1|]. by constructor.
Qed.

Lemma omap_step {A B : Type} (f : A -> option B) (x : A) (l : list A) :
  omap f (x :: l) = match f x with Some y => y :: omap f l | None => omap f l end.
Proof. reflexivity. Qed.

Lemma missing_local_rows (wmap : gmap string website_vehicle) (l : list string) :
  (forall k, k ∈ l -> is_Some (wmap !! k)) ->
  icv_vin <$> omap (missing_local_row wmap) l = l
  /\ Forall (fun r => icv_status r = "missing_local"%string)
            (omap (missing_local_row wmap) l).
Proof.
  induction l as [|k l IH]; intros Hall; [by split|].
  destruct (Hall k) as [wv Hwv]; [by left|].
  destruct IH as [V S]; [intros k' Hk'; apply Hall; by right|].
  assert (E : missing_local_row wmap k
              = Some (MkICV k (website_year wv) (Some (wv_make wv)) (Some (wv_model wv))
                            None "missing_local" (Some (wv_detail_url wv)))).
  { unfold missing_local_row. by rewrite Hwv. }
  rewrite omap_step, E.
  split; [rewrite fmap_cons; cbn [icv_vin]; by rewrite V|]. by constructor.
Qed.

Lemma missing_remote_rows (loc : gmap string Vehicle) (l : list string) :
  (forall k, k ∈ l -> is_Some (loc !! k)) ->
  icv_vin <$> omap (missing_remote_row loc) l = l
  /\ Forall (fun r => icv_status r = "missing_remote"%string)
            (omap (missing_remote_row loc) l).
Proof.
  induction l as [|k l IH]; intros Hall; [by split|].
  destruct (Hall k) as [lv Hlv]; [by left|].
  destruct IH as [V S]; [intros k' Hk'; apply Hall; by right|].
  assert (E : missing_remote_row loc k
              = Some (MkICV k (as_int (getattr lv "year")) (as_str (getattr lv "make"))
                            (as_str (getattr lv "model")) (display_price lv)
                            "missing_remote" None)).
  { unfold missing_remote_row. by rewrite Hlv. }
  rewrite omap_step, E.
  split; [rewrite fmap_cons; cbn [icv_vin]; by rewrite V|]. by constructor.
Qed.

Lemma sorted_NoDup (s : gset string) : NoDup (sorted s).
Proof.
  unfold sorted. rewrite (merge_sort_Permutation str_le (elements s)).
  apply NoDup_elements.
Qed.

(** The report, part by part. *)
Lemma compare_rows (website_vehicles : list website_vehicle)
    (tbl : gmap string Vehicle) (max_pages now : Z) :
  let R : gset string := list_to_set (wv_vin <$> website_vehicles) in
  let L : gset string := dom (filter (fun kv => is_active (snd kv) = true) tbl) in
  exists both here there,
    vehicles (_compare_inventory website_vehicles tbl max_pages now)
    = both ++ here ++ there
    /\ matched (_compare_inventory website_vehicles tbl max_pages now) = length both
    /\ (icv_vin <$> both = sorted (R ∩ L)
        /\ Forall (fun r => icv_status r = "match"%string) both)
    /\ (icv_vin <$> here = sorted (R ∖ L)
        /\ Forall (fun r => icv_status r = "missing_local"%string) here)
    /\ (icv_vin <$> there = sorted (L ∖ R)
        /\ Forall (fun r => icv_status r = "missing_remote"%string) there).
Proof.
  intros R L. unfold _compare_inventory. fold R. fold L.
  destruct (match_loop_rows (website_map website_vehicles)
              (filter (fun kv => is_active (snd kv) = true) tbl)
              (sorted (R ∩ L)) [] 0%nat) as (both & E & V & S).
  { intros k Hk%sorted_elem. by apply match_row_found. }
  rewrite E. simpl.
  exists both, (omap (missing_local_row (website_map website_vehicles)) (sorted (R ∖ L))),
    (omap (missing_remote_row (filter (fun kv => is_active (snd kv) = true) tbl))
          (sorted (L ∖ R))).
  split; [by rewrite <- app_assoc|].
  split; [by rewrite <- V, length_fmap|].
  split; [done|]. split.
  - apply missing_local_rows. intros k Hk%sorted_elem.
    apply elem_of_difference in Hk as [Hk _]. by apply website_map_lookup.
  - apply missing_remote_rows. intros k Hk%sorted_elem.
    apply elem_of_difference in Hk as [Hk _]. by apply elem_of_dom.
Qed.

(** X15.  The rows of the drift report: the VINs found on both sides in
    sorted order, then those only on the website, then those only in the
    active catalog.  Every VIN of either side has exactly one row, and
    the status of a row says on which sides its VIN was found. *)
Theorem compare_report_rows (website_vehicles : list website_vehicle)
    (tbl : gmap string Vehicle) (max_pages now : Z) :
  let R : gset string := list_to_set (wv_vin <$> website_vehicles) in
  let L : gset string := dom (filter (fun kv => is_active (snd kv) = true) tbl) in
  let c := _compare_inventory website_vehicles tbl max_pages now in
  icv_vin <$> vehicles c = sorted (R ∩ L) ++ sorted (R ∖ L) ++ sorted (L ∖ R)
  /\ NoDup (icv_vin <$> vehicles c)
  /\ (forall x, x ∈ icv_vin <$> vehicles c <-> x ∈ R ∪ L)
  /\ (forall row, row ∈ vehicles c ->
        icv_status row
        = if bool_decide (icv_vin row ∈ R)
          then if bool_decide (icv_vin row ∈ L) then "match"%string
               else "missing_local"%string
          else "missing_remote"%string).
Proof.
  intros R L c. subst c.
  destruct (compare_rows website_vehicles tbl max_pages now)
    as (both & here & there & -> & _ & [V1 S1] & [V2 S2] & [V3 S3]).
  fold R in V1, V2, V3. fold L in V1, V2, V3.
  assert (Hvins : icv_vin <$> both ++ here ++ there
                  = sorted (R ∩ L) ++ sorted (R ∖ L) ++ sorted (L ∖ R)).
  { by rewrite !fmap_app, V1, V2, V3. }
  split; [exact Hvins|]. split; [|split].
  - rewrite Hvins. apply NoDup_app. split; [apply sorted_NoDup|]. split.
    + intros x H1%sorted_elem H2. apply elem_of_intersection in H1 as [Ha Hb].
      apply elem_of_app in H2 as [H2%sorted_elem|H2%sorted_elem];
        apply elem_of_difference in H2 as [_ Hn]; by apply Hn.
    + apply NoDup_app. split; [apply sorted_NoDup|]. split; [|apply sorted_NoDup].
      intros x H1%sorted_elem H2%sorted_elem.
      apply elem_of_difference in H1 as [Ha _].
      apply elem_of_difference in H2 as [_ Hn]. by apply Hn.
  - intros x. rewrite Hvins, !elem_of_app, !sorted_elem.
    rewrite elem_of_intersection, !elem_of_difference, elem_of_union.
    destruct (decide (x ∈ R)), (decide (x ∈ L)); tauto.
  - intros row Hrow. rewrite !elem_of_app in Hrow.
    assert (Hin : forall (l : list InventoryComparisonVehicle),
              row ∈ l -> icv_vin row ∈ icv_vin <$> l).
    { intros l Hl. apply list_elem_of_fmap. eauto. }
    destruct Hrow as [H|[H|H]].
    + rewrite Forall_forall in S1. rewrite (S1 row H).
      apply Hin in H. rewrite V1 in H. apply sorted_elem, elem_of_intersection in H as [? ?].
      by rewrite !bool_decide_eq_true_2.
    + rewrite Forall_forall in S2. rewrite (S2 row H).
      apply Hin in H. rewrite V2 in H. apply sorted_elem, elem_of_difference in H as [? ?].
      by rewrite bool_decide_eq_true_2, bool_decide_eq_false_2.
    + rewrite Forall_forall in S3. rewrite (S3 row H).
      apply Hin in H. rewrite V3 in H. apply sorted_elem, elem_of_difference in H as [? ?].
      by rewrite bool_decide_eq_false_2.
Qed.

End DriftReport.

Section WebsiteScan.
Import Monitor.
Variables (fetch : Z -> option PageData) (max_pages : Z).

Lemma scan_link_inv (st : Scan) (link : option website_vehicle) :
  scan_inv (seen_vins st) (all_vehicles st) ->
  scan_inv (seen_vins (scan_link st link)) (all_vehicles (scan_link st link)).
Proof.
  intros [Hnd Hseen]. unfold scan_link. destruct link as [wv|]; [|done].
  destruct (decide (wv_vin wv ∈ seen_vins st)) as [Hin|Hout].
  - by rewrite bool_decide_eq_true_2.
  - rewrite bool_decide_eq_false_2 by done. simpl. split.
    + rewrite fmap_app. apply NoDup_app. split; [done|]. split.
      * intros x Hx Hx'. apply list_elem_of_singleton in Hx'. subst x.
        by apply Hout, Hseen.
      * apply NoDup_singleton.
    + intros x. rewrite fmap_app, elem_of_app, elem_of_union. intros [Hx|Hx].
      * right. by apply Hseen.
      * left. apply list_elem_of_singleton in Hx. by apply elem_of_singleton.
Qed.

Lemma scan_links_inv (links : list (option website_vehicle)) :
  forall st : Scan,
    scan_inv (seen_vins st) (all_vehicles st) ->
    scan_inv (seen_vins (fold_left scan_link links st))
             (all_vehicles (fold_left scan_link links st)).
Proof.
  induction links as [|link links IH]; intros st Hinv; cbn [fold_left]; [done|].
  by apply IH, scan_link_inv.
Qed.

Lemma scan_links_from (links : list (option website_vehicle)) (wv : website_vehicle) :
  forall st : Scan,
    wv ∈ all_vehicles (fold_left scan_link links st) ->
    wv ∈ all_vehicles st \/ Some wv ∈ links.
Proof.
  induction links as [|link links IH]; intros st Hin; cbn [fold_left] in Hin; [by left|].
  destruct (IH _ Hin) as [Hst|Hl]; [|right; by right].
  unfold scan_link in Hst. destruct link as [w|]; [|by left].
  destruct (bool_decide (wv_vin w ∈ seen_vins st)); [by left|].
  simpl in Hst. apply elem_of_app in Hst as [?|Hw]; [by left|].
  apply list_elem_of_singleton in Hw. subst w. right. by left.
Qed.

Lemma scan_pages_sound (fuel : nat) :
  forall (page_num : Z) (seen : gset string) (found0 found : list website_vehicle)
         (p : Z),
    scan_pages fuel fetch max_pages page_num seen found0 = Some (found, p) ->
    scan_inv seen found0 ->
    NoDup (wv_vin <$> found)
    /\ page_num <= p
    /\ forall wv, wv ∈ found ->
         wv ∈ found0
         \/ exists n pd, page_num <= n <= p /\ fetch n = Some pd
                         /\ Some wv ∈ detail_urls pd.
Proof.
  induction fuel as [|fuel IH]; intros page_num seen found0 found p Hrun Hinv;
    [done|].
  cbn [scan_pages] in Hrun.
  assert (Hstop : forall q, page_num <= q ->
            NoDup (wv_vin <$> found0) /\ page_num <= q
            /\ forall wv, wv ∈ found0 ->
                 wv ∈ found0
                 \/ exists n pd, page_num <= n <= q /\ fetch n = Some pd
                                 /\ Some wv ∈ detail_urls pd).
  { intros q Hq. split; [apply Hinv|]. split; [done|]. intros wv Hwv. by left. }
  destruct (fetch page_num) as [pd|] eqn:Hfetch.
  2:{ injection Hrun as <- <-. apply Hstop. lia. }
  destruct (detail_urls pd) as [|link links] eqn:Hlinks.
  { injection Hrun as <- <-. apply Hstop. lia. }
  rewrite <- Hlinks in Hrun.
  set (st := fold_left scan_link (detail_urls pd) (MkScan found0 seen 0)) in Hrun.
  assert (Hst : scan_inv (seen_vins st) (all_vehicles st)).
  { apply (scan_links_inv (detail_urls pd) (MkScan found0 seen 0)). exact Hinv. }
  assert (Hfrom : forall wv q, page_num <= q -> wv ∈ all_vehicles st ->
            wv ∈ found0
            \/ exists n pd', page_num <= n <= q /\ fetch n = Some pd'
                             /\ Some wv ∈ detail_urls pd').
  { intros wv q Hq Hwv.
    destruct (scan_links_from (detail_urls pd) wv (MkScan found0 seen 0) Hwv)
      as [?|Hl]; [by left|].
    right. exists page_num, pd. split; [lia|]. by split. }
  assert (Hhere : forall q, page_num <= q ->
            NoDup (wv_vin <$> all_vehicles st) /\ page_num <= q
            /\ forall wv, wv ∈ all_vehicles st ->
                 wv ∈ found0
                 \/ exists n pd', page_num <= n <= q /\ fetch n = Some pd'
                                  /\ Some wv ∈ detail_urls pd').
  { intros q Hq. split; [apply Hst|]. split; [done|]. intros wv. by apply Hfrom. }
  destruct (progress_fails pd).
  { injection Hrun as <- <-. apply Hhere. lia. }
  destruct (page_found st =? 0)%nat.
  { injection Hrun as <- <-. apply Hhere. lia. }
  destruct (negb (has_next page_num (page_nums_found pd))).
  { injection Hrun as <- <-. apply Hhere. lia. }
  destruct (negb (max_pages =? 0) && (max_pages <? page_num + 1)).
  { injection Hrun as <- <-. apply Hhere. lia. }
  destruct (IH _ _ _ _ _ Hrun Hst) as (Hnd & Hp & Hprov).
  split; [done|]. split; [lia|].
  intros wv Hwv. destruct (Hprov wv Hwv) as [Hin|(n & pd' & Hn & Hf & Hl)].
  - apply (Hfrom wv p); [lia | done].
  - right. exists n, pd'. split; [lia|]. by split.
Qed.

Lemma scan_pages_more_fuel (fuel : nat) :
  forall (page_num : Z) (seen : gset string) (found0 : list website_vehicle)
         (r : list website_vehicle * Z),
    scan_pages fuel fetch max_pages page_num seen found0 = Some r ->
    scan_pages (S fuel) fetch max_pages page_num seen found0 = Some r.
Proof.
  induction fuel as [|fuel IH]; intros page_num seen found0 r Hrun; [done|].
  cbn [scan_pages] in Hrun. cbn [scan_pages].
  destruct (fetch page_num) as [pd|]; [|done].
  destruct (detail_urls pd) as [|link links]; [done|].
  destruct (progress_fails pd); [done|].
  destruct (page_found _ =? 0)%nat; [done|].
  destruct (negb (has_next page_num (page_nums_found pd))); [done|].
  destruct (negb (max_pages =? 0) && (max_pages <? page_num + 1)); [done|].
  by apply IH.
Qed.

Lemma scan_pages_bounded (fuel : nat) :
  forall (page_num : Z) (seen : gset string) (found0 : list website_vehicle),
    0 < max_pages -> 1 <= page_num <= max_pages ->
    (Z.to_nat (max_pages - page_num + 1) <= fuel)%nat ->
    exists found p,
      scan_pages fuel fetch max_pages page_num seen found0 = Some (found, p)
      /\ page_num <= p <= max_pages + 1.
Proof.
  induction fuel as [|fuel IH]; intros page_num seen found0 Hmax Hpage Hfuel; [lia|].
  cbn [scan_pages].
  destruct (fetch page_num) as [pd|]; [|eexists _, _; split; [done | lia]].
  destruct (detail_urls pd) as [|link links] eqn:Hlinks;
    [eexists _, _; split; [done | lia]|].
  rewrite <- Hlinks.
  destruct (progress_fails pd); [eexists _, _; split; [done | lia]|].
  destruct (page_found _ =? 0)%nat; [eexists _, _; split; [done | lia]|].
  destruct (negb (has_next page_num (page_nums_found pd)));
    [eexists _, _; split; [done | lia]|].
  destruct (Z.ltb_spec max_pages (page_num + 1)) as [Hlt|Hge].
  - assert (E : negb (max_pages =? 0) = true)
      by (apply negb_true_iff, Z.eqb_neq; lia).
    rewrite E. simpl. eexists _, _. split; [done | lia].
  - rewrite andb_false_r.
    destruct (IH (page_num + 1) (seen_vins (fold_left scan_link (detail_urls pd)
                                                      (MkScan found0 seen 0)))
                 (all_vehicles (fold_left scan_link (detail_urls pd)
                                          (MkScan found0 seen 0))))
      as (found & p & E & Hp); [lia | lia | lia |].
    exists found, p. split; [done | lia].
Qed.

(** X16.  What the website scan returns, whenever it returns: vehicles
    with pairwise distinct VINs, each built from a detail link of a page
    the scan fetched, the pages being numbered from 1 to the page the
    scan stopped at. *)
Theorem quick_check_vehicles (fuel : nat) (found : list website_vehicle) (p : Z) :
  _quick_website_check fuel fetch max_pages = Some (found, p) ->
  NoDup (wv_vin <$> found)
  /\ 1 <= p
  /\ forall wv, wv ∈ found ->
       exists n pd, 1 <= n <= p /\ fetch n = Some pd /\ Some wv ∈ detail_urls pd.
Proof.
  intros Hrun. unfold _quick_website_check in Hrun.
  destruct (scan_pages_sound fuel 1 ∅ [] found p Hrun) as (Hnd & Hp & Hprov).
  { split; [constructor|]. intros x Hx. by apply elem_of_nil in Hx. }
  split; [done|]. split; [done|].
  intros wv Hwv. destruct (Hprov wv Hwv) as [Hnil|H]; [|done].
  by apply elem_of_nil in Hnil.
Qed.

(** X17.  With a page limit [max_pages > 0] the website scan ends
    whatever the website serves: [max_pages] turns of the loop are
    enough, more turns change nothing, and the scan stops at a page
    number of at most [max_pages + 1], so it fetches no page beyond
    [max_pages]. *)
Theorem quick_check_page_limit :
  0 < max_pages ->
  exists found p,
    1 <= p <= max_pages + 1
    /\ forall fuel, (Z.to_nat max_pages <= fuel)%nat ->
         _quick_website_check fuel fetch max_pages = Some (found, p).
Proof.
  intros Hmax. unfold _quick_website_check.
  destruct (scan_pages_bounded (Z.to_nat max_pages) 1 ∅ [] Hmax) as (found & p & E & Hp);
    [lia | lia |].
  exists found, p. split; [lia|].
  intros fuel Hfuel. induction Hfuel as [|fuel Hle IH]; [done|].
  by apply scan_pages_more_fuel.
Qed.

(** X18.  The counts of a drift report made from a website scan add
    up: the website count is matched plus missing locally (the scan
    returns each VIN once), the local count is matched plus extra
    locally, and the report has one row for each of the three. *)
Theorem compare_counts_after_scan (fuel : nat) (found : list website_vehicle) (p : Z)
    (tbl : gmap string Vehicle) (now : Z) :
  _quick_website_check fuel fetch max_pages = Some (found, p) ->
  let c := _compare_inventory found tbl max_pages now in
  website_count c = (matched c + missing_locally c)%nat
  /\ local_count c = (matched c + extra_locally c)%nat
  /\ length (vehicles c) = (matched c + missing_locally c + extra_locally c)%nat.
Proof.
  intros Hrun c. subst c.
  destruct (quick_check_vehicles fuel found p Hrun) as (Hnd & _ & _).
  destruct (compare_rows found tbl max_pages now)
    as (both & here & there & Hrows & Hm & [V1 _] & [V2 _] & [V3 _]).
  rewrite Hrows, Hm.
  set (R := (list_to_set (wv_vin <$> found) : gset string)) in *.
  set (L := dom (filter (fun kv => is_active (snd kv) = true) tbl)) in *.
  assert (Hboth : length both = size (R ∩ L)).
  { by rewrite <- (length_fmap icv_vin), V1, sorted_length. }
  assert (Hhere : length here = size (R ∖ L)).
  { by rewrite <- (length_fmap icv_vin), V2, sorted_length. }
  assert (Hthere : length there = size (L ∖ R)).
  { by rewrite <- (length_fmap icv_vin), V3, sorted_length. }
  assert (HR : size R = (size (R ∩ L) + size (R ∖ L))%nat).
  { rewrite <- size_union.
    - f_equal. apply set_eq. intros x.
      rewrite elem_of_union, elem_of_intersection, elem_of_difference.
      destruct (decide (x ∈ L)); tauto.
    - intros x [_ H1]%elem_of_intersection [_ H2]%elem_of_difference. done. }
  assert (HL : size L = (size (R ∩ L) + size (L ∖ R))%nat).
  { rewrite <- size_union.
    - f_equal. apply set_eq. intros x.
      rewrite elem_of_union, elem_of_intersection, elem_of_difference.
      destruct (decide (x ∈ R)); tauto.
    - intros x [H1 _]%elem_of_intersection [_ H2]%elem_of_difference. done. }
  unfold _compare_inventory. fold R. fold L.
  destruct (fold_left _ _ _) as [rows m]. simpl.
  split; [|split].
  - rewrite Hboth, <- HR. unfold R. rewrite size_list_to_set by done.
    by rewrite length_fmap.
  - rewrite Hboth, <- HL. unfold L. by rewrite size_dom.
  - rewrite !length_app. lia.
Qed.

End WebsiteScan.

Section WebsiteScanWitnesses.
Import Monitor Scenario.

(** The scan of the two pages without a page limit. *)
Lemma quick_check_vehicles_witness :
  _quick_website_check 5 two_pages 0 = Some ([accord_link; civic_link], 2)
  /\ NoDup (wv_vin <$> [accord_link; civic_link])
  /\ 1 <= 2
  /\ forall wv, wv ∈ [accord_link; civic_link] ->
       exists n pd, 1 <= n <= 2 /\ two_pages n = Some pd /\ Some wv ∈ detail_urls pd.
Proof.
  assert (H0 : _quick_website_check 5 two_pages 0
               = Some ([accord_link; civic_link], 2)) by (vm_compute; reflexivity).
  split; [exact H0|].
  exact (quick_check_vehicles two_pages 0 5 [accord_link; civic_link] 2 H0).
Defined.

(** The scan of the two pages with a limit of one page. *)
Lemma quick_check_page_limit_witness :
  0 < 1
  /\ exists found p,
       1 <= p <= 1 + 1
       /\ forall fuel, (Z.to_nat 1 <= fuel)%nat ->
            _quick_website_check fuel two_pages 1 = Some (found, p).
Proof.
  assert (H0 : 0 < 1) by lia.
  split; [exact H0|].
  exact (quick_check_page_limit two_pages 1 H0).
Defined.

(** The two vehicles of the website against a catalog that holds the
    Accord. *)
Lemma compare_counts_witness :
  _quick_website_check 5 two_pages 0 = Some ([accord_link; civic_link], 2)
  /\ (let c := _compare_inventory [accord_link; civic_link] (accord_table true) 0 7 in
      website_count c = (matched c + missing_locally c)%nat
      /\ local_count c = (matched c + extra_locally c)%nat
      /\ length (vehicles c) = (matched c + missing_locally c + extra_locally c)%nat).
Proof.
  assert (H0 : _quick_website_check 5 two_pages 0
               = Some ([accord_link; civic_link], 2)) by (vm_compute; reflexivity).
  split; [exact H0|].
  exact (compare_counts_after_scan two_pages 0 5 [accord_link; civic_link] 2
           (accord_table true) 7 H0).
Defined.

End WebsiteScanWitnesses.

Section PriceText.
Local Open Scope string_scope.

Lemma filter_idem {A : Type} (f : A -> bool) (l : list A) :
  List.filter f (List.filter f l) = List.filter f l.
Proof.
  induction l as [|a l IH]; simpl; [done|].
  destruct (f a) eqn:E; simpl; [|done]. by rewrite E, IH.
Qed.

Lemma keep_digits_dot_idem (s : string) :
  keep_digits_dot (keep_digits_dot s) = keep_digits_dot s.
Proof. unfold keep_digits_dot. by rewrite chars_of_chars, filter_idem. Qed.

Lemma py_float_empty : py_float "" = None.
Proof. reflexivity. Qed.

(** X20.  [_parse_price] reads the digits and dots of its text and
    nothing else: the price of a text is the price of its cleaned form.
    A price it returns is positive.  And it agrees with the price lines
    of [build_vehicle_record] on the same text, except that it returns
    [None] where those keep a zero. *)
Theorem parse_price_reads_digits_only (t : string) :
  Parser._parse_price (Some t) = Parser._parse_price (Some (keep_digits_dot t))
  /\ match Parser._parse_price (Some t) with
     | Some price => (0 < float_Q price)%Q
     | None => True
     end
  /\ Parser._parse_price (Some t)
     = match RecordBuilder.build_vehicle_record_price
               (RecordBuilder.JsonLd None "") {[ "price" := t ]} with
       | Some price => if float_is_zero price then None else Some price
       | None => None
       end.
Proof.
  split; [|split].
  - unfold Parser._parse_price. rewrite keep_digits_dot_idem.
    destruct (String.eqb_spec t "") as [->|Ht].
    + reflexivity.
    + destruct (String.eqb_spec (keep_digits_dot t) "") as [E|_]; [|done].
      by rewrite E, py_float_empty.
  - destruct (Parser._parse_price (Some t)) as [price|] eqn:E; [|done].
    apply float_gt_zero_Q. unfold Parser._parse_price in E.
    destruct (String.eqb t ""); [done|].
    destruct (py_float (keep_digits_dot t)) as [f|]; [|done].
    destruct (float_gt_zero f) eqn:G; [|done]. by injection E as <-.
  - unfold Parser._parse_price, RecordBuilder.build_vehicle_record_price,
      RecordBuilder.specs_get, RecordBuilder.str_or. cbn [RecordBuilder.ld_offer_price default].
    rewrite String.eqb_refl, lookup_singleton_eq. cbn [default].
    rewrite lookup_singleton_ne by discriminate. cbn [default]. unfold id.
    destruct (String.eqb_spec t "") as [->|Ht]; [reflexivity|].
    destruct (String.eqb_spec (keep_digits_dot t) "") as [E|_].
    + by rewrite E, py_float_empty.
    + destruct (py_float (keep_digits_dot t)) as [f|]; [|done].
      unfold float_gt_zero. by destruct (float_is_zero f).
Qed.

End PriceText.

Section Filenames.
Import Utils.

Lemma length_of_chars (l : list ascii) : String.length (of_chars l) = length l.
Proof. induction l as [|c l IH]; simpl; [done | by rewrite IH]. Qed.

Lemma length_chars (s : string) : length (chars s) = String.length s.
Proof. induction s as [|c s IH]; simpl; [done | by rewrite IH]. Qed.

Lemma of_chars_chars (s : string) : of_chars (chars s) = s.
Proof. induction s as [|c s IH]; simpl; [done | by rewrite IH]. Qed.

Lemma map_keep_fixed (l : list ascii) :
  map (fun c => if in_keep c then c else "_"%char) l = l
  <-> Forall (fun c => in_keep c = true) l.
Proof.
  induction l as [|c l IH]; simpl.
  - split; [constructor | done].
  - split.
    + intros H. injection H as Hc Hl. constructor; [|by apply IH].
      destruct (in_keep c) eqn:E; [done|]. subst c. discriminate.
    + intros H. apply Forall_cons in H as [Hc Hl]. rewrite Hc. f_equal. by apply IH.
Qed.

(** X21.  [sanitize_filename] keeps the length of the name and every
    character of the keep set where it is, and puts [_] in the place of
    every other character; so the result holds safe characters only,
    sanitizing twice is sanitizing once, and the names left unchanged
    are exactly those that were safe. *)
Theorem sanitize_filename_safe (name : string) :
  String.length (sanitize_filename name) = String.length name
  /\ Forall (fun c => in_keep c = true) (chars (sanitize_filename name))
  /\ sanitize_filename (sanitize_filename name) = sanitize_filename name
  /\ (sanitize_filename name = name <-> Forall (fun c => in_keep c = true) (chars name))
  /\ forall i c, chars name !! i = Some c ->
       chars (sanitize_filename name) !! i
       = Some (if in_keep c then c else "_"%char).
Proof.
  unfold sanitize_filename.
  assert (Hsafe : Forall (fun c => in_keep c = true)
                    (map (fun c => if in_keep c then c else "_"%char) (chars name))).
  { apply Forall_forall. intros c Hc. apply list_elem_of_In, in_map_iff in Hc as (c0 & <- & _).
    destruct (in_keep c0) eqn:E; [done | reflexivity]. }
  split; [|split; [|split; [|split]]].
  - by rewrite length_of_chars, length_map, length_chars.
  - by rewrite chars_of_chars.
  - rewrite chars_of_chars. f_equal. by apply map_keep_fixed.
  - rewrite <- map_keep_fixed. split.
    + intros H. rewrite <- H at 2. by rewrite chars_of_chars.
    + intros H. by rewrite H, of_chars_chars.
  - intros i c Hi. rewrite chars_of_chars.
    change (map ?f ?l) with (f <$> l). by rewrite list_lookup_fmap, Hi.
Qed.

End Filenames.
